(** * Query safety and metadata synthesis of the Power BI chat client

    A shallow embedding of [dax-validator.js], [utils.js],
    [xmla-connection.js] and the request handler of [main.js], and the
    properties of the query validator, the XMLA codec, the connection
    manager, the metadata synthesizer and the desktop shell.

    Conventions of the embedding.
    - A JavaScript string is the list of its UTF-16 code units, each a
      number ([N]).
    - An object literal used as a dictionary ([rowData], [tableIdToName],
      [columnsByTable], [sampleData]) is the finite map of its own
      properties; a read also finds the members it inherits from
      [Object.prototype], and a write under [__proto__] adds no property.
    - A regular expression literal is a sequence of atoms matched by a
      backtracking matcher with the priorities of ECMAScript (leftmost
      match, greedy quantifiers); the expressions of [main.js], one
      group after a literal text, have matchers of their own.
    - Code that can throw returns [res]; code that mutates the connection
      or talks to the host runs in a state-and-exception monad. *)

From Stdlib Require Import String Ascii NArith ZArith DecimalString.
From stdpp Require Import gmap list.

Local Open Scope N_scope.

(** ** Strings *)

Module Js.

Abbreviation jsstring := (list N).

(** A source literal, given as its ASCII text. *)
Definition lit (s : string) : jsstring :=
  map N_of_ascii (list_ascii_of_string s).

(** [ToString] of a non-negative integer-valued number (below 10^21,
    where JavaScript still prints plain decimal digits). *)
Definition show (n : N) : jsstring :=
  lit (NilZero.string_of_uint (N.to_uint n)).

(** WhiteSpace and LineTerminator code units: the set removed by
    [String.prototype.trim] and matched by [\s]. *)
Definition is_ws (c : N) : bool :=
  ((9 <=? c) && (c <=? 13)) || (c =? 32) || (c =? 160) || (c =? 5760)
  || ((8192 <=? c) && (c <=? 8202)) || (c =? 8232) || (c =? 8233)
  || (c =? 8239) || (c =? 8287) || (c =? 12288) || (c =? 65279).

Definition is_digit (c : N) : bool := (48 <=? c) && (c <=? 57).

(** The word characters of [\b]: [A-Za-z0-9_]. *)
Definition is_word (c : N) : bool :=
  ((65 <=? c) && (c <=? 90)) || ((97 <=? c) && (c <=? 122))
  || is_digit c || (c =? 95).

Definition is_ascii (c : N) : bool := c <? 128.

Definition ascii_upper (c : N) : N :=
  if (97 <=? c) && (c <=? 122) then c - 32 else c.

Fixpoint drop_ws (s : jsstring) : jsstring :=
  match s with
  | c :: s' => if is_ws c then drop_ws s' else s
  | [] => []
  end.

(** [String.prototype.trim]. *)
Definition trim (s : jsstring) : jsstring :=
  reverse (drop_ws (reverse (drop_ws s))).

Fixpoint starts_with (p s : jsstring) : bool :=
  match p, s with
  | [], _ => true
  | a :: p', b :: s' => (a =? b) && starts_with p' s'
  | _ :: _, [] => false
  end.

(** [String.prototype.includes]. *)
Fixpoint includes (s needle : jsstring) : bool :=
  starts_with needle s ||
  match s with
  | _ :: s' => includes s' needle
  | [] => false
  end.

(** [Array.prototype.join]. *)
Fixpoint join (sep : jsstring) (l : list jsstring) : jsstring :=
  match l with
  | [] => []
  | [x] => x
  | x :: l' => x ++ sep ++ join sep l'
  end.

(** Values a caller can pass where the code expects a string. *)
Inductive JsValue :=
| JUndefined
| JNull
| JBool (b : bool)
| JNum (z : Z)
| JStr (s : jsstring)
| JObj.

(** The outcome of code that may throw an [Error] with a message. *)
Inductive res (A : Type) :=
| Ok (a : A)
| Throw (message : jsstring).
Arguments Ok {A} a.
Arguments Throw {A} message.

End Js.
Export Js.

(** ** Regular expressions *)

Module Rx.

Inductive quant := One | Star | Plus.

Inductive atom :=
| Chr (p : N → bool) (q : quant)   (* a character or class, quantified *)
| Bol                              (* ^ *)
| Eol                              (* $ *)
| WordB.                           (* \b *)

Definition regex := list atom.

Definition chr (c : ascii) : N → bool := fun x => x =? N_of_ascii c.
Definition not_chr (c : ascii) : N → bool := fun x => negb (x =? N_of_ascii c).

(** A literal character under the [i] flag. The patterns of this program
    only have ASCII literals, for which canonicalization is ASCII
    upper-casing. *)
Definition ci (c : N) : N → bool := fun x => ascii_upper x =? ascii_upper c.

(** A literal piece of a pattern with, respectively without, the [i] flag. *)
Definition text_i (s : jsstring) : regex := map (fun c => Chr (ci c) One) s.
Definition text (s : jsstring) : regex := map (fun c => Chr (N.eqb c) One) s.

Definition word_at (c : option N) : bool :=
  match c with Some x => is_word x | None => false end.

(** Greedy iteration of a class, then the continuation [k]; gives back one
    repetition at a time when [k] fails. *)
Fixpoint star (p : N → bool) (k : option N → jsstring → option nat)
    (prev : option N) (s : jsstring) : option nat :=
  match s with
  | c :: s' =>
      if p c then
        match star p k (Some c) s' with
        | Some n => Some (S n)
        | None => k prev s
        end
      else k prev s
  | [] => k prev s
  end.

(** [match_here r prev s]: the number of code units consumed by the first
    match of [r] that starts exactly at [s], where [prev] is the code unit
    before it (none at the start of the input). *)
Fixpoint match_here (r : regex) : option N → jsstring → option nat :=
  match r with
  | [] => fun _ _ => Some 0%nat
  | Bol :: r' => fun prev s =>
      match prev with None => match_here r' prev s | Some _ => None end
  | Eol :: r' => fun prev s =>
      match s with [] => match_here r' prev s | _ :: _ => None end
  | WordB :: r' => fun prev s =>
      if xorb (word_at prev) (word_at (head s)) then match_here r' prev s
      else None
  | Chr p One :: r' => fun prev s =>
      match s with
      | c :: s' => if p c then S <$> match_here r' (Some c) s' else None
      | [] => None
      end
  | Chr p Star :: r' => star p (match_here r')
  | Chr p Plus :: r' => fun prev s =>
      match s with
      | c :: s' => if p c then S <$> star p (match_here r') (Some c) s' else None
      | [] => None
      end
  end.

(** The leftmost match at or after the current position: its offset and
    its length. *)
Fixpoint search (r : regex) (prev : option N) (s : jsstring) : option (nat * nat) :=
  match match_here r prev s with
  | Some n => Some (0%nat, n)
  | None =>
      match s with
      | c :: s' => (λ '(i, n), (S i, n)) <$> search r (Some c) s'
      | [] => None
      end
  end.

(** A [RegExp] object: its source text, its compiled pattern, the [g] flag
    and the [lastIndex] property. *)
Record RegExp := {
  source : jsstring;
  pattern : regex;
  global : bool;
  lastIndex : nat
}.

Definition set_lastIndex (i : nat) (re : RegExp) : RegExp :=
  {| source := source re; pattern := pattern re; global := global re;
     lastIndex := i |}.

(** [RegExp.prototype.exec] as far as [test] needs it: the search starts
    at [lastIndex] for a global expression and at 0 otherwise; a global
    expression remembers where the match ended, and is reset on failure. *)
Definition exec_end (re : RegExp) (s : jsstring) : option nat :=
  let i := if global re then lastIndex re else 0%nat in
  if (length s <? i)%nat then None
  else (λ '(b, n), (i + b + n)%nat) <$> search (pattern re) (last (take i s)) (drop i s).

(** [RegExp.prototype.test]: the answer and the expression afterwards. *)
Definition test (re : RegExp) (s : jsstring) : bool * RegExp :=
  match exec_end re s with
  | Some e => (true, if global re then set_lastIndex e re else re)
  | None => (false, if global re then set_lastIndex 0 re else re)
  end.

(** [test] on an expression created where it is used ([/.../.test(s)] or
    [new RegExp(...)]): [lastIndex] starts at 0 and the object is dropped. *)
Definition test_fresh (r : regex) (s : jsstring) : bool :=
  match search r None s with Some _ => true | None => false end.

(** [String.prototype.replace] with a global expression and a replacement
    text without [$]: every match, found from left to right without
    overlap, is replaced. [skip] code units of a match are still to be
    passed over; an empty match advances by one code unit. *)
Fixpoint replace_go (r : regex) (repl : jsstring) (prev : option N)
    (s : jsstring) (skip : nat) : jsstring :=
  match s with
  | [] =>
      match skip with
      | O => match match_here r prev [] with Some _ => repl | None => [] end
      | S _ => []
      end
  | c :: s' =>
      match skip with
      | S k => replace_go r repl (Some c) s' k
      | O =>
          match match_here r prev s with
          | Some O => repl ++ c :: replace_go r repl (Some c) s' 0
          | Some (S k) => repl ++ replace_go r repl (Some c) s' k
          | None => c :: replace_go r repl (Some c) s' 0
          end
      end
  end.

Definition replace_all (r : regex) (repl : jsstring) (s : jsstring) : jsstring :=
  replace_go r repl None s 0.

End Rx.
Export Rx.

(** ** dax-validator.js *)

Module Validator.

(** The [QUERY] section of the application configuration, as far as the
    validator reads it; a field that is absent is [None]. *)
Record Config := {
  MAX_DAX_RESULT_ROWS : option N;
  DAX_WARNING_THRESHOLD : option N;
  BLOCKED_PATTERNS : option (list RegExp);
  DANGEROUS_FUNCTIONS : option (list jsstring)
}.

(** [x || d] on an optional number: absent and 0 are falsy. *)
Definition num_or (x : option N) (d : N) : N :=
  match x with
  | Some 0 | None => d
  | Some n => n
  end.

Record DAXValidator := {
  maxRows : N;
  warningThreshold : N;
  blockedPatterns : list RegExp;
  dangerousFunctions : list jsstring
}.

(** [constructor(config)]. *)
Definition new_DAXValidator (config : option Config) : DAXValidator :=
  let config := default {| MAX_DAX_RESULT_ROWS := None; DAX_WARNING_THRESHOLD := None;
                           BLOCKED_PATTERNS := None; DANGEROUS_FUNCTIONS := None |} config in
  {| maxRows := num_or (MAX_DAX_RESULT_ROWS config) 10000;
     warningThreshold := num_or (DAX_WARNING_THRESHOLD config) 1000;
     blockedPatterns := default [] (BLOCKED_PATTERNS config);
     dangerousFunctions := default [] (DANGEROUS_FUNCTIONS config) |}.

Definition set_blockedPatterns (ps : list RegExp) (v : DAXValidator) : DAXValidator :=
  {| maxRows := maxRows v; warningThreshold := warningThreshold v;
     blockedPatterns := ps; dangerousFunctions := dangerousFunctions v |}.

Record ValidationResult := {
  isValid : bool;
  warnings : list jsstring;
  errors : list jsstring;
  modified : bool;
  modifiedQuery : JsValue
}.

Definition fail_with (e : jsstring) (r : ValidationResult) : ValidationResult :=
  {| isValid := false; warnings := warnings r; errors := errors r ++ [e];
     modified := modified r; modifiedQuery := modifiedQuery r |}.

Definition warn (w : jsstring) (r : ValidationResult) : ValidationResult :=
  {| isValid := isValid r; warnings := warnings r ++ [w]; errors := errors r;
     modified := modified r; modifiedQuery := modifiedQuery r |}.

Definition rewrite_to (q : jsstring) (r : ValidationResult) : ValidationResult :=
  {| isValid := isValid r; warnings := warnings r; errors := errors r;
     modified := true; modifiedQuery := JStr q |}.

(** The expressions written in [validate] and [sanitize]. *)
Definition re_evaluate : regex :=          (* /^\s*EVALUATE/i *)
  [Bol; Chr is_ws Star] ++ text_i (lit "EVALUATE").
Definition re_topn : regex :=              (* /TOPN\s*\(/i *)
  text_i (lit "TOPN") ++ [Chr is_ws Star; Chr (chr "(") One].
Definition re_top : regex :=               (* /TOP\s+\d+/i *)
  text_i (lit "TOP") ++ [Chr is_ws Plus; Chr is_digit Plus].
Definition re_select : regex :=            (* /^\s*SELECT/i *)
  [Bol; Chr is_ws Star] ++ text_i (lit "SELECT").
Definition re_keyword (keyword : jsstring) : regex :=   (* \bkeyword\b, i *)
  [WordB] ++ text_i keyword ++ [WordB].
(** [func\s*\([^)]*func] with flags [gi], for a function name that is an
    identifier (no character that is special in a pattern). *)
Definition re_nested (func : jsstring) : regex :=
  text_i func ++ [Chr is_ws Star; Chr (chr "(") One; Chr (not_chr ")") Star]
  ++ text_i func.
Definition re_semicolons : regex :=        (* /;+/g *)
  [Chr (chr ";") Plus].
Definition re_trailing : regex :=          (* /;+\s*$/g *)
  [Chr (chr ";") Plus; Chr is_ws Star; Eol].

Definition sqlKeywords : list jsstring :=
  [lit "FROM"; lit "WHERE"; lit "JOIN"; lit "GROUP BY"; lit "HAVING"].

Section Host.

(** [String.prototype.toUpperCase] on a string with a code unit outside
    ASCII follows the Unicode case tables of the host, which are not part
    of this program. *)
Variable unicodeUpper : jsstring → jsstring.

Definition toUpperCase (s : jsstring) : jsstring :=
  if forallb is_ascii s then map ascii_upper s else unicodeUpper s.

(** The loop over [blockedPatterns]: every expression is tested, with the
    effect [test] has on its [lastIndex]. *)
Definition check_blocked (q : jsstring)
    (acc : ValidationResult * list RegExp) (pattern : RegExp)
    : ValidationResult * list RegExp :=
  let '(result, done) := acc in
  let '(hit, pattern') := test pattern q in
  (if hit then
     fail_with (lit "Query contains blocked pattern: " ++ source pattern
                ++ lit ". This may cause performance issues.") result
   else result,
   done ++ [pattern']).

Definition check_nested (q : jsstring) (result : ValidationResult)
    (func : jsstring) : ValidationResult :=
  if test_fresh (re_nested func) q then
    warn (lit "Nested " ++ func
          ++ lit " function detected. This may be slow on large datasets.") result
  else result.

Definition check_keyword (q : jsstring) (result : ValidationResult)
    (keyword : jsstring) : ValidationResult :=
  if test_fresh (re_keyword keyword) q
     && negb (includes (toUpperCase q) (lit "FILTER")) then
    warn (lit "Found SQL keyword '" ++ keyword
          ++ lit "'. Make sure you're using DAX syntax, not SQL.") result
  else result.

(** [validate(daxQuery)]: the result, and the validator with the state its
    blocked patterns are left in. *)
Definition validate (v : DAXValidator) (daxQuery : JsValue)
    : ValidationResult * DAXValidator :=
  let result := {| isValid := true; warnings := []; errors := [];
                   modified := false; modifiedQuery := daxQuery |} in
  match daxQuery with
  | JStr ((_ :: _) as q) =>
      let trimmedQuery := trim q in
      if (length trimmedQuery =? 0)%nat then
        (fail_with (lit "Query cannot be empty") result, v)
      else
        let '(result, patterns) :=
          fold_left (check_blocked trimmedQuery) (blockedPatterns v) (result, []) in
        let result :=
          fold_left (check_nested trimmedQuery) (dangerousFunctions v) result in
        let hasEvaluate := test_fresh re_evaluate trimmedQuery in
        let hasTopN :=
          test_fresh re_topn trimmedQuery || test_fresh re_top trimmedQuery in
        let result :=
          if negb hasTopN && negb hasEvaluate then
            warn (lit "Query does not have a row limit. Consider adding TOPN("
                  ++ show (warningThreshold v) ++ lit ", ...) to limit results.") result
          else result in
        let result :=
          if test_fresh re_select trimmedQuery then
            fail_with (lit "Invalid syntax: DAX queries use EVALUATE, not SELECT. This tool automatically adds EVALUATE for you.") result
          else result in
        let result := fold_left (check_keyword trimmedQuery) sqlKeywords result in
        let result :=
          if negb hasTopN && negb hasEvaluate && isValid result
             && negb (includes (toUpperCase trimmedQuery) (lit "$SYSTEM")) then
            warn (lit "Automatically limited to " ++ show (maxRows v)
                  ++ lit " rows for safety.")
              (rewrite_to (lit "TOPN(" ++ show (maxRows v) ++ lit ", "
                           ++ trimmedQuery ++ lit ")") result)
          else result in
        (result, set_blockedPatterns patterns v)
  | _ => (fail_with (lit "Query is empty or invalid") result, v)
  end.

End Host.

Record ResultValidation := {
  rv_isValid : bool;
  rv_warnings : list jsstring
}.

(** [validateResults(results)]; [None] stands for an argument that is not
    an array. *)
Definition validateResults {A} (v : DAXValidator) (results : option (list A))
    : ResultValidation :=
  match results with
  | None => {| rv_isValid := true; rv_warnings := [] |}
  | Some rows =>
      let n := N.of_nat (length rows) in
      let w1 :=
        if warningThreshold v <? n then
          [lit "Query returned " ++ show n
           ++ lit " rows. Large result sets may impact performance."]
        else [] in
      let w2 :=
        if maxRows v <=? n then
          [lit "Result set was truncated at " ++ show (maxRows v)
           ++ lit " rows. Use TOPN() or FILTER to reduce results."]
        else [] in
      {| rv_isValid := true; rv_warnings := w1 ++ w2 |}
  end.

(** Truthiness of a value. *)
Definition truthy (x : JsValue) : bool :=
  match x with
  | JUndefined | JNull | JBool false | JNum 0%Z | JStr [] => false
  | _ => true
  end.

(** [sanitize(daxQuery)]. A truthy argument that is not a string has no
    [trim] method, and the call throws. *)
Definition sanitize (daxQuery : JsValue) : res jsstring :=
  if negb (truthy daxQuery) then Ok []
  else
    match daxQuery with
    | JStr q =>
        let sanitized := trim q in
        let sanitized := replace_all re_semicolons (lit ";") sanitized in
        let sanitized := replace_all re_trailing [] sanitized in
        Ok sanitized
    | _ => Throw (lit "daxQuery.trim is not a function")
    end.

End Validator.

(** config.js, the [QUERY] section. *)
Module AppConfig.
Import Validator.

Definition blocked (src : string) (p : regex) : RegExp :=
  {| source := lit src; pattern := p; global := true; lastIndex := 0 |}.

Definition QUERY : Config := {|
  MAX_DAX_RESULT_ROWS := Some 10000;
  DAX_WARNING_THRESHOLD := Some 1000;
  BLOCKED_PATTERNS := Some [
    blocked "CROSSJOIN\s*\(\s*ALL"
      (text_i (lit "CROSSJOIN") ++ [Chr is_ws Star; Chr (chr "(") One; Chr is_ws Star]
       ++ text_i (lit "ALL"));
    blocked "GENERATE\s*\(\s*GENERATE"
      (text_i (lit "GENERATE") ++ [Chr is_ws Star; Chr (chr "(") One; Chr is_ws Star]
       ++ text_i (lit "GENERATE"));
    blocked "ADDCOLUMNS\s*\(\s*ADDCOLUMNS"
      (text_i (lit "ADDCOLUMNS") ++ [Chr is_ws Star; Chr (chr "(") One; Chr is_ws Star]
       ++ text_i (lit "ADDCOLUMNS")) ];
  DANGEROUS_FUNCTIONS := Some
    [lit "UNION"; lit "GENERATE"; lit "NATURALLEFTOUTERJOIN"; lit "NATURALINNERJOIN"]
|}.

End AppConfig.


(** ** utils.js *)

Module Utils.

Definition amp : regex := text (lit "&").
Definition lt : regex := text (lit "<").
Definition gt : regex := text (lit ">").
Definition quot : regex := text [34].
Definition apos : regex := text (lit "'").

(** [toString()] of a value that is neither [null] nor [undefined]. *)
Definition toString (x : JsValue) : jsstring :=
  match x with
  | JStr s => s
  | JBool b => lit (if b then "true" else "false")
  | JNum z => lit (NilZero.string_of_int (Z.to_int z))
  | JObj => lit "[object Object]"
  | JUndefined | JNull => []
  end.

(** The chain of replacements shared by every copy of [escapeXml]. *)
Definition escape_chain (s : jsstring) : jsstring :=
  replace_all apos (lit "&apos;")
    (replace_all quot (lit "&quot;")
      (replace_all gt (lit "&gt;")
        (replace_all lt (lit "&lt;")
          (replace_all amp (lit "&amp;") s)))).

(** [escapeXml(unsafe)]. *)
Definition escapeXml (unsafe : JsValue) : jsstring :=
  match unsafe with
  | JNull | JUndefined | JStr [] => []
  | _ => escape_chain (toString unsafe)
  end.

(** [unescapeXml(escaped)], for a string argument. *)
Definition unescapeXml (escaped : jsstring) : jsstring :=
  match escaped with
  | [] => []
  | _ =>
    replace_all (text (lit "&amp;")) (lit "&")
      (replace_all (text (lit "&lt;")) (lit "<")
        (replace_all (text (lit "&gt;")) (lit ">")
          (replace_all (text (lit "&quot;")) [34]
            (replace_all (text (lit "&apos;")) (lit "'") escaped))))
  end.

End Utils.

(** ** The XML documents the host's parser returns *)

Module Dom.

#[local] Set Warnings "-register-all".

Inductive Node :=
| Element (prefix : option jsstring) (localName : jsstring) (childNodes : list Node)
| Text (data : jsstring)
| Comment (data : jsstring).

Definition is_element (n : Node) : bool :=
  match n with Element _ _ _ => true | _ => false end.

(** [element.tagName]: the qualified name. *)
Definition tagName (n : Node) : jsstring :=
  match n with
  | Element (Some p) l _ => p ++ lit ":" ++ l
  | Element None l _ => l
  | _ => []
  end.

Definition localName (n : Node) : jsstring :=
  match n with Element _ l _ => l | _ => [] end.

Definition childNodes (n : Node) : list Node :=
  match n with Element _ _ k => k | _ => [] end.

(** [element.children]: the child nodes that are elements. *)
Definition children (n : Node) : list Node := filter (λ k, is_element k = true) (childNodes n).

(** [node.textContent]: the text of all descendants, comments left out. *)
Fixpoint textContent (n : Node) : jsstring :=
  match n with
  | Element _ _ k =>
      (fix go (l : list Node) : jsstring :=
         match l with
         | [] => []
         | Comment _ :: l' => go l'
         | c :: l' => textContent c ++ go l'
         end) k
  | Text d => d
  | Comment d => d
  end.

(** The elements below a node, in document order. *)
Fixpoint descendants (n : Node) : list Node :=
  match n with
  | Element _ _ k =>
      (fix go (l : list Node) : list Node :=
         match l with
         | [] => []
         | c :: l' => if is_element c then c :: descendants c ++ go l' else go l'
         end) k
  | _ => []
  end.

(** The elements of a document (given by its top-level nodes) or below an
    element, in document order. *)
Definition elements_in (top : list Node) : list Node :=
  flat_map (λ n, if is_element n then n :: descendants n else []) top.

(** [querySelectorAll] with a type selector, which selects by local name,
    whatever the prefix. *)
Definition querySelectorAll (sel : jsstring) (top : list Node) : list Node :=
  filter (λ n, localName n = sel) (elements_in top).

Definition querySelector (sel : jsstring) (top : list Node) : option Node :=
  head (querySelectorAll sel top).

End Dom.

(** ** Object literals used as dictionaries

    An object literal inherits the members of [Object.prototype]: eleven
    functions and the accessor [__proto__]. The program stores strings
    and arrays in such objects and reads them back by computed keys, so
    a read can find an inherited member, and a write under [__proto__]
    goes to the accessor, which adds no property. *)

Module Obj.

Definition proto : jsstring := lit "__proto__".

(** The inherited functions with their [length]. *)
Definition functions : list (string * N) :=
  [("constructor", 1); ("hasOwnProperty", 1); ("isPrototypeOf", 1);
   ("propertyIsEnumerable", 1); ("toLocaleString", 0); ("toString", 0);
   ("valueOf", 0); ("__defineGetter__", 2); ("__defineSetter__", 2);
   ("__lookupGetter__", 1); ("__lookupSetter__", 1)]%string.

Definition inherited (key : jsstring) : bool :=
  bool_decide (key ∈ proto :: map (λ f, lit (fst f)) functions).

(** What a read gives when it gives something: a value the program
    stored, or the member of [Object.prototype] of that name (a function;
    under [__proto__], the prototype itself). *)
Inductive Value (A : Type) :=
| Data (a : A)
| Member (name : jsstring).
Arguments Data {A} a.
Arguments Member {A} name.

(** [member.length]: the [length] of an inherited function; the
    prototype has none. *)
Definition member_length (name : jsstring) : option N :=
  snd <$> head (filter (λ f, lit (fst f) = name) functions).

(** [o[key]], where [o] holds the own properties of the object. *)
Definition read {A} (o : gmap jsstring A) (key : jsstring) : option (Value A) :=
  match o !! key with
  | Some a => Some (Data a)
  | None => if inherited key then Some (Member key) else None
  end.

(** [o[key] = value] for a value that is a string: the setter of
    [__proto__] ignores a value that is not an object. *)
Definition write {A} (key : jsstring) (value : A) (o : gmap jsstring A)
    : gmap jsstring A :=
  if bool_decide (key = proto) then o else <[key := value]> o.

End Obj.

(** ** xmla-connection.js *)

Module Xmla.
Import Validator Dom.
Import Obj (Value, Data, Member).

(** A decoded row: the own properties of the object, child tag to text
    content. The rows are read under fixed names only, none of which
    [Object.prototype] has. *)
Abbreviation Row := (gmap jsstring jsstring).

(** What the main process answers to [electronAPI.xmlaRequest]. *)
Record IpcResult := { success : bool; data : jsstring }.

(** What [fetch] resolves to; [text] is the outcome of [response.text()]. *)
Record Response := {
  ok : bool;
  status : N;
  statusText : jsstring;
  text : res jsstring
}.

Record XMLAConnection := {
  server : jsstring;
  database : jsstring;
  xmlaEndpoint : jsstring;
  daxValidator : option DAXValidator;
  isConnected : bool;
  lastSuccessfulQuery : option N
}.

Record ConnectionStatus := {
  cs_isConnected : bool;
  cs_lastSuccessfulQuery : option N;
  cs_server : jsstring;
  cs_database : jsstring
}.

(** [constructor(server, database)]. [window_CONFIG] is [None] when the
    page has no [window.CONFIG] or no [DAXValidator] class, and otherwise
    holds [CONFIG.QUERY]. *)
Definition new_XMLAConnection (window_CONFIG : option (option Config))
    (server database : jsstring) : XMLAConnection :=
  {| server := server;
     database := database;
     xmlaEndpoint :=
       if starts_with (lit "http://") server || starts_with (lit "https://") server
       then server ++ lit "/xmla"
       else lit "http://" ++ server ++ lit "/xmla";
     daxValidator := new_DAXValidator <$> window_CONFIG;
     isConnected := false;
     lastSuccessfulQuery := None |}.

Definition getConnectionStatus (c : XMLAConnection) : ConnectionStatus :=
  {| cs_isConnected := isConnected c;
     cs_lastSuccessfulQuery := lastSuccessfulQuery c;
     cs_server := server c;
     cs_database := database c |}.

Definition set_connected (b : bool) (c : XMLAConnection) : XMLAConnection :=
  {| server := server c; database := database c; xmlaEndpoint := xmlaEndpoint c;
     daxValidator := daxValidator c; isConnected := b;
     lastSuccessfulQuery := lastSuccessfulQuery c |}.

Definition set_lastSuccessfulQuery (t : N) (c : XMLAConnection) : XMLAConnection :=
  {| server := server c; database := database c; xmlaEndpoint := xmlaEndpoint c;
     daxValidator := daxValidator c; isConnected := isConnected c;
     lastSuccessfulQuery := Some t |}.

Definition set_daxValidator (v : DAXValidator) (c : XMLAConnection) : XMLAConnection :=
  {| server := server c; database := database c; xmlaEndpoint := xmlaEndpoint c;
     daxValidator := Some v; isConnected := isConnected c;
     lastSuccessfulQuery := lastSuccessfulQuery c |}.

(** [escapeXml(unsafe)] of the connection, for a string argument: the
    inline copy, [_escapeXmlFallback] and the shared utility agree there. *)
Definition escapeXml (unsafe : jsstring) : jsstring :=
  match unsafe with
  | [] => []
  | _ => Utils.escape_chain unsafe
  end.

Definition nl : jsstring := [10].
Definition qt (s : string) : jsstring := [34] ++ lit s ++ [34].

(** The first lines of both request envelopes. *)
Definition envelope_open : jsstring :=
  lit "<?xml version=" ++ qt "1.0" ++ lit " encoding=" ++ qt "UTF-8" ++ lit "?>" ++ nl
  ++ lit "<soap:Envelope xmlns:soap=" ++ qt "http://schemas.xmlsoap.org/soap/envelope/" ++ nl
  ++ lit "               xmlns:xsi=" ++ qt "http://www.w3.org/2001/XMLSchema-instance" ++ nl
  ++ lit "               xmlns:xsd=" ++ qt "http://www.w3.org/2001/XMLSchema" ++ lit ">" ++ nl
  ++ lit "  <soap:Body>" ++ nl.

Definition envelope_close : jsstring :=
  lit "  </soap:Body>" ++ nl ++ lit "</soap:Envelope>".

(** [buildExecuteRequest(query)]. *)
Definition buildExecuteRequest (c : XMLAConnection) (query : jsstring) : jsstring :=
  envelope_open
  ++ lit "    <Execute xmlns=" ++ qt "urn:schemas-microsoft-com:xml-analysis" ++ lit ">" ++ nl
  ++ lit "      <Command>" ++ nl
  ++ lit "        <Statement>" ++ escapeXml query ++ lit "</Statement>" ++ nl
  ++ lit "      </Command>" ++ nl
  ++ lit "      <Properties>" ++ nl
  ++ lit "        <PropertyList>" ++ nl
  ++ lit "          <Catalog>" ++ escapeXml (database c) ++ lit "</Catalog>" ++ nl
  ++ lit "          <Format>Tabular</Format>" ++ nl
  ++ lit "        </PropertyList>" ++ nl
  ++ lit "      </Properties>" ++ nl
  ++ lit "    </Execute>" ++ nl
  ++ envelope_close.

(** [buildDiscoverRequest(requestType, restrictions)]; the restrictions
    are the entries of the object, in order. *)
Definition buildDiscoverRequest (c : XMLAConnection) (requestType : jsstring)
    (restrictions : list (jsstring * jsstring)) : jsstring :=
  let restrictionList :=
    fold_left (λ acc '(key, value),
                 acc ++ lit "<" ++ key ++ lit ">" ++ escapeXml value
                 ++ lit "</" ++ key ++ lit ">")
              restrictions [] in
  envelope_open
  ++ lit "    <Discover xmlns=" ++ qt "urn:schemas-microsoft-com:xml-analysis" ++ lit ">" ++ nl
  ++ lit "      <RequestType>" ++ requestType ++ lit "</RequestType>" ++ nl
  ++ lit "      <Restrictions>" ++ nl
  ++ lit "        <RestrictionList>" ++ nl
  ++ lit "          " ++ restrictionList ++ nl
  ++ lit "        </RestrictionList>" ++ nl
  ++ lit "      </Restrictions>" ++ nl
  ++ lit "      <Properties>" ++ nl
  ++ lit "        <PropertyList>" ++ nl
  ++ lit "          <Catalog>" ++ escapeXml (database c) ++ lit "</Catalog>" ++ nl
  ++ lit "        </PropertyList>" ++ nl
  ++ lit "      </Properties>" ++ nl
  ++ lit "    </Discover>" ++ nl
  ++ envelope_close.

(** The body of the [rows.forEach] callback of [parseXMLResponse]. *)
Definition rowData (row : Node) : Row :=
  fold_left (λ (rowData : Row) child, Obj.write (tagName child) (textContent child) rowData)
            (children row) ∅.

Record DAXResult := {
  dr_data : list Row;
  dr_warnings : list jsstring;
  dr_rowCount : nat
}.

Record Column := { col_name : jsstring }.

(** [columns] is the array of the table, or the inherited member found
    under its name. *)
Record TableDescriptor := {
  tbl_name : option jsstring;
  tbl_columns : Value (list Column)
}.

(** [table] is a name, an inherited member or [undefined]. *)
Record MeasureDescriptor := {
  msr_name : option jsstring;
  msr_table : option (Value jsstring)
}.

Record RelationshipDescriptor := {
  rel_name : jsstring;
  rel_from : jsstring;
  rel_to : jsstring
}.

Record Summary := {
  tableCount : nat;
  measureCount : nat;
  relationshipCount : nat;
  totalColumns : nat;
  tablesWithSampleData : nat
}.

(** The [sampleData] object: its own properties, and the array that has
    replaced its prototype, if one has. *)
Record SampleData := {
  sd_entries : gmap jsstring (list Row);
  sd_prototype : option (list Row)
}.

Record SemanticModelSnapshot := {
  tables : list TableDescriptor;
  measures : list MeasureDescriptor;
  relationships : list RelationshipDescriptor;
  sampleData : SampleData;
  summary : Summary
}.

Record Options := {
  fetchSampleData : option bool;
  maxSampleRows : option N
}.

(** A property of a row that may be [undefined]. *)
Definition prop (row : Row) (name : string) : option jsstring := row !! lit name.

Definition truthy_text (x : option jsstring) : bool :=
  match x with Some (_ :: _) => true | _ => false end.

(** [a || b] on values that are strings or [undefined]. *)
Definition or_else (a b : option jsstring) : option jsstring :=
  if truthy_text a then a else b.

(** A string-or-undefined value used as a property key or inside a
    template literal. *)
Definition key (x : option jsstring) : jsstring := default (lit "undefined") x.

(** [x || 'literal']. *)
Definition or_text (x : option jsstring) (d : string) : jsstring :=
  if truthy_text x then key x else lit d.

(** [x.Name || x.ExplicitName || x.InferredName], of a table or measure row. *)
Definition objectName (x : Row) : option jsstring :=
  or_else (prop x "Name") (or_else (prop x "ExplicitName") (prop x "InferredName")).

Definition columnName_of (col : Row) : option jsstring :=
  or_else (prop col "ExplicitName") (prop col "InferredName").

(** The synthesis steps of [getSemanticModelMetadata], named after the
    constants they define. *)
Definition tableIdToName (tablesResult : list Row) : gmap jsstring jsstring :=
  fold_left (λ (m : gmap jsstring jsstring) table,
               let tableId := prop table "ID" in
               let tableName := objectName table in
               if truthy_text tableId && truthy_text tableName
               then Obj.write (key tableId) (key tableName) m else m)
            tablesResult ∅.

Definition columnIdToName (columnsResult : list Row) : gmap jsstring jsstring :=
  fold_left (λ (m : gmap jsstring jsstring) col,
               let columnId := prop col "ID" in
               let columnName := columnName_of col in
               if truthy_text columnId && truthy_text columnName
               then Obj.write (key columnId) (key columnName) m else m)
            columnsResult ∅.

(** Truthiness of what a read of an id-to-name lookup gives. *)
Definition truthy_value (x : option (Value jsstring)) : bool :=
  match x with
  | Some (Data (_ :: _)) | Some (Member _) => true
  | _ => false
  end.

(** [(tableName && columns.length > 0)] of line 400: an array has its
    length, an inherited function the number of its parameters, the
    prototype none. *)
Definition has_columns (columns : Value (list Column)) : bool :=
  match columns with
  | Data cols => (0 <? length cols)%nat
  | Member name =>
      match Obj.member_length name with
      | Some n => 0 <? n
      | None => false
      end
  end.

Section Engine.

(** The engine: the text it prints for an inherited function, and the
    message of the [TypeError] it raises when [push] is called on a value
    that has none. *)
Variable functionText : jsstring → jsstring.
Variable pushError : jsstring.

(** The text of an inherited member: that of the function, or
    [[object Object]] for the prototype. *)
Definition member_text (name : jsstring) : jsstring :=
  if bool_decide (name = Obj.proto) then lit "[object Object]" else functionText name.

(** What a read gave, used as a property key or inside a template
    literal. *)
Definition text_of (x : option (Value jsstring)) : jsstring :=
  match x with
  | Some (Data s) => s
  | Some (Member name) => member_text name
  | None => lit "undefined"
  end.

(** The body of the loop that groups the columns, on the object
    [columnsByTable] as it is, or after the loop has thrown. An array is
    created where the read gives nothing, which is never under
    [__proto__]; [push] on an inherited member throws. *)
Definition group_column (tableIdToName : gmap jsstring jsstring)
    (acc : res (gmap jsstring (list Column))) (col : Row)
    : res (gmap jsstring (list Column)) :=
  match acc with
  | Throw e => Throw e
  | Ok columnsByTable =>
      let tableId := prop col "TableID" in
      let tableName := Obj.read tableIdToName (key tableId) in
      let columnName := columnName_of col in
      if truthy_value tableName && truthy_text columnName then
        let column := {| col_name := key columnName |} in
        match Obj.read columnsByTable (text_of tableName) with
        | None => Ok (<[text_of tableName := [column]]> columnsByTable)
        | Some (Data cols) =>
            Ok (<[text_of tableName := cols ++ [column]]> columnsByTable)
        | Some (Member _) => Throw pushError
        end
      else Ok columnsByTable
  end.

Definition columnsByTable (tableIdToName : gmap jsstring jsstring)
    (columnsResult : list Row) : res (gmap jsstring (list Column)) :=
  fold_left (group_column tableIdToName) columnsResult (Ok ∅).

Definition build_tables (columnsByTable : gmap jsstring (list Column))
    (tablesResult : list Row) : list TableDescriptor :=
  map (λ table,
         let tableName := objectName table in
         {| tbl_name := tableName;
            tbl_columns := default (Data []) (Obj.read columnsByTable (key tableName)) |})
      tablesResult.

Definition build_measures (tableIdToName : gmap jsstring jsstring)
    (measuresResult : list Row) : list MeasureDescriptor :=
  map (λ measure,
         {| msr_name := objectName measure;
            msr_table := Obj.read tableIdToName (key (prop measure "TableID")) |})
      measuresResult.

(** [lookup[id] || 'Unknown'], as the template literal prints it. *)
Definition or_unknown (x : option (Value jsstring)) : jsstring :=
  if truthy_value x then text_of x else lit "Unknown".

Definition resolve_relationship (tableIdToName columnIdToName : gmap jsstring jsstring)
    (rel : Row) : RelationshipDescriptor :=
  let fromTable := or_unknown (Obj.read tableIdToName (key (prop rel "FromTableID"))) in
  let toTable := or_unknown (Obj.read tableIdToName (key (prop rel "ToTableID"))) in
  let fromColumn := or_unknown (Obj.read columnIdToName (key (prop rel "FromColumnID"))) in
  let toColumn := or_unknown (Obj.read columnIdToName (key (prop rel "ToColumnID"))) in
  {| rel_name := or_text (prop rel "RelationshipName") EmptyString;
     rel_from := fromTable ++ lit "[" ++ fromColumn ++ lit "]";
     rel_to := toTable ++ lit "[" ++ toColumn ++ lit "]" |}.

Definition build_relationships (tableIdToName columnIdToName : gmap jsstring jsstring)
    (relationshipsResult : list Row) : list RelationshipDescriptor :=
  filter (λ rel, includes (rel_from rel) (lit "Unknown") = false
                 ∧ includes (rel_to rel) (lit "Unknown") = false)
         (map (resolve_relationship tableIdToName columnIdToName) relationshipsResult).

End Engine.

(** [sampleData[tableName] = samples] for the tables that gave rows; an
    array written under [__proto__] becomes the prototype of the object
    and adds no property. *)
Definition collect_samples (sampleResults : list (option jsstring * list Row))
    : SampleData :=
  fold_left (λ (sampleData : SampleData) '(tableName, samples),
               if (0 <? length samples)%nat then
                 if bool_decide (key tableName = Obj.proto) then
                   {| sd_entries := sd_entries sampleData; sd_prototype := Some samples |}
                 else
                   {| sd_entries := <[key tableName := samples]> (sd_entries sampleData);
                      sd_prototype := sd_prototype sampleData |}
               else sampleData)
            sampleResults {| sd_entries := ∅; sd_prototype := None |}.

Section Host.

(** The host: the Unicode case tables, the XML parser, and the world the
    requests go to, with its clock and its two transports. The transport
    of the desktop shell is present or not; [fetch] is the fallback. The
    last two are the engine's, as in the synthesis above. *)
Variable unicodeUpper : jsstring → jsstring.
Variable parseFromString : jsstring → list Node.
Variable World : Type.
Variable now : World → N.
Variable xmlaRequest : option (jsstring → jsstring → World → res IpcResult * World).
Variable fetch : jsstring → jsstring → World → res Response * World.
Variable functionText : jsstring → jsstring.
Variable pushError : jsstring.

(** Asynchronous methods: they read and write the connection, move the
    world, and return or throw. Overlapping requests are taken one after
    the other, in the order they are issued. *)
Definition M (A : Type) : Type :=
  XMLAConnection * World → res A * (XMLAConnection * World).

#[local] Instance M_ret : MRet M := λ A a st, (Ok a, st).
#[local] Instance M_bind : MBind M :=
  λ A B k m st, match m st with
                | (Ok a, st') => k a st'
                | (Throw e, st') => (Throw e, st')
                end.
Definition throw {A} (e : jsstring) : M A := λ st, (Throw e, st).
Definition try_catch {A} (m : M A) (h : jsstring → M A) : M A :=
  λ st, match m st with
        | (Ok a, st') => (Ok a, st')
        | (Throw e, st') => h e st'
        end.
Definition lift {A} (r : res A) : M A := λ st, (r, st).
Definition this : M XMLAConnection := λ st, (Ok (fst st), st).
Definition update (f : XMLAConnection → XMLAConnection) : M unit :=
  λ st, (Ok tt, (f (fst st), snd st)).
Definition new_Date : M N := λ st, (Ok (now (snd st)), st).
Definition await {A} (call : World → res A * World) : M A :=
  λ st, let '(r, w) := call (snd st) in (r, (fst st, w)).

Fixpoint for_each {A B} (f : A → M B) (l : list A) : M (list B) :=
  match l with
  | [] => mret []
  | a :: l' => b ← f a; bs ← for_each f l'; mret (b :: bs)
  end.

(** [parseXMLResponse(xmlText)]. *)
Definition parseXMLResponse (xmlText : jsstring) : res (list Row) :=
  let xmlDoc := parseFromString xmlText in
  match querySelector (lit "Fault") xmlDoc with
  | Some fault =>
      let faultString :=
        match textContent <$> querySelector (lit "faultstring") (childNodes fault) with
        | Some ((_ :: _) as s) => s
        | _ => lit "Unknown SOAP fault"
        end in
      Throw (lit "SOAP Fault: " ++ faultString)
  | None =>
      Ok (fold_left (λ result row, result ++ [rowData row])
                    (querySelectorAll (lit "row") xmlDoc) [])
  end.

(** [sendSOAPRequest(soapBody)]; its handler logs the error and throws it
    again. *)
Definition sendSOAPRequest (soapBody : jsstring) : M (list Row) :=
  try_catch
    (c ← this;
     match xmlaRequest with
     | Some request =>
         result ← await (request (xmlaEndpoint c) soapBody);
         if success result then lift (parseXMLResponse (data result))
         else throw (lit "XMLA request failed")
     | None =>
         response ← await (fetch (xmlaEndpoint c) soapBody);
         if negb (ok response) then
           throw (lit "XMLA request failed: " ++ show (status response)
                  ++ lit " " ++ statusText response)
         else
           xmlText ← lift (text response);
           lift (parseXMLResponse xmlText)
     end)
    (λ error, throw error).

(** [executeDMVQuery(query)]. *)
Definition executeDMVQuery (query : jsstring) : M (list Row) :=
  c ← this;
  let soapRequest := buildExecuteRequest c query in
  result ← sendSOAPRequest soapRequest;
  update (set_connected true) ;;
  t ← new_Date;
  update (set_lastSuccessfulQuery t) ;;
  mret result.

(** [testConnection()]. *)
Definition testConnection : M bool :=
  try_catch
    (c ← this;
     let query :=
       lit "SELECT [CATALOG_NAME] FROM $SYSTEM.DBSCHEMA_CATALOGS WHERE [CATALOG_NAME] = '"
       ++ database c ++ lit "'" in
     executeDMVQuery query ;;
     update (set_connected true) ;;
     t ← new_Date;
     update (set_lastSuccessfulQuery t) ;;
     mret true)
    (λ _, update (set_connected false) ;; mret false).

Definition catalog_query (view : string) : jsstring :=
  nl ++ lit "            SELECT *" ++ nl
  ++ lit "            FROM $SYSTEM." ++ lit view ++ nl
  ++ lit "        ".

Definition getTables : M (list Row) := executeDMVQuery (catalog_query "TMSCHEMA_TABLES").
Definition getColumns : M (list Row) := executeDMVQuery (catalog_query "TMSCHEMA_COLUMNS").
Definition getMeasures : M (list Row) := executeDMVQuery (catalog_query "TMSCHEMA_MEASURES").

Definition relationships_query : jsstring :=
  nl ++ lit "                SELECT" ++ nl
  ++ lit "                    [Name] as RelationshipName," ++ nl
  ++ lit "                    [FromTableID]," ++ nl
  ++ lit "                    [FromColumnID]," ++ nl
  ++ lit "                    [ToTableID]," ++ nl
  ++ lit "                    [ToColumnID]" ++ nl
  ++ lit "                FROM $SYSTEM.TMSCHEMA_RELATIONSHIPS" ++ nl
  ++ lit "            ".

(** [getRelationships()]: a failure is logged and answered by []. *)
Definition getRelationships : M (list Row) :=
  try_catch (executeDMVQuery relationships_query) (λ _, mret []).

(** [executeDAX(daxQuery)]. *)
Definition executeDAX (daxQuery : jsstring) : M DAXResult :=
  c ← this;
  '(finalQuery, warnings) ←
    match daxValidator c with
    | Some v =>
        let '(validation, v') := validate unicodeUpper v (JStr daxQuery) in
        update (set_daxValidator v') ;;
        if negb (isValid validation) then
          throw (lit "Query validation failed: " ++ join (lit ", ") (errors validation))
        else
          let finalQuery :=
            if modified validation then modifiedQuery validation else JStr daxQuery in
          finalQuery ← lift (sanitize finalQuery);
          mret (finalQuery, Validator.warnings validation)
    | None => mret (daxQuery, [])
    end;
  let finalQuery :=
    if negb (test_fresh re_evaluate finalQuery) then lit "EVALUATE " ++ finalQuery
    else finalQuery in
  results ← executeDMVQuery finalQuery;
  c ← this;
  let warnings :=
    match daxValidator c with
    | Some v => warnings ++ rv_warnings (validateResults v (Some results))
    | None => warnings
    end in
  mret {| dr_data := results; dr_warnings := warnings; dr_rowCount := length results |}.

(** [getSampleData(tableName, maxRows)]. *)
Definition getSampleData (tableName : option jsstring) (maxRows : N) : M (list Row) :=
  try_catch
    (let daxQuery := lit "TOPN(" ++ show maxRows ++ lit ", '" ++ key tableName ++ lit "')" in
     result ← executeDAX daxQuery;
     mret (dr_data result))
    (λ _, mret []).

(** The [Promise.all] of the four catalog probes, each with its own
    [catch] that answers []. *)
Definition fetch_catalog : M (list Row * list Row * list Row * list Row) :=
  tablesResult ← try_catch getTables (λ _, mret []);
  columnsResult ← try_catch getColumns (λ _, mret []);
  measuresResult ← try_catch getMeasures (λ _, mret []);
  relationshipsResult ← try_catch getRelationships (λ _, mret []);
  mret (tablesResult, columnsResult, measuresResult, relationshipsResult).

(** [getSemanticModelMetadata(options)]. *)
Definition getSemanticModelMetadata (options : Options) : M SemanticModelSnapshot :=
  let fetchSampleData := negb (bool_decide (fetchSampleData options = Some false)) in
  let maxSampleRows := num_or (maxSampleRows options) 3 in
  try_catch
    ('(tablesResult, columnsResult, measuresResult, relationshipsResult) ← fetch_catalog;
     let tableIdToName := tableIdToName tablesResult in
     let columnIdToName := columnIdToName columnsResult in
     columnsByTable ← lift (columnsByTable functionText pushError tableIdToName columnsResult);
     let tables := build_tables columnsByTable tablesResult in
     let measures := build_measures tableIdToName measuresResult in
     let relationships :=
       build_relationships functionText tableIdToName columnIdToName
         relationshipsResult in
     sampleData ←
       (if fetchSampleData && (0 <? length tables)%nat then
          let tablesToSample :=
            take 10 (filter (λ table, has_columns (tbl_columns table) = true) tables) in
          sampleResults ←
            for_each (λ table,
                        try_catch
                          (samples ← getSampleData (tbl_name table) maxSampleRows;
                           mret (tbl_name table, samples))
                          (λ _, mret (tbl_name table, [])))
                     tablesToSample;
          mret (collect_samples sampleResults)
        else mret {| sd_entries := ∅; sd_prototype := None |});
     mret {| tables := tables;
            measures := measures;
            relationships := relationships;
            sampleData := sampleData;
            summary := {| tableCount := length tables;
                          measureCount := length measures;
                          relationshipCount := length relationships;
                          totalColumns := length columnsResult;
                          tablesWithSampleData := size (sd_entries sampleData) |} |})
    (λ error, throw error).

End Host.

End Xmla.

(** ** A small host to run the program on

    A loopback world: the clock ticks once per request, the transport of
    the desktop shell answers every request with a one-word reply chosen
    from the statement it carries, and the parser turns each reply into
    the document a server would have sent. *)

Module Demo.
Import Validator Dom Xmla.

Definition upper : jsstring → jsstring := map ascii_upper.

Definition World := nat.
Definition now (w : World) : N := N.of_nat w.

Definition el (name : string) (kids : list Node) : Node := Element None (lit name) kids.
Definition field (name value : string) : Node := el name [Text (lit value)].
Definition envelope (body : list Node) : list Node :=
  [Element (Some (lit "soap")) (lit "Envelope")
     [Element (Some (lit "soap")) (lit "Body") body]].

Definition table_rows : list Node :=
  [el "row" [field "ID" "7"; field "Name" "Sales"]].
Definition column_rows : list Node :=
  [el "row" [field "ID" "1"; field "ExplicitName" "Amount"; field "TableID" "7"];
   el "row" [field "ID" "2"; field "ExplicitName" "Stray"; field "TableID" "99"]].
Definition relationship (name toTable : string) : Node :=
  el "row" [field "RelationshipName" name; field "FromTableID" "7";
            field "FromColumnID" "1"; field "ToTableID" toTable; field "ToColumnID" "1"].
Definition relationship_rows : list Node :=
  [relationship "self" "7"; relationship "dangling" "8"].
Definition sample_rows : list Node :=
  [el "row" [field "Sales_x005B_Amount_x005D_" "10"];
   el "row" [field "Sales_x005B_Amount_x005D_" "12"; field "Sales_x005B_Note_x005D_" "x"]].
Definition fault : list Node :=
  [Element (Some (lit "soap")) (lit "Fault")
     [field "faultcode" "XMLAnalysisError"; field "faultstring" "The query failed";
      el "detail" [el "row" [field "ID" "9"]]]].

Definition parseFromString (reply : jsstring) : list Node :=
  if starts_with (lit "tables") reply then envelope table_rows
  else if starts_with (lit "columns") reply then envelope column_rows
  else if starts_with (lit "relationships") reply then envelope relationship_rows
  else if starts_with (lit "sample") reply then envelope sample_rows
  else if starts_with (lit "fault") reply then envelope fault
  else envelope [].

Definition server (body : jsstring) : jsstring :=
  if includes body (lit "Broken") then lit "fault"
  else if includes body (lit "<Catalog>Empty</Catalog>") then lit "empty"
  else if includes body (lit "TMSCHEMA_TABLES") then lit "tables"
  else if includes body (lit "TMSCHEMA_COLUMNS") then lit "columns"
  else if includes body (lit "TMSCHEMA_RELATIONSHIPS") then lit "relationships"
  else if includes body (lit "TOPN(") then lit "sample"
  else lit "empty".

Definition transport : option (jsstring → jsstring → World → res IpcResult * World) :=
  Some (λ _ body w, (Ok {| success := true; data := server body |}, S w)).

(** The fallback transport, unused while the shell's is present. *)
Definition fetch (_ _ : jsstring) (w : World) : res Response * World :=
  (Throw (lit "Failed to fetch"), w).

Definition connection : XMLAConnection :=
  new_XMLAConnection (Some (Some AppConfig.QUERY)) (lit "localhost:51234") (lit "Model").

(** A model without objects, and one whose server answers with a fault. *)
Definition empty_connection : XMLAConnection :=
  new_XMLAConnection (Some (Some AppConfig.QUERY)) (lit "localhost:51234") (lit "Empty").
Definition broken_connection : XMLAConnection :=
  new_XMLAConnection (Some (Some AppConfig.QUERY)) (lit "localhost:51234") (lit "Broken").

Definition validator : DAXValidator := new_DAXValidator (Some AppConfig.QUERY).

Definition executeDMVQuery := Xmla.executeDMVQuery parseFromString World now transport fetch.
Definition executeDAX := Xmla.executeDAX upper parseFromString World now transport fetch.
(** The engine of the desktop shell prints an inherited function as its
    name with [[native code]] for a body, the constructor under the name
    [Object]. *)
Definition functionText (name : jsstring) : jsstring :=
  lit "function "
  ++ (if bool_decide (name = lit "constructor") then lit "Object" else name)
  ++ lit "() { [native code] }".
Definition pushError : jsstring :=
  lit "columnsByTable[tableName].push is not a function".

Definition getRelationships := Xmla.getRelationships parseFromString World now transport fetch.
Definition getSemanticModelMetadata :=
  Xmla.getSemanticModelMetadata upper parseFromString World now transport fetch
    functionText pushError.

End Demo.

(** * Vocabulary of the properties *)

Import Validator Dom Xmla.

(** What [validate] keeps true of its result while it works on the input
    [x]: an invalid result has an error, and an unmodified result still
    holds [x]. *)
Definition coherent (x : JsValue) (r : ValidationResult) : Prop :=
  (isValid r = false → errors r ≠ []) ∧ (modified r = false → modifiedQuery r = x).

(** The premise of the safety rewrite: no row-limiting construct, no
    evaluate marker and no system-catalog marker in the trimmed text. *)
Definition unlimited (unicodeUpper : jsstring → jsstring) (q : jsstring) : Prop :=
  test_fresh re_topn (trim q) = false
  ∧ test_fresh re_top (trim q) = false
  ∧ test_fresh re_evaluate (trim q) = false
  ∧ includes (toUpperCase unicodeUpper (trim q)) (lit "$SYSTEM") = false.

Definition wrapped (v : DAXValidator) (q : jsstring) : jsstring :=
  lit "TOPN(" ++ show (maxRows v) ++ lit ", " ++ trim q ++ lit ")".

Definition limit_notice (v : DAXValidator) : jsstring :=
  lit "Automatically limited to " ++ show (maxRows v) ++ lit " rows for safety.".

(** The two replacements of [sanitize] written as plain list functions,
    to which the expressions are proved equal. [collapse_from b s] drops
    every semicolon that follows a semicolon ([b] tells whether one was
    just seen); [strip s] cuts [s] at the first semicolon from which only
    semicolons and then only white space follow. *)
Fixpoint collapse_from (seen : bool) (s : jsstring) : jsstring :=
  match s with
  | [] => []
  | c :: s' =>
      if c =? 59 then (if seen then collapse_from true s' else c :: collapse_from true s')
      else c :: collapse_from false s'
  end.

Fixpoint semis_ws (s : jsstring) : bool :=
  match s with
  | [] => true
  | c :: s' => if c =? 59 then semis_ws s' else forallb is_ws s
  end.

Fixpoint strip (s : jsstring) : jsstring :=
  match s with
  | [] => []
  | c :: s' => if (c =? 59) && semis_ws s' then [] else c :: strip s'
  end.

(** What a text keeps when its semicolons are squeezed: its code units
    other than semicolons, in order, each with whether a semicolon stands
    right before it ([after] tells it of the first). *)
Fixpoint separated (after : bool) (s : jsstring) : list (bool * N) :=
  match s with
  | [] => []
  | c :: s' =>
      if c =? 59 then separated true s' else (after, c) :: separated false s'
  end.

(** The number of leading semicolons. *)
Fixpoint run (s : jsstring) : nat :=
  match s with
  | c :: s' => if c =? 59 then S (run s') else 0%nat
  | [] => 0%nat
  end.

(** No two semicolons in a row. *)
Fixpoint no_run (s : jsstring) : bool :=
  match s with
  | a :: s' =>
      negb ((a =? 59) && match s' with b :: _ => b =? 59 | [] => false end) && no_run s'
  | [] => true
  end.

(** The encoding of one code unit by [escapeXml]; the flags tell which
    entities [unescapeXml] has already turned back, in its order
    (apostrophe, quote, greater, less, ampersand). *)
Definition entity (a q g l m : bool) (c : N) : jsstring :=
  if c =? 38 then (if m then [38] else lit "&amp;")
  else if c =? 60 then (if l then [60] else lit "&lt;")
  else if c =? 62 then (if g then [62] else lit "&gt;")
  else if c =? 34 then (if q then [34] else lit "&quot;")
  else if c =? 39 then (if a then [39] else lit "&apos;")
  else [c].


(** The elements of a document with a given local name. *)
Definition named (name : string) (xmlDoc : list Node) : list Node :=
  filter (λ n, localName n = lit name) (elements_in xmlDoc).


(** No column row with a name belongs to a table whose name is that of
    an inherited member: the grouping of the columns goes through. *)
Definition groupable (functionText : jsstring → jsstring)
    (tableIdToName : gmap jsstring jsstring) (columnsResult : list Row) : bool :=
  forallb (λ col,
             let tableName := Obj.read tableIdToName (key (prop col "TableID")) in
             negb (truthy_value tableName && truthy_text (columnName_of col)
                   && Obj.inherited (text_of functionText tableName)))
          columnsResult.


(** The columns held by the table descriptors of a snapshot. *)
Definition columns_in_tables (snapshot : SemanticModelSnapshot) : nat :=
  sum_list (map (λ table, match tbl_columns table with
                          | Obj.Data cols => length cols
                          | Obj.Member _ => 0%nat
                          end) (tables snapshot)).

(** ** Vocabulary of the further properties *)

(** The result of a call of [validate] that stops at one of its first two
    checks. *)
Definition rejection (x : JsValue) (message : jsstring) : ValidationResult :=
  {| isValid := false; warnings := []; errors := [message]; modified := false;
     modifiedQuery := x |}.

(** A text that reads, after white space, a keyword in any mix of upper
    and lower case. *)
Definition led_by (keyword : string) (q : jsstring) : Prop :=
  ∃ pad s rest,
    q = pad ++ s ++ rest ∧ forallb is_ws pad = true ∧ map ascii_upper s = lit keyword.

Definition select_message : jsstring :=
  lit "Invalid syntax: DAX queries use EVALUATE, not SELECT. This tool automatically adds EVALUATE for you.".

(** Lines 289 to 292 of [executeDAX]. *)
Definition ensure_evaluate (finalQuery : jsstring) : jsstring :=
  if test_fresh re_evaluate finalQuery then finalQuery
  else lit "EVALUATE " ++ finalQuery.

(** A validator without its blocked patterns. *)
Definition unblocked (v : DAXValidator) : DAXValidator := set_blockedPatterns [] v.

(** The two notices of [validateResults]. *)
Definition large_notice (n : N) : jsstring :=
  lit "Query returned " ++ show n ++ lit " rows. Large result sets may impact performance.".
Definition truncation_notice (v : DAXValidator) : jsstring :=
  lit "Result set was truncated at " ++ show (maxRows v)
  ++ lit " rows. Use TOPN() or FILTER to reduce results.".

(** The names of the five entities, without the ampersand. *)
Definition entity_names : list jsstring :=
  [lit "amp;"; lit "lt;"; lit "gt;"; lit "quot;"; lit "apos;"].

(** A text in which no angle bracket, quote or apostrophe is left and in
    which every ampersand begins one of the five entities. *)
Fixpoint well_escaped (s : jsstring) : bool :=
  match s with
  | [] => true
  | c :: s' =>
      (if c =? 38 then existsb (λ name, starts_with name s') entity_names
       else negb ((c =? 60) || (c =? 62) || (c =? 34) || (c =? 39)))
      && well_escaped s'
  end.

(** One of the five code units [escapeXml] replaces. *)
Definition special (c : N) : bool :=
  (c =? 38) || (c =? 60) || (c =? 62) || (c =? 34) || (c =? 39).

(** What [executeDAX] makes of the outcome of the execution: the rows
    with the warnings collected so far, those of the result validation
    when there is a validator, and the number of rows. *)
Definition answer {S} (warnings : list jsstring) (v : option DAXValidator)
    (outcome : res (list Row) * S) : res DAXResult * S :=
  match outcome with
  | (Ok results, st) =>
      (Ok {| dr_data := results;
             dr_warnings :=
               match v with
               | Some v => warnings ++ rv_warnings (validateResults v (Some results))
               | None => warnings
               end;
             dr_rowCount := length results |}, st)
  | (Throw e, st) => (Throw e, st)
  end.

(** The statement [testConnection] sends. *)
Definition catalog_probe (c : XMLAConnection) : jsstring :=
  lit "SELECT [CATALOG_NAME] FROM $SYSTEM.DBSCHEMA_CATALOGS WHERE [CATALOG_NAME] = '"
  ++ database c ++ lit "'".

(** The statement [getSampleData] hands to [executeDAX]. *)
Definition sample_query (tableName : option jsstring) (maxRows : N) : jsstring :=
  lit "TOPN(" ++ show maxRows ++ lit ", '" ++ key tableName ++ lit "')".

(** ** A host without a server

    The transport of the desktop shell refuses every request. *)

Module Offline.

Definition transport : option (jsstring → jsstring → Demo.World → res IpcResult * Demo.World) :=
  Some (λ _ _ w, (Throw (lit "connect ECONNREFUSED"), w)).

Definition executeDMVQuery :=
  Xmla.executeDMVQuery Demo.parseFromString Demo.World Demo.now transport Demo.fetch.
Definition executeDAX :=
  Xmla.executeDAX Demo.upper Demo.parseFromString Demo.World Demo.now transport Demo.fetch.
Definition testConnection :=
  Xmla.testConnection Demo.parseFromString Demo.World Demo.now transport Demo.fetch.
Definition getRelationships :=
  Xmla.getRelationships Demo.parseFromString Demo.World Demo.now transport Demo.fetch.
Definition getSampleData :=
  Xmla.getSampleData Demo.upper Demo.parseFromString Demo.World Demo.now transport Demo.fetch.
Definition getSemanticModelMetadata :=
  Xmla.getSemanticModelMetadata Demo.upper Demo.parseFromString Demo.World Demo.now
    transport Demo.fetch Demo.functionText Demo.pushError.

End Offline.

(** ** A server with a given catalog

    The loopback host of [Demo] with the table, column and relationship
    rows it answers given; it has no measures and no rows to sample. *)

Module Catalog.

Definition parseFromString (tables columns relationships : list Node) (reply : jsstring)
    : list Node :=
  if starts_with (lit "tables") reply then Demo.envelope tables
  else if starts_with (lit "columns") reply then Demo.envelope columns
  else if starts_with (lit "relationships") reply then Demo.envelope relationships
  else Demo.envelope [].

Definition getSemanticModelMetadata (tables columns relationships : list Node) :=
  Xmla.getSemanticModelMetadata Demo.upper (parseFromString tables columns relationships)
    Demo.World Demo.now Demo.transport Demo.fetch Demo.functionText Demo.pushError.

Definition row (fields : list (string * string)) : Node :=
  Demo.el "row" (map (λ f, Demo.field (fst f) (snd f)) fields).

End Catalog.

(** ** Vocabulary of the synthesis *)

(** A catalog row that enters an id-to-name lookup: its ID and its name
    are both present and not empty. *)
Definition named_row (name_of : Row → option jsstring) (row : Row) : bool :=
  truthy_text (prop row "ID") && truthy_text (name_of row).

(** What an id-to-name lookup holds under an ID: the name of the last
    row with that ID among the rows that enter; nothing under
    [__proto__]. *)
Definition entered (name_of : Row → option jsstring) (rows : list Row) (i : jsstring)
    : option jsstring :=
  if bool_decide (i = Obj.proto) then None
  else last (filter (λ row, named_row name_of row = true ∧ prop row "ID" = Some i) rows)
       ≫= name_of.

(** The column rows, in catalog order, whose table resolves to [name]. *)
Definition columns_of (functionText : jsstring → jsstring)
    (ids : gmap jsstring jsstring) (columnsResult : list Row)
    (name : jsstring) : list Column :=
  omap (λ col,
          let tableName := Obj.read ids (key (prop col "TableID")) in
          if truthy_value tableName && truthy_text (columnName_of col)
             && bool_decide (text_of functionText tableName = name)
          then Some {| col_name := key (columnName_of col) |} else None)
       columnsResult.

(** The snapshot of a model of which nothing could be read. *)
Definition empty_snapshot : SemanticModelSnapshot :=
  {| tables := []; measures := []; relationships := [];
     sampleData := {| sd_entries := ∅; sd_prototype := None |};
     summary := {| tableCount := 0; measureCount := 0; relationshipCount := 0;
                   totalColumns := 0; tablesWithSampleData := 0 |} |}.

(** The tables [getSemanticModelMetadata] asks samples of. *)
Definition tablesToSample (tables : list TableDescriptor) : list TableDescriptor :=
  take 10 (filter (λ table, has_columns (tbl_columns table) = true) tables).

(** The error [validate] reports for a blocked pattern that hits. *)
Definition blocked_message (pattern : RegExp) : jsstring :=
  lit "Query contains blocked pattern: " ++ source pattern
  ++ lit ". This may cause performance issues.".

(** ** main.js

    The desktop shell: the connection arguments of the command line and
    the handler of the [xmla-request] channel, which reads the statement
    and the catalog out of the request the connection built and hands
    them to the .NET bridge. *)

Module Main.
Import Validator Xmla.

(** The character classes of the expressions: [[\s\S]], [.] and [[^;]]. *)
Definition any (c : N) : bool := true.
Definition dot (c : N) : bool :=
  negb ((c =? 10) || (c =? 13) || (c =? 8232) || (c =? 8233)).
Definition not_semicolon (c : N) : bool := negb (c =? 59).

(** The group [(class*?)] followed by the literal [closing], from the
    start of [s]: the shortest group after which [closing] follows. *)
Fixpoint lazy_group (class : N → bool) (closing s : jsstring) : option jsstring :=
  if starts_with closing s then Some []
  else match s with
       | c :: s' => if class c then cons c <$> lazy_group class closing s' else None
       | [] => None
       end.

(** [s.match(/opening(class*?)closing/)]: the first group of the leftmost
    match, for literal [opening] and [closing]. *)
Fixpoint match_lazy (opening : jsstring) (class : N → bool) (closing s : jsstring)
    : option jsstring :=
  match (if starts_with opening s
         then lazy_group class closing (drop (length opening) s) else None) with
  | Some group => Some group
  | None =>
      match s with
      | _ :: s' => match_lazy opening class closing s'
      | [] => None
      end
  end.

Fixpoint take_while (class : N → bool) (s : jsstring) : jsstring :=
  match s with
  | c :: s' => if class c then c :: take_while class s' else []
  | [] => []
  end.

(** [s.match(/opening(class+)/)]: the group is the longest run of the
    class, of at least one code unit. *)
Fixpoint match_greedy (opening : jsstring) (class : N → bool) (s : jsstring)
    : option jsstring :=
  match (if starts_with opening s
         then match take_while class (drop (length opening) s) with
              | [] => None
              | group => Some group
              end
         else None) with
  | Some group => Some group
  | None =>
      match s with
      | _ :: s' => match_greedy opening class s'
      | [] => None
      end
  end.

(** The body of [args.forEach]: [serverName] and [databaseName] before
    and after one argument. *)
Definition read_argument (names : jsstring * jsstring) (arg : jsstring)
    : jsstring * jsstring :=
  let '(serverName, databaseName) := names in
  if includes arg (lit "Server=") || includes arg (lit "Database=") then
    let serverName :=
      match match_greedy (lit "Server=") not_semicolon arg with
      | Some group => group
      | None => serverName
      end in
    let databaseName :=
      match match_greedy (lit "Database=") not_semicolon arg with
      | Some group => group
      | None => databaseName
      end in
    (serverName, databaseName)
  else names.

(** [serverName] and [databaseName] after the arguments are read. *)
Definition connection_arguments (args : list jsstring) : jsstring * jsstring :=
  fold_left read_argument args ([], []).

(** [extractQueryFromSOAP(soapBody)]. *)
Definition extractQueryFromSOAP (soapBody : jsstring) : res jsstring :=
  match match_lazy (lit "<Statement>") any (lit "</Statement>") soapBody with
  | Some ((_ :: _) as group) => Ok (trim (Utils.unescapeXml group))
  | _ => Throw (lit "Could not extract query from SOAP body")
  end.

(** A row of the bridge: the entries of the object, in order. *)
Definition BridgeRow : Type := list (jsstring * JsValue).

(** [convertToXMLResponse(data)]. *)
Definition convertToXMLResponse (data : list BridgeRow) : jsstring :=
  let xml := lit "<?xml version=" ++ qt "1.0" ++ lit " encoding=" ++ qt "utf-8" ++ lit "?>" in
  let xml := xml ++ lit "<root xmlns:xsd=" ++ qt "http://www.w3.org/2001/XMLSchema"
             ++ lit ">" in
  let xml :=
    fold_left (λ xml (row : BridgeRow),
                 let xml := xml ++ lit "<row>" in
                 let xml :=
                   fold_left (λ xml '(key, value),
                                xml ++ lit "<" ++ key ++ lit ">" ++ Utils.escapeXml value
                                ++ lit "</" ++ key ++ lit ">")
                             row xml in
                 xml ++ lit "</row>")
              data xml in
  xml ++ lit "</root>".

(** What the handler passes to the bridge, and what the bridge answers. *)
Record BridgeInput := {
  bi_server : jsstring;
  bi_database : jsstring;
  bi_query : jsstring;
  bi_timeout : N
}.

Record BridgeResult := {
  br_success : bool;
  br_data : list BridgeRow;
  br_error : jsstring;
  br_errorType : jsstring
}.

Definition COMMAND_TIMEOUT : N := 30.

Definition bullet : jsstring := [10; 8226; 32].

Section Host.

(** The host: [new URL(endpoint)], which gives the host name and the port
    or throws, and the loader of the bridge, which returns the function
    of the bridge or throws; a call of the bridge answers or fails. *)
Variable World : Type.
Variable URL : jsstring → res (jsstring * jsstring).
Variable loadXmlaBridge : World → res (BridgeInput → World → res BridgeResult * World) * World.

(** The first statements of the handler: the server, the database and
    the query it reads out of the request. *)
Definition request_input (endpoint soapBody : jsstring) : res BridgeInput :=
  match URL endpoint with
  | Throw e => Throw e
  | Ok (hostname, port) =>
      let server := hostname ++ lit ":" ++ port in
      let catalogMatch := match_lazy (lit "<Catalog>") dot (lit "</Catalog>") soapBody in
      let database := match catalogMatch with Some group => group | None => [] end in
      match extractQueryFromSOAP soapBody with
      | Throw e => Throw e
      | Ok query =>
          Ok {| bi_server := server; bi_database := database; bi_query := query;
                bi_timeout := COMMAND_TIMEOUT |}
      end
  end.

(** The rest of the [try] block: the bridge is loaded and called, and its
    answer becomes the reply or an error. *)
Definition call_bridge (input : BridgeInput) (w : World) : res IpcResult * World :=
  match loadXmlaBridge w with
  | (Throw bridgeError, w) =>
      (Throw (lit "Failed to load .NET Bridge: " ++ bridgeError), w)
  | (Ok bridge, w) =>
      match bridge input w with
      | (Throw error, w) => (Throw error, w)
      | (Ok result, w) =>
          if br_success result then
            let xmlResponse := convertToXMLResponse (br_data result) in
            (Ok {| success := true; data := xmlResponse |}, w)
          else
            let errorMessage :=
              if bool_decide (br_errorType result = lit "AdomdConnectionException") then
                lit "Connection failed: " ++ br_error result ++ nl ++ nl
                ++ lit "Make sure:" ++ bullet ++ lit "Power BI Desktop is running"
                ++ bullet ++ lit "The report is open"
                ++ bullet ++ lit "External Tools are enabled"
              else if bool_decide (br_errorType result = lit "AdomdErrorResponseException")
              then
                lit "Query error: " ++ br_error result ++ nl ++ nl
                ++ lit "Check your DAX syntax and try again."
              else br_error result in
            (Throw errorMessage, w)
      end
  end.

(** The handler of [xmla-request], with its [catch] block. *)
Definition xmla_request (endpoint soapBody : jsstring) (w : World)
    : res IpcResult * World :=
  let attempt :=
    match request_input endpoint soapBody with
    | Throw e => (Throw e, w)
    | Ok input => call_bridge input w
    end in
  match attempt with
  | (Throw message, w) =>
      if includes message (lit "Invalid URL") then
        (Throw (lit "Invalid XMLA endpoint URL. Make sure Power BI Desktop is running and the report is open."), w)
      else (Throw message, w)
  | reply => reply
  end.

End Host.

End Main.

(** ** A shell to run the handler in

    [URL] reads [http://host:port/path]; the bridge echoes what it is
    asked in one row. *)

Module Shell.
Import Validator Xmla Main.

Definition World := nat.

Definition URL (endpoint : jsstring) : res (jsstring * jsstring) :=
  if starts_with (lit "http://") endpoint then
    let rest := drop 7 endpoint in
    let hostname := take_while (λ c, negb ((c =? 58) || (c =? 47))) rest in
    let port := take_while is_digit (drop (S (length hostname)) rest) in
    Ok (hostname, port)
  else Throw (lit "Invalid URL").

Definition bridge (input : BridgeInput) (w : World) : res BridgeResult * World :=
  (Ok {| br_success := true;
         br_data := [[(lit "server", JStr (bi_server input));
                      (lit "database", JStr (bi_database input));
                      (lit "query", JStr (bi_query input))]];
         br_error := []; br_errorType := [] |}, S w).

Definition loadXmlaBridge (w : World)
    : res (BridgeInput → World → res BridgeResult * World) * World :=
  (Ok bridge, w).

Definition request_input := Main.request_input URL.
Definition xmla_request := Main.xmla_request World URL loadXmlaBridge.

End Shell.

(** ** Vocabulary of the shell *)

(** No occurrence of [needle] begins inside [s], whatever follows [s]:
    no end of [s] starts with [needle] or is the start of [needle]. *)
Fixpoint clear_of (needle s : jsstring) : bool :=
  match s with
  | [] => true
  | _ :: s' => negb (starts_with needle s || starts_with s needle) && clear_of needle s'
  end.

(** The text of an Execute request before the statement, between the
    statement and the catalog, and after the catalog. *)
Definition execute_head : jsstring :=
  envelope_open
  ++ lit "    <Execute xmlns=" ++ qt "urn:schemas-microsoft-com:xml-analysis" ++ lit ">" ++ nl
  ++ lit "      <Command>" ++ nl
  ++ lit "        ".
Definition execute_middle : jsstring :=
  nl ++ lit "      </Command>" ++ nl
  ++ lit "      <Properties>" ++ nl
  ++ lit "        <PropertyList>" ++ nl
  ++ lit "          ".
Definition execute_tail : jsstring :=
  nl ++ lit "          <Format>Tabular</Format>" ++ nl
  ++ lit "        </PropertyList>" ++ nl
  ++ lit "      </Properties>" ++ nl
  ++ lit "    </Execute>" ++ nl
  ++ envelope_close.

(** * Properties *)

(** ** The query validator *)

Section ValidatorProperties.

Variable unicodeUpper : jsstring → jsstring.

Lemma coherent_fail_with x e r : coherent x r → coherent x (fail_with e r).
Proof.
  intros [_ Hm]. split; simpl; [|exact Hm].
  intros _ H. by apply app_eq_nil in H as [_ ?].
Qed.

Lemma coherent_warn x w r : coherent x r → coherent x (warn w r).
Proof. intros [Hv Hm]. split; simpl; assumption. Qed.

Lemma coherent_rewrite_to x q r : coherent x r → coherent x (rewrite_to q r).
Proof. intros [Hv _]. split; simpl; [assumption | discriminate]. Qed.

Lemma fold_left_keeps {A B} (P : A → Prop) (f : A → B → A) (l : list B) (a : A) :
  (∀ a b, P a → P (f a b)) → P a → P (fold_left f l a).
Proof. intros Hf. revert a. induction l; simpl; auto. Qed.

(** A property of results that every step of [validate] keeps holds of
    the result of [validate]. *)
Section Keeps.

Variable P : ValidationResult → Prop.
Hypothesis keeps_fail_with : ∀ e r, P r → P (fail_with e r).
Hypothesis keeps_warn : ∀ w r, P r → P (warn w r).
Hypothesis keeps_rewrite_to : ∀ q r, P r → P (rewrite_to q r).

Lemma keeps_check_blocked q l acc :
  P (fst acc) → P (fst (fold_left (check_blocked q) l acc)).
Proof.
  apply (fold_left_keeps (λ acc, P (fst acc))).
  intros [r ps] re H. unfold check_blocked.
  destruct (test re q) as [[] re']; cbn [fst] in *; auto.
Qed.

Lemma keeps_check_nested q l r : P r → P (fold_left (check_nested q) l r).
Proof.
  apply fold_left_keeps. intros a f H. unfold check_nested.
  destruct (test_fresh _ _); auto.
Qed.

Lemma keeps_check_keyword q l r :
  P r → P (fold_left (check_keyword unicodeUpper q) l r).
Proof.
  apply fold_left_keeps. intros a f H. unfold check_keyword.
  destruct (_ && _); auto.
Qed.

Lemma validate_keeps v x :
  P {| isValid := true; warnings := []; errors := []; modified := false;
       modifiedQuery := x |} →
  P (fst (validate unicodeUpper v x)).
Proof.
  intros H0. unfold validate.
  destruct x as [| |b|z|[|c q]|]; cbn [fst]; try (by apply keeps_fail_with).
  destruct (length (trim (c :: q)) =? 0)%nat; cbn [fst];
    [by apply keeps_fail_with|].
  pose proof (keeps_check_blocked (trim (c :: q)) (blockedPatterns v) (_, []) H0) as H1.
  destruct (fold_left (check_blocked _) _ _) as [r1 ps]. cbn [fst] in H1 |- *.
  repeat first
    [ apply keeps_warn | apply keeps_rewrite_to | apply keeps_fail_with
    | apply keeps_check_keyword | apply keeps_check_nested
    | match goal with |- P (if ?b then _ else _) => destruct b end
    | assumption ].
Qed.

End Keeps.

Lemma coherent_validate v x : coherent x (fst (validate unicodeUpper v x)).
Proof.
  apply validate_keeps;
    auto using coherent_fail_with, coherent_warn, coherent_rewrite_to.
  split; cbn; [discriminate | reflexivity].
Qed.

(** The query a result carries is a string when the input is one. *)
Lemma validate_text v q :
  ∃ s, modifiedQuery (fst (validate unicodeUpper v (JStr q))) = JStr s.
Proof.
  apply (validate_keeps (λ r, ∃ s, modifiedQuery r = JStr s)); cbn; eauto.
Qed.

(** [validate] changes the expressions of a validator, not its limits. *)
Lemma validate_limits v x :
  maxRows (snd (validate unicodeUpper v x)) = maxRows v
  ∧ warningThreshold (snd (validate unicodeUpper v x)) = warningThreshold v.
Proof.
  unfold validate. destruct x as [| |b|z|[|c q]|]; try done.
  destruct (length (trim (c :: q)) =? 0)%nat; [done|].
  by destruct (fold_left (check_blocked _) _ _).
Qed.

(** C5. For every input value, the result of [validate] has an error
    whenever it is not valid, and carries the input unchanged as
    [modifiedQuery] whenever it is not modified. *)
Theorem validate_result_invariant (v : DAXValidator) (x : JsValue) :
  let r := fst (validate unicodeUpper v x) in
  (isValid r = false → errors r ≠ []) ∧ (modified r = false → modifiedQuery r = x).
Proof. exact (coherent_validate v x). Qed.

(** C1, as amended. A query text without a row-limiting construct, an
    evaluate marker or a [$SYSTEM] marker, and which [validate] accepts
    (it is not blank, no blocked pattern hits and it does not start with
    SELECT), is rewritten: [modified] is set, [modifiedQuery] is the
    trimmed text wrapped in [TOPN(maxRows, ...)], and the last warning
    explains the limit. With the application's configuration, ['T']
    becomes [TOPN(10000, 'T')]. *)
Theorem validate_wraps_accepted_unlimited :
  (∀ (v : DAXValidator) (q : jsstring),
     let r := fst (validate unicodeUpper v (JStr q)) in
     unlimited unicodeUpper q → isValid r = true →
     modified r = true
     ∧ modifiedQuery r = JStr (wrapped v q)
     ∧ last (warnings r) = Some (limit_notice v))
  ∧ (let r := fst (validate unicodeUpper (new_DAXValidator (Some AppConfig.QUERY))
                     (JStr (lit "'T'"))) in
     modified r = true ∧ modifiedQuery r = JStr (lit "TOPN(10000, 'T')")).
Proof.
  split; [|by vm_compute].
  intros v q r (Htopn & Htop & Heval & Hsys) Hvalid. subst r. revert Hvalid.
  unfold validate. destruct q as [|c q]; [discriminate|].
  destruct (length (trim (c :: q)) =? 0)%nat; [discriminate|].
  destruct (fold_left (check_blocked _) _ _) as [r1 ps].
  rewrite Htopn, Htop, Heval, Hsys. cbn [negb orb andb fst].
  set (r5 := fold_left (check_keyword _ _) _ _).
  destruct (isValid r5) eqn:E; cbn [negb andb]; [intros _|congruence].
  cbn [modified modifiedQuery warnings warn rewrite_to].
  repeat split. apply last_snoc.
Qed.

End ValidatorProperties.

(** C1 as stated fails: a text that starts with SELECT has no row limit,
    no evaluate marker and no [$SYSTEM] marker, yet it is rejected and
    left as it is. *)
Lemma validate_leaves_rejected_query :
  let q := lit "SELECT 1" in
  let r := fst (validate Demo.upper Demo.validator (JStr q)) in
  unlimited Demo.upper q ∧ isValid r = false ∧ modified r = false
  ∧ modifiedQuery r = JStr q.
Proof. by vm_compute. Qed.

Lemma validate_wraps_accepted_unlimited_witness :
  let q := lit "  'Sales' " in
  let r := fst (validate Demo.upper Demo.validator (JStr q)) in
  modified r = true
  ∧ modifiedQuery r = JStr (lit "TOPN(10000, 'Sales')")
  ∧ last (warnings r) = Some (lit "Automatically limited to 10000 rows for safety.").
Proof.
  apply (proj1 (validate_wraps_accepted_unlimited Demo.upper) Demo.validator
           (lit "  'Sales' ")); by vm_compute.
Defined.

Lemma validate_result_invariant_witness :
  let r := fst (validate Demo.upper Demo.validator (JStr (lit "SELECT 1"))) in
  errors r ≠ [] ∧ modifiedQuery r = JStr (lit "SELECT 1").
Proof.
  destruct (validate_result_invariant Demo.upper Demo.validator (JStr (lit "SELECT 1")))
    as [H1 H2].
  split; [apply H1 | apply H2]; by vm_compute.
Defined.

(** ** The expressions of [sanitize] *)

Section SanitizeProperties.

Lemma star_to_end (p : N → bool) prev s :
  star p (match_here [Eol]) prev s = if forallb p s then Some (length s) else None.
Proof.
  revert prev. induction s as [|c s IH]; intros prev; [reflexivity|].
  cbn [star forallb]. destruct (p c); cbn [andb]; [|reflexivity].
  rewrite IH. destruct (forallb p s); reflexivity.
Qed.

Lemma star_semis_ws prev s :
  star (chr ";") (match_here [Chr is_ws Star; Eol]) prev s
  = if semis_ws s then Some (length s) else None.
Proof.
  revert prev. induction s as [|c s IH]; intros prev; [reflexivity|].
  cbn [star semis_ws]. unfold chr at 1. change (N_of_ascii ";") with 59.
  destruct (N.eqb_spec c 59) as [->|Hc].
  - rewrite IH. destruct (semis_ws s); [reflexivity|].
    change (match_here [Chr is_ws Star; Eol]) with (star is_ws (match_here [Eol])).
    rewrite star_to_end. reflexivity.
  - change (match_here [Chr is_ws Star; Eol]) with (star is_ws (match_here [Eol])).
    rewrite star_to_end. reflexivity.
Qed.

Lemma match_trailing prev s :
  match_here re_trailing prev s =
  match s with
  | c :: s' => if (c =? 59) && semis_ws s' then Some (S (length s')) else None
  | [] => None
  end.
Proof.
  destruct s as [|c s]; [reflexivity|].
  unfold re_trailing. cbn [match_here]. unfold chr at 1. change (N_of_ascii ";") with 59.
  destruct (c =? 59); [|reflexivity]. cbn [andb].
  change (star (chr ";") (match_here [Chr is_ws Star; Eol]))
    with (star (chr ";") (match_here [Chr is_ws Star; Eol])).
  rewrite star_semis_ws. destruct (semis_ws s); reflexivity.
Qed.

Lemma replace_trailing_skip prev s :
  replace_go re_trailing [] prev s (length s) = [].
Proof.
  revert prev. induction s as [|c s IH]; intros prev; [reflexivity|].
  cbn [replace_go length]. apply IH.
Qed.

Lemma replace_trailing_strip prev s :
  replace_go re_trailing [] prev s 0 = strip s.
Proof.
  revert prev. induction s as [|c s IH]; intros prev; [reflexivity|].
  cbn [replace_go strip]. rewrite match_trailing.
  destruct ((c =? 59) && semis_ws s).
  - apply replace_trailing_skip.
  - f_equal. apply IH.
Qed.

Lemma star_run prev s :
  star (chr ";") (match_here []) prev s = Some (run s).
Proof.
  revert prev. induction s as [|c s IH]; intros prev; [reflexivity|].
  cbn [star run]. unfold chr at 1. change (N_of_ascii ";") with 59.
  destruct (c =? 59); [|reflexivity]. by rewrite IH.
Qed.

Lemma match_semicolons prev s :
  match_here re_semicolons prev s =
  match s with
  | c :: s' => if c =? 59 then Some (S (run s')) else None
  | [] => None
  end.
Proof.
  destruct s as [|c s]; [reflexivity|].
  unfold re_semicolons. cbn [match_here]. unfold chr at 1. change (N_of_ascii ";") with 59.
  destruct (c =? 59); [|reflexivity]. by rewrite star_run.
Qed.

Lemma replace_semicolons_collapse s :
  ∀ prev,
    replace_go re_semicolons (lit ";") prev s (run s) = collapse_from true s
    ∧ replace_go re_semicolons (lit ";") prev s 0 = collapse_from false s.
Proof.
  induction s as [|c s IH]; intros prev; [split; reflexivity|].
  cbn [replace_go run collapse_from]. rewrite match_semicolons.
  destruct (N.eqb_spec c 59) as [->|Hc].
  - destruct (IH (Some 59)) as [IH1 IH2]. split; [exact IH1|].
    change (lit ";") with [59]. cbn [app]. f_equal. exact IH1.
  - destruct (IH (Some c)) as [IH1 IH2].
    split; f_equal; exact IH2.
Qed.

(** [sanitize] on a string, in terms of the plain functions. *)
Lemma sanitize_plain q :
  sanitize (JStr q) = Ok (strip (collapse_from false (trim q))).
Proof.
  destruct q as [|c q]; [reflexivity|].
  unfold sanitize. cbn [truthy negb]. unfold replace_all.
  rewrite replace_trailing_strip.
  by rewrite (proj2 (replace_semicolons_collapse _ None)).
Qed.

Lemma drop_ws_head s c : head (drop_ws s) = Some c → is_ws c = false.
Proof.
  induction s as [|x s IH]; [discriminate|]. cbn [drop_ws].
  destruct (is_ws x) eqn:E; [exact IH|]. intros [= <-]. exact E.
Qed.

Lemma drop_ws_suffix s : drop_ws s `suffix_of` s.
Proof.
  induction s as [|x s IH]; [done|]. cbn [drop_ws].
  destruct (is_ws x); [by apply suffix_cons_r | done].
Qed.

Lemma drop_ws_id s : (∀ c, head s = Some c → is_ws c = false) → drop_ws s = s.
Proof.
  destruct s as [|x s]; [done|]. intros H. cbn [drop_ws].
  by rewrite (H x eq_refl).
Qed.

Lemma last_suffix (a b : jsstring) c : a `suffix_of` b → last a = Some c → last b = Some c.
Proof. intros [k ->] H. rewrite last_app, H. reflexivity. Qed.

Lemma trim_head s c : head (trim s) = Some c → is_ws c = false.
Proof.
  unfold trim. rewrite head_reverse. intros H.
  apply (last_suffix _ _ _ (drop_ws_suffix _)) in H.
  rewrite last_reverse in H. by apply drop_ws_head in H.
Qed.

Lemma trim_last s c : last (trim s) = Some c → is_ws c = false.
Proof. unfold trim. rewrite last_reverse. apply drop_ws_head. Qed.

Lemma trim_id s :
  (∀ c, head s = Some c → is_ws c = false) →
  (∀ c, last s = Some c → is_ws c = false) → trim s = s.
Proof.
  intros Hh Hl. unfold trim. rewrite (drop_ws_id s Hh).
  rewrite drop_ws_id; [apply reverse_involutive|].
  intros c. rewrite head_reverse. apply Hl.
Qed.

Lemma collapse_head s : head (collapse_from false s) = head s.
Proof. destruct s as [|c s]; [done|]. cbn. by destruct (c =? 59). Qed.

Lemma collapse_no_run s seen :
  no_run (collapse_from seen s) = true
  ∧ (seen = true → head (collapse_from seen s) ≠ Some 59).
Proof.
  revert seen. induction s as [|c s IH]; intros seen; [by split|].
  cbn [collapse_from]. destruct (N.eqb_spec c 59) as [->|Hc].
  - destruct (IH true) as [IH1 IH2]. destruct seen; [by split|].
    split; [|discriminate]. cbn [no_run]. rewrite IH1.
    destruct (collapse_from true s) as [|b k] eqn:E; [done|].
    destruct (N.eqb_spec b 59) as [->|]; [|done]. by destruct IH2.
  - destruct (IH false) as [IH1 _]. split; [|cbn; congruence].
    cbn [no_run]. rewrite IH1. apply N.eqb_neq in Hc. by rewrite Hc.
Qed.

Lemma collapse_id s seen :
  no_run s = true → (seen = true → head s ≠ Some 59) → collapse_from seen s = s.
Proof.
  revert seen. induction s as [|c s IH]; intros seen Hn Hs; [done|].
  cbn [collapse_from]. cbn [no_run] in Hn. apply andb_prop in Hn as [Hc Hn].
  destruct (N.eqb_spec c 59) as [->|Hne].
  - destruct seen; [by destruct Hs|]. f_equal. apply IH; [done|].
    intros _ E. destruct s as [|b k]; [done|]. injection E as ->. done.
  - f_equal. by apply IH.
Qed.

Lemma no_run_prefix (a b : jsstring) : no_run (a ++ b) = true → no_run a = true.
Proof.
  induction a as [|x a IH]; [done|]. cbn [app no_run].
  intros [H1 H2]%andb_prop. rewrite (IH H2), andb_true_r.
  destruct a as [|y a]; [by rewrite andb_false_r | exact H1].
Qed.

Lemma no_run_spec s : no_run s = true → ¬ ∃ a b, s = a ++ [59; 59] ++ b.
Proof.
  intros H (a & b & ->). induction a as [|x a IH].
  - discriminate H.
  - apply IH. cbn [app no_run] in H. by apply andb_prop in H as [_ ?].
Qed.

Lemma strip_prefix s : strip s `prefix_of` s.
Proof.
  induction s as [|c s IH]; [done|]. cbn [strip].
  destruct (_ && _); [apply prefix_nil | by apply prefix_cons].
Qed.

Lemma strip_nil s : strip s = [] → semis_ws s = true.
Proof.
  destruct s as [|c s]; [done|]. cbn [strip semis_ws].
  destruct (c =? 59); cbn [andb]; [|done]. by destruct (semis_ws s).
Qed.

Lemma strip_last s : last (strip s) ≠ Some 59.
Proof.
  induction s as [|c s IH]; [done|]. cbn [strip].
  destruct (N.eqb_spec c 59) as [->|Hc]; cbn [andb].
  - destruct (semis_ws s) eqn:E; [done|]. rewrite last_cons.
    destruct (last (strip s)) eqn:L; [done|].
    apply last_None, strip_nil in L. congruence.
  - rewrite last_cons. destruct (last (strip s)); [done | congruence].
Qed.

Lemma semis_ws_last s x : semis_ws s = true → last s = Some x → x = 59 ∨ is_ws x = true.
Proof.
  induction s as [|c s IH]; [done|]. cbn [semis_ws]. rewrite last_cons.
  destruct (N.eqb_spec c 59) as [->|Hc].
  - intros H. destruct (last s); [by apply IH | intros [= <-]; by left].
  - intros H L. right.
    assert (Hin : x ∈ c :: s).
    { apply last_Some_elem_of. rewrite last_cons. exact L. }
    rewrite forallb_forall in H. by apply H, list_elem_of_In.
Qed.

Lemma strip_id s :
  (∀ x, last s = Some x → x ≠ 59 ∧ is_ws x = false) → strip s = s.
Proof.
  induction s as [|c s IH]; [done|]. intros H. cbn [strip].
  destruct ((c =? 59) && semis_ws s) eqn:E.
  - apply andb_prop in E as [Ec Es]. apply N.eqb_eq in Ec as ->.
    destruct (last s) as [x|] eqn:L.
    + destruct (H x) as [H1 H2]; [by rewrite last_cons, L|].
      destruct (semis_ws_last s x Es L); congruence.
    + destruct (H 59) as [H1 _]; [by rewrite last_cons, L | done].
  - f_equal. apply IH. intros x L. apply H. by rewrite last_cons, L.
Qed.

Lemma drop_ws_shorter s c :
  head s = Some c → is_ws c = true → (length (drop_ws s) < length s)%nat.
Proof.
  destruct s as [|x s]; [done|]. intros [= ->] Hc. cbn [drop_ws]. rewrite Hc.
  pose proof (suffix_length _ _ (drop_ws_suffix s)). cbn [length]. lia.
Qed.

Lemma trim_shorter s c :
  last s = Some c → is_ws c = true → (length (trim s) < length s)%nat.
Proof.
  intros Hl Hc. unfold trim. rewrite length_reverse.
  pose proof (suffix_length _ _ (drop_ws_suffix s)) as Hd.
  destruct (last (drop_ws s)) as [x|] eqn:L.
  - assert (x = c) as ->.
    { apply (last_suffix _ _ _ (drop_ws_suffix s)) in L. congruence. }
    pose proof (drop_ws_shorter (reverse (drop_ws s)) c) as H.
    rewrite head_reverse, length_reverse in H. specialize (H L Hc). lia.
  - apply last_None in L. rewrite L. cbn. destruct s; [done | cbn; lia].
Qed.

Lemma collapse_length seen s : (length (collapse_from seen s) ≤ length s)%nat.
Proof.
  revert seen. induction s as [|c s IH]; intros seen; [done|]. cbn [collapse_from].
  destruct (c =? 59); [destruct seen|]; cbn [length];
    [specialize (IH true) | specialize (IH true) | specialize (IH false)]; lia.
Qed.

Lemma semis_ws_collapse s seen :
  semis_ws (collapse_from seen s) = true → semis_ws s = true.
Proof.
  revert seen. induction s as [|c s IH]; intros seen; [done|]. cbn [collapse_from semis_ws].
  destruct (N.eqb_spec c 59) as [->|Hc].
  - destruct seen; [by apply IH|]. cbn [semis_ws]. rewrite N.eqb_refl. by apply IH.
  - apply N.eqb_neq in Hc. cbn [semis_ws forallb]. rewrite Hc.
    intros [-> H]%andb_prop. cbn [andb].
    assert (E : ∀ t, forallb is_ws (collapse_from false t) = true → forallb is_ws t = true).
    { clear. induction t as [|x t IH]; [done|]. cbn [collapse_from].
      destruct (N.eqb_spec x 59) as [->|Hx]; cbn [forallb]; [done|].
      intros [-> H]%andb_prop. by apply IH. }
    by apply E.
Qed.

Lemma semis_ws_separated s b :
  semis_ws s = true → (∀ c, last s = Some c → is_ws c = false) → separated b s = [].
Proof.
  revert b. induction s as [|c s IH]; intros b; [done|]. cbn [semis_ws separated].
  destruct (N.eqb_spec c 59) as [->|Hc].
  - intros H L. apply IH; [done|]. intros x Hx. apply L. by rewrite last_cons, Hx.
  - intros H L. exfalso.
    destruct (last (c :: s)) as [x|] eqn:E; [|by apply last_None in E].
    assert (Hin : x ∈ c :: s) by (by apply last_Some_elem_of).
    rewrite forallb_forall in H.
    assert (W : is_ws x = true) by (by apply H, list_elem_of_In).
    by rewrite (L x eq_refl) in W.
Qed.

(** Squeezing and stripping keep every code unit other than a semicolon
    and keep one semicolon of every run that something follows. *)
Lemma separated_sanitized s seen b :
  (seen = true → b = true) → (∀ c, last s = Some c → is_ws c = false) →
  separated b (strip (collapse_from seen s)) = separated b s.
Proof.
  revert seen b. induction s as [|c s IH]; intros seen b Hb L; [done|].
  assert (L' : ∀ x, last s = Some x → is_ws x = false).
  { intros x Hx. apply L. by rewrite last_cons, Hx. }
  cbn [collapse_from separated]. destruct (N.eqb_spec c 59) as [->|Hc].
  - destruct seen.
    + rewrite (Hb eq_refl). by apply IH.
    + cbn [strip]. rewrite N.eqb_refl. cbn [andb].
      destruct (semis_ws (collapse_from true s)) eqn:E.
      * cbn [separated]. symmetry. apply semis_ws_separated; [|done].
        by apply (semis_ws_collapse s true).
      * cbn [separated]. rewrite N.eqb_refl. by apply IH.
  - apply N.eqb_neq in Hc. cbn [strip]. rewrite Hc. cbn [andb separated]. rewrite Hc.
    f_equal. by apply IH.
Qed.

(** C6, as amended. On every query text [sanitize] returns the trimmed
    text with its semicolons squeezed: the code units other than
    semicolons are kept in order, a semicolon stands before one of them
    exactly where a run of semicolons did, no two semicolons stand in a
    row and none at the end; sanitizing that text again changes nothing
    exactly when it does not end in white space. *)
Theorem sanitize_collapses_and_settles (q : jsstring) :
  ∃ r, sanitize (JStr q) = Ok r
       ∧ separated false r = separated false (trim q)
       ∧ (¬ ∃ a b, r = a ++ lit ";;" ++ b)
       ∧ last r ≠ Some 59
       ∧ ((∀ c, last r = Some c → is_ws c = false) ↔ sanitize (JStr r) = Ok r).
Proof.
  exists (strip (collapse_from false (trim q))).
  set (u := collapse_from false (trim q)).
  assert (Hu : no_run u = true) by apply collapse_no_run.
  destruct (strip_prefix u) as [z Hz].
  assert (Hr : no_run (strip u) = true) by (apply (no_run_prefix _ z); congruence).
  split; [apply sanitize_plain|].
  split; [apply separated_sanitized; [done | apply trim_last]|].
  split; [by apply no_run_spec|].
  split; [apply strip_last|]. rewrite sanitize_plain. split.
  - intros Hws. f_equal.
    assert (Ht : trim (strip u) = strip u).
    { apply trim_id; [|exact Hws]. intros c Hc.
      apply (trim_head q). rewrite <- collapse_head. fold u.
      rewrite Hz, head_app, Hc. reflexivity. }
    rewrite Ht, (collapse_id _ false Hr) by done.
    apply strip_id. intros x L. split; [|by apply Hws].
    intros ->. by apply (strip_last u).
  - intros [= E] c Hc. destruct (is_ws c) eqn:Ec; [exfalso|reflexivity].
    pose proof (trim_shorter _ _ Hc Ec) as H1.
    pose proof (collapse_length false (trim (strip u))) as H2.
    pose proof (prefix_length _ _ (strip_prefix (collapse_from false (trim (strip u)))))
      as H3.
    rewrite E in H3. lia.
Qed.

End SanitizeProperties.

(** C6 as stated fails: a semicolon after white space is cut off and the
    white space stays, so a second pass still changes the text. *)
Lemma sanitize_not_idempotent :
  sanitize (JStr (lit "a ;")) = Ok (lit "a ")
  ∧ sanitize (JStr (lit "a ")) = Ok (lit "a")
  ∧ lit "a " ≠ lit "a".
Proof. by vm_compute. Qed.

Lemma sanitize_collapses_and_settles_witness :
  sanitize (JStr (lit " a;;b;; ")) = Ok (lit "a;b")
  ∧ sanitize (JStr (lit "a;b")) = Ok (lit "a;b").
Proof.
  destruct (sanitize_collapses_and_settles (lit " a;;b;; "))
    as (r & H1 & _ & _ & _ & H2).
  assert (r = lit "a;b") as ->.
  { pose proof H1 as H. vm_compute in H. vm_compute. congruence. }
  split; [exact H1|]. apply H2.
  intros c H. vm_compute in H. injection H as <-. reflexivity.
Defined.

(** ** Escaping and unescaping *)

Section LiteralReplacement.

Variables (p repl : jsstring).

Lemma match_text prev s :
  match_here (Rx.text p) prev s = if starts_with p s then Some (length p) else None.
Proof.
  revert prev s. induction p as [|a p' IH]; intros prev s; [reflexivity|].
  cbn [Rx.text map match_here starts_with]. fold (Rx.text p').
  destruct s as [|c s]; [reflexivity|].
  destruct (a =? c); cbn [andb]; [|reflexivity].
  rewrite IH. destruct (starts_with p' s); reflexivity.
Qed.

Lemma replace_text_prev s : ∀ prev prev' k,
  replace_go (Rx.text p) repl prev s k = replace_go (Rx.text p) repl prev' s k.
Proof.
  induction s as [|c s IH]; intros prev prev' k; cbn [replace_go].
  - by rewrite !match_text.
  - destruct k; [|apply IH]. by rewrite !match_text.
Qed.

Lemma replace_text_skip s : ∀ prev k,
  (k ≤ length s)%nat →
  replace_go (Rx.text p) repl prev s k = replace_go (Rx.text p) repl None (drop k s) 0.
Proof.
  induction s as [|c s IH]; intros prev k Hk.
  - destruct k; [|by inversion Hk]. apply replace_text_prev.
  - destruct k; [apply replace_text_prev|].
    cbn [replace_go drop]. apply IH. cbn in Hk. lia.
Qed.

Lemma starts_with_length (a b : jsstring) : starts_with a b = true → (length a ≤ length b)%nat.
Proof.
  revert b. induction a as [|x a IH]; intros [|y b]; cbn; try done; [lia|].
  intros [_ H]%andb_prop. apply IH in H. lia.
Qed.

Lemma replace_text_miss c s :
  starts_with p (c :: s) = false →
  replace_all (Rx.text p) repl (c :: s) = c :: replace_all (Rx.text p) repl s.
Proof.
  intros H. unfold replace_all. cbn [replace_go]. rewrite match_text, H.
  f_equal. apply replace_text_prev.
Qed.

Lemma replace_text_hit n c s :
  length p = S n → starts_with p (c :: s) = true →
  replace_all (Rx.text p) repl (c :: s)
  = repl ++ replace_all (Rx.text p) repl (drop n s).
Proof.
  intros Hp H. unfold replace_all. cbn [replace_go]. rewrite match_text, H, Hp.
  apply starts_with_length in H. cbn [length] in H. f_equal.
  apply replace_text_skip. lia.
Qed.

Lemma replace_text_nil : p ≠ [] → replace_all (Rx.text p) repl [] = [].
Proof. destruct p; [done|reflexivity]. Qed.

End LiteralReplacement.

Lemma replace_char (a : N) (repl s : jsstring) :
  replace_all (Rx.text [a]) repl s = flat_map (λ c, if a =? c then repl else [c]) s.
Proof.
  induction s as [|c s IH]; [reflexivity|]. cbn [flat_map].
  destruct (a =? c) eqn:E.
  - rewrite (replace_text_hit _ _ 0); [|done|by cbn; rewrite E].
    by rewrite drop_0, IH.
  - rewrite replace_text_miss; [|by cbn; rewrite E]. by rewrite IH.
Qed.

Lemma flat_map_flat_map {A B C} (f : A → list B) (g : B → list C) (l : list A) :
  flat_map g (flat_map f l) = flat_map (λ a, flat_map g (f a)) l.
Proof.
  induction l as [|a l IH]; [reflexivity|]. cbn [flat_map].
  by rewrite flat_map_app, IH.
Qed.

(** Which of the five special code units a code unit is, if any. *)
Lemma special_cases (c : N) :
  c = 38 ∨ c = 60 ∨ c = 62 ∨ c = 34 ∨ c = 39
  ∨ ((c =? 38) = false ∧ (c =? 60) = false ∧ (c =? 62) = false
     ∧ (c =? 34) = false ∧ (c =? 39) = false).
Proof.
  destruct (N.eqb_spec c 38); [tauto|]. destruct (N.eqb_spec c 60); [tauto|].
  destruct (N.eqb_spec c 62); [tauto|]. destruct (N.eqb_spec c 34); [tauto|].
  destruct (N.eqb_spec c 39); tauto.
Qed.

Lemma escape_chain_entities s :
  Utils.escape_chain s = flat_map (entity false false false false false) s.
Proof.
  unfold Utils.escape_chain, Utils.apos, Utils.quot, Utils.gt, Utils.lt, Utils.amp.
  change (lit "&") with [38]. change (lit "<") with [60]. change (lit ">") with [62].
  change (lit "'") with [39].
  rewrite !replace_char, !flat_map_flat_map.
  apply flat_map_ext. intros c.
  destruct (special_cases c) as [->|[->|[->|[->|[->|(H1&H2&H3&H4&H5)]]]]];
    try reflexivity.
  unfold entity. rewrite H1, H2, H3, H4, H5.
  rewrite (N.eqb_sym 38), H1. cbn [flat_map app].
  rewrite (N.eqb_sym 60), H2. cbn [flat_map app].
  rewrite (N.eqb_sym 62), H3. cbn [flat_map app].
  rewrite (N.eqb_sym 34), H4. cbn [flat_map app].
  by rewrite (N.eqb_sym 39), H5.
Qed.

(** One pass of [unescapeXml] over an encoded text: the entity [ent] is
    turned back, every other piece is copied. *)
Ltac eval_entities :=
  repeat match goal with
         | |- context [entity ?a ?q ?g ?l ?m ?c] =>
             let v := eval vm_compute in (entity a q g l m c) in
             change (entity a q g l m c) with v
         end.

Ltac unescape_pass IH :=
  eval_entities; cbn [app];
  repeat (rewrite replace_text_miss by reflexivity);
  try (erewrite replace_text_hit by reflexivity; simpl drop; rewrite drop_0);
  rewrite IH; reflexivity.

Ltac unescape_stage ent :=
  let c := fresh "c" in
  let s := fresh "s" in
  let IH := fresh "IH" in
  intros s; induction s as [|c s IH]; [reflexivity|];
  cbn [flat_map];
  destruct (special_cases c) as [->|[->|[->|[->|[->|(?H1&?H2&?H3&?H4&?H5)]]]]];
  [unescape_pass IH ..|];
  unfold entity at 1 3;
  repeat match goal with H : (c =? _) = false |- _ => rewrite H end;
  cbn [app];
  rewrite replace_text_miss;
  [by rewrite IH
  |change ent with (38 :: tail ent); cbn [starts_with];
   by match goal with H : (c =? 38) = false |- _ => rewrite (N.eqb_sym 38), H end].

Lemma unescape_apos :
  ∀ s, replace_all (Rx.text (lit "&apos;")) (lit "'")
         (flat_map (entity false false false false false) s)
       = flat_map (entity true false false false false) s.
Proof. unescape_stage (lit "&apos;"). Qed.

Lemma unescape_quot :
  ∀ s, replace_all (Rx.text (lit "&quot;")) [34]
         (flat_map (entity true false false false false) s)
       = flat_map (entity true true false false false) s.
Proof. unescape_stage (lit "&quot;"). Qed.

Lemma unescape_gt :
  ∀ s, replace_all (Rx.text (lit "&gt;")) (lit ">")
         (flat_map (entity true true false false false) s)
       = flat_map (entity true true true false false) s.
Proof. unescape_stage (lit "&gt;"). Qed.

Lemma unescape_lt :
  ∀ s, replace_all (Rx.text (lit "&lt;")) (lit "<")
         (flat_map (entity true true true false false) s)
       = flat_map (entity true true true true false) s.
Proof. unescape_stage (lit "&lt;"). Qed.

Lemma unescape_amp :
  ∀ s, replace_all (Rx.text (lit "&amp;")) (lit "&")
         (flat_map (entity true true true true false) s)
       = flat_map (entity true true true true true) s.
Proof. unescape_stage (lit "&amp;"). Qed.

Lemma entities_all_back s : flat_map (entity true true true true true) s = s.
Proof.
  induction s as [|c s IH]; [reflexivity|]. cbn [flat_map]. rewrite IH.
  destruct (special_cases c) as [->|[->|[->|[->|[->|(H1&H2&H3&H4&H5)]]]]];
    try reflexivity.
  unfold entity. by rewrite H1, H2, H3, H4, H5.
Qed.

(** C8. Unescaping an escaped string gives the string back. *)
Theorem unescapeXml_escapeXml (s : jsstring) :
  Utils.unescapeXml (Utils.escapeXml (JStr s)) = s.
Proof.
  assert (E : Utils.escapeXml (JStr s) = Utils.escape_chain s)
    by (destruct s; reflexivity).
  rewrite E, escape_chain_entities.
  transitivity (flat_map (entity true true true true true) s);
    [|apply entities_all_back].
  rewrite <- unescape_amp, <- unescape_lt, <- unescape_gt, <- unescape_quot,
    <- unescape_apos.
  unfold Utils.unescapeXml.
  destruct (flat_map _ s) eqn:F; [|reflexivity].
  reflexivity.
Qed.

(** ** The codec *)

Section CodecProperties.

Variable parseFromString : jsstring → list Node.

Lemma fold_left_snoc_map {A B} (f : A → B) (l : list A) (acc : list B) :
  fold_left (λ result x, result ++ [f x]) l acc = acc ++ map f l.
Proof.
  revert acc. induction l as [|a l IH]; intros acc; cbn [fold_left map].
  - by rewrite app_nil_r.
  - by rewrite IH, <- app_assoc.
Qed.





Lemma parseXMLResponse_rows xmlText :
  named "Fault" (parseFromString xmlText) = [] →
  Xmla.parseXMLResponse parseFromString xmlText
  = Ok (map rowData (named "row" (parseFromString xmlText))).
Proof.
  unfold Xmla.parseXMLResponse, querySelector, querySelectorAll, named.
  intros ->. cbn [head]. by rewrite fold_left_snoc_map.
Qed.


End CodecProperties.



(** ** The connection manager *)

(** Unfolds the monad of the asynchronous methods. *)
Ltac run :=
  cbv beta iota zeta delta
    [mbind mret Xmla.M_bind Xmla.M_ret Xmla.try_catch Xmla.this Xmla.update
     Xmla.new_Date Xmla.await Xmla.lift Xmla.throw fst snd].

Section ConnectionProperties.

Variable unicodeUpper : jsstring → jsstring.
Variable parseFromString : jsstring → list Node.
Variable World : Type.
Variable now : World → N.
Variable xmlaRequest : option (jsstring → jsstring → World → res IpcResult * World).
Variable fetch : jsstring → jsstring → World → res Response * World.

Let sendSOAPRequest := Xmla.sendSOAPRequest parseFromString World xmlaRequest fetch.
Let executeDMVQuery := Xmla.executeDMVQuery parseFromString World now xmlaRequest fetch.
Let getRelationships := Xmla.getRelationships parseFromString World now xmlaRequest fetch.
Let executeDAX := Xmla.executeDAX unicodeUpper parseFromString World now xmlaRequest fetch.

(** Sending a request does not touch the connection. *)
Lemma sendSOAPRequest_connection soapBody c w :
  ∃ out w', sendSOAPRequest soapBody (c, w) = (out, (c, w')).
Proof.
  unfold sendSOAPRequest, Xmla.sendSOAPRequest. run.
  destruct xmlaRequest as [request|].
  - destruct (request (xmlaEndpoint c) soapBody w) as [[result|e] w']; [|by eauto].
    destruct (success result); [|by eauto].
    destruct (Xmla.parseXMLResponse _ _); by eauto.
  - destruct (fetch (xmlaEndpoint c) soapBody w) as [[response|e] w']; [|by eauto].
    destruct (ok response); cbn [negb]; [|by eauto].
    destruct (text response); [|by eauto].
    destruct (Xmla.parseXMLResponse _ _); by eauto.
Qed.

(** The two ways [executeDMVQuery] can end. *)
Lemma executeDMVQuery_outcome query c w :
  ∃ w',
    (∃ rows, executeDMVQuery query (c, w)
             = (Ok rows, (set_lastSuccessfulQuery (now w') (set_connected true c), w')))
    ∨ (∃ e, executeDMVQuery query (c, w) = (Throw e, (c, w'))).
Proof.
  unfold executeDMVQuery, Xmla.executeDMVQuery. run.
  destruct (sendSOAPRequest_connection (buildExecuteRequest c query) c w)
    as (out & w' & E).
  unfold sendSOAPRequest in E. rewrite E. exists w'.
  destruct out; [left | right]; by eauto.
Qed.

(** What [sendSOAPRequest] returns, by the outcome of the transport and
    of the decoder. *)
Lemma sendSOAPRequest_shell soapBody c w request :
  xmlaRequest = Some request →
  sendSOAPRequest soapBody (c, w)
  = match request (xmlaEndpoint c) soapBody w with
    | (Throw e, w') => (Throw e, (c, w'))
    | (Ok reply, w') =>
        if success reply then (Xmla.parseXMLResponse parseFromString (data reply), (c, w'))
        else (Throw (lit "XMLA request failed"), (c, w'))
    end.
Proof.
  intros E. unfold sendSOAPRequest, Xmla.sendSOAPRequest. rewrite E. run.
  destruct (request (xmlaEndpoint c) soapBody w) as [[reply|e] w']; [|reflexivity].
  destruct (success reply); [|reflexivity].
  by destruct (Xmla.parseXMLResponse _ _).
Qed.

Lemma sendSOAPRequest_fetch soapBody c w :
  xmlaRequest = None →
  sendSOAPRequest soapBody (c, w)
  = match fetch (xmlaEndpoint c) soapBody w with
    | (Throw e, w') => (Throw e, (c, w'))
    | (Ok response, w') =>
        if ok response then
          match text response with
          | Ok xmlText => (Xmla.parseXMLResponse parseFromString xmlText, (c, w'))
          | Throw e => (Throw e, (c, w'))
          end
        else (Throw (lit "XMLA request failed: " ++ show (status response)
                     ++ lit " " ++ statusText response), (c, w'))
    end.
Proof.
  intros E. unfold sendSOAPRequest, Xmla.sendSOAPRequest. rewrite E. run.
  destruct (fetch (xmlaEndpoint c) soapBody w) as [[response|e] w']; [|reflexivity].
  destruct (ok response); cbn [negb]; [|reflexivity].
  destruct (text response); [|reflexivity].
  by destruct (Xmla.parseXMLResponse _ _).
Qed.

(** [executeDMVQuery] ends as its exchange does: it throws what the
    exchange throws and leaves the connection as it was, or returns the
    rows and marks the connection. *)
Lemma executeDMVQuery_exchange query c w :
  executeDMVQuery query (c, w)
  = match sendSOAPRequest (buildExecuteRequest c query) (c, w) with
    | (Throw e, (_, w')) => (Throw e, (c, w'))
    | (Ok rows, (_, w')) =>
        (Ok rows, (set_lastSuccessfulQuery (now w') (set_connected true c), w'))
    end.
Proof.
  unfold executeDMVQuery, Xmla.executeDMVQuery. run.
  destruct (sendSOAPRequest_connection (buildExecuteRequest c query) c w)
    as (out & w' & E).
  unfold sendSOAPRequest in E |- *. rewrite E. by destruct out.
Qed.

(** C9. [executeDMVQuery] ends as the exchange of its request does. When
    the transport throws, when the reply reports a failure, when the
    text of the response cannot be read and when the decoder throws, the
    call throws that error and the connection is exactly as it was
    before the call; when the decoder returns rows, the call returns
    them with [isConnected] set and the current time in
    [lastSuccessfulQuery]. So a call that throws never changes the two
    flags, and a call that returns has set both. *)
Theorem executeDMVQuery_marks_only_success (query : jsstring)
    (c : XMLAConnection) (w : World) :
  let soapRequest := buildExecuteRequest c query in
  let marked w' := set_lastSuccessfulQuery (now w') (set_connected true c) in
  let decoded xmlText w' :=
    match Xmla.parseXMLResponse parseFromString xmlText with
    | Throw e => (Throw e, (c, w'))
    | Ok rows => (Ok rows, (marked w', w'))
    end in
  (∀ request, xmlaRequest = Some request →
     executeDMVQuery query (c, w)
     = match request (xmlaEndpoint c) soapRequest w with
       | (Throw e, w') => (Throw e, (c, w'))
       | (Ok reply, w') =>
           if success reply then decoded (data reply) w'
           else (Throw (lit "XMLA request failed"), (c, w'))
       end)
  ∧ (xmlaRequest = None →
     executeDMVQuery query (c, w)
     = match fetch (xmlaEndpoint c) soapRequest w with
       | (Throw e, w') => (Throw e, (c, w'))
       | (Ok response, w') =>
           if ok response then
             match text response with
             | Ok xmlText => decoded xmlText w'
             | Throw e => (Throw e, (c, w'))
             end
           else (Throw (lit "XMLA request failed: " ++ show (status response)
                        ++ lit " " ++ statusText response), (c, w'))
       end)
  ∧ match sendSOAPRequest soapRequest (c, w) with
    | (Throw e, (_, w')) => executeDMVQuery query (c, w) = (Throw e, (c, w'))
    | (Ok rows, (_, w')) => executeDMVQuery query (c, w) = (Ok rows, (marked w', w'))
    end
  ∧ match executeDMVQuery query (c, w) with
    | (Throw _, (c', _)) =>
        isConnected c' = isConnected c
        ∧ lastSuccessfulQuery c' = lastSuccessfulQuery c
    | (Ok _, (c', w')) =>
        isConnected c' = true ∧ lastSuccessfulQuery c' = Some (now w')
    end.
Proof.
  intros soapRequest marked decoded. split; [|split; [|split]].
  - intros request E. rewrite executeDMVQuery_exchange.
    fold soapRequest. rewrite (sendSOAPRequest_shell _ _ _ _ E).
    destruct (request (xmlaEndpoint c) soapRequest w) as [[reply|e] w']; [|reflexivity].
    destruct (success reply); [|reflexivity].
    subst decoded. cbv beta. by destruct (Xmla.parseXMLResponse _ _).
  - intros E. rewrite executeDMVQuery_exchange.
    fold soapRequest. rewrite (sendSOAPRequest_fetch _ _ _ E).
    destruct (fetch (xmlaEndpoint c) soapRequest w) as [[response|e] w']; [|reflexivity].
    destruct (ok response); [|reflexivity].
    destruct (text response); [|reflexivity].
    subst decoded. cbv beta. by destruct (Xmla.parseXMLResponse _ _).
  - rewrite executeDMVQuery_exchange. fold soapRequest.
    by destruct (sendSOAPRequest soapRequest (c, w)) as [[rows|e] [c1 w']].
  - destruct (executeDMVQuery_outcome query c w) as (w' & [[rows E]|[e E]]);
      rewrite E; by split.
Qed.

(** C10, as amended. A fault-free document without row elements decodes
    to the empty sequence; [getRelationships] returns that same empty
    sequence when the server answers its probe with such a document and
    when the probe fails, so its caller gets one value in both cases.
    The connection tells the two apart: an answered probe leaves
    [isConnected] set and the current time in [lastSuccessfulQuery], a
    failed one leaves the connection as it was. *)
Theorem empty_reply_same_as_failed_probe :
  (∀ xmlText,
     named "Fault" (parseFromString xmlText) = [] →
     named "row" (parseFromString xmlText) = [] →
     Xmla.parseXMLResponse parseFromString xmlText = Ok [])
  ∧ (∀ c w request xmlText w',
       xmlaRequest = Some request →
       request (xmlaEndpoint c) (buildExecuteRequest c relationships_query) w
       = (Ok {| success := true; data := xmlText |}, w') →
       named "Fault" (parseFromString xmlText) = [] →
       named "row" (parseFromString xmlText) = [] →
       fst (getRelationships (c, w)) = Ok [])
  ∧ (∀ st, fst (executeDMVQuery relationships_query st) = Ok [] →
           fst (getRelationships st) = Ok [])
  ∧ (∀ st e, fst (executeDMVQuery relationships_query st) = Throw e →
             fst (getRelationships st) = Ok [])
  ∧ (∀ c w rows, fst (executeDMVQuery relationships_query (c, w)) = Ok rows →
       ∃ c' w', snd (getRelationships (c, w)) = (c', w')
                ∧ isConnected c' = true ∧ lastSuccessfulQuery c' = Some (now w'))
  ∧ (∀ c w e, fst (executeDMVQuery relationships_query (c, w)) = Throw e →
       fst (snd (getRelationships (c, w))) = c).
Proof.
  assert (Hempty : ∀ xmlText,
    named "Fault" (parseFromString xmlText) = [] →
    named "row" (parseFromString xmlText) = [] →
    Xmla.parseXMLResponse parseFromString xmlText = Ok []).
  { intros xmlText Hf Hr. by rewrite (parseXMLResponse_rows _ _ Hf), Hr. }
  split; [exact Hempty|]. split; [|split; [|split; [|split]]].
  - intros c w request xmlText w' Hx Hreq Hf Hr.
    unfold getRelationships, Xmla.getRelationships, Xmla.executeDMVQuery,
      Xmla.sendSOAPRequest.
    run. rewrite Hx, Hreq. cbn [success data]. by rewrite (Hempty _ Hf Hr).
  - intros st. unfold getRelationships, Xmla.getRelationships. run.
    fold executeDMVQuery. destruct (executeDMVQuery _ st) as [[rows|e] st']; cbn; congruence.
  - intros st e. unfold getRelationships, Xmla.getRelationships. run.
    fold executeDMVQuery. destruct (executeDMVQuery _ st) as [[rows|e'] st']; cbn; congruence.
  - intros c w rows. unfold getRelationships, Xmla.getRelationships. run.
    fold executeDMVQuery.
    destruct (executeDMVQuery_outcome relationships_query c w) as (w' & [[r E]|[e E]]);
      rewrite E; cbn [fst snd]; [|discriminate].
    intros _. by eexists _, _.
  - intros c w e. unfold getRelationships, Xmla.getRelationships. run.
    fold executeDMVQuery.
    destruct (executeDMVQuery_outcome relationships_query c w) as (w' & [[r E]|[e' E]]);
      rewrite E; cbn [fst snd]; [discriminate|done].
Qed.

(** C2. With a validator, [executeDAX] validates first. A rejected query
    makes it throw the joined errors with the world untouched: nothing is
    sent. An accepted query is sanitized (after the rewrite, if any),
    gets EVALUATE in front unless it has it, and is executed; the rows
    come back with the warnings of the validation followed by those of
    the result, and with their number. *)
Theorem executeDAX_pipeline (daxQuery : jsstring) (c : XMLAConnection) (w : World)
    (v : DAXValidator) :
  daxValidator c = Some v →
  let validation := fst (validate unicodeUpper v (JStr daxQuery)) in
  let v' := snd (validate unicodeUpper v (JStr daxQuery)) in
  let c1 := set_daxValidator v' c in
  if isValid validation then
    ∃ sanitized,
      sanitize (if modified validation then modifiedQuery validation else JStr daxQuery)
      = Ok sanitized
      ∧ let finalQuery :=
          if test_fresh re_evaluate sanitized then sanitized
          else lit "EVALUATE " ++ sanitized in
        match executeDMVQuery finalQuery (c1, w) with
        | (Ok results, st) =>
            executeDAX daxQuery (c, w)
            = (Ok {| dr_data := results;
                     dr_warnings :=
                       Validator.warnings validation
                       ++ rv_warnings (validateResults v' (Some results));
                     dr_rowCount := length results |}, st)
        | (Throw e, st) => executeDAX daxQuery (c, w) = (Throw e, st)
        end
  else
    executeDAX daxQuery (c, w)
    = (Throw (lit "Query validation failed: " ++ join (lit ", ") (errors validation)),
       (c1, w)).
Proof.
  intros Hv validation v' c1.
  unfold executeDAX, Xmla.executeDAX. run. rewrite Hv.
  subst validation v' c1.
  destruct (validate_text unicodeUpper v daxQuery) as [s Hs].
  destruct (validate unicodeUpper v (JStr daxQuery)) as [validation v'].
  cbv beta iota delta [fst snd] in Hs |- *.
  destruct (isValid validation); cbn [negb]; [|reflexivity].
  assert (∃ sanitized,
    sanitize (if modified validation then modifiedQuery validation else JStr daxQuery)
    = Ok sanitized) as [sanitized E].
  { destruct (modified validation); [rewrite Hs|]; rewrite sanitize_plain; eauto. }
  exists sanitized. split; [exact E|]. rewrite E. cbv zeta.
  fold executeDMVQuery.
  set (finalQuery := if test_fresh re_evaluate sanitized then _ else _).
  replace (if negb (test_fresh re_evaluate sanitized)
           then lit "EVALUATE " ++ sanitized else sanitized) with finalQuery
    by (subst finalQuery; by destruct (test_fresh _ _)).
  destruct (executeDMVQuery_outcome finalQuery (set_daxValidator v' c) w)
    as (w' & [[rows Er]|[e Er]]); fold executeDMVQuery in Er; rewrite Er; reflexivity.
Qed.

End ConnectionProperties.

Lemma executeDAX_pipeline_witness :
  ∃ rows st,
    Demo.executeDAX (lit "'Sales'") (Demo.connection, 5%nat)
    = (Ok {| dr_data := rows;
             dr_warnings :=
               [lit "Query does not have a row limit. Consider adding TOPN(1000, ...) to limit results.";
                lit "Automatically limited to 10000 rows for safety."];
             dr_rowCount := 2 |}, st).
Proof.
  pose proof (executeDAX_pipeline Demo.upper Demo.parseFromString Demo.World Demo.now
                Demo.transport Demo.fetch (lit "'Sales'") Demo.connection 5%nat
                Demo.validator eq_refl) as H.
  cbv zeta in H.
  assert (E : isValid (fst (validate Demo.upper Demo.validator (JStr (lit "'Sales'"))))
              = true) by (by vm_compute).
  rewrite E in H. destruct H as (sanitized & Hs & H).
  assert (sanitized = lit "TOPN(10000, 'Sales')") as ->.
  { vm_compute in Hs. vm_compute. congruence. }
  vm_compute in H. eexists _, _. exact H.
Defined.

Lemma empty_reply_same_as_failed_probe_witness :
  Xmla.parseXMLResponse Demo.parseFromString (lit "empty") = Ok []
  ∧ fst (Demo.getRelationships (Demo.empty_connection, 0%nat)) = Ok []
  ∧ fst (Demo.getRelationships (Demo.empty_connection, 1%nat)) = Ok []
  ∧ fst (Demo.getRelationships (Demo.broken_connection, 0%nat)) = Ok [].
Proof.
  destruct (empty_reply_same_as_failed_probe Demo.upper Demo.parseFromString Demo.World
              Demo.now Demo.transport Demo.fetch) as (H1 & H2 & H3 & H4 & _).
  split; [apply H1; by vm_compute|].
  split; [eapply (H2 _ _ _ (lit "empty")); [reflexivity | by vm_compute ..]|].
  split; [apply H3; by vm_compute|].
  apply (H4 _ (lit "SOAP Fault: The query failed")). by vm_compute.
Defined.

(** C10 as stated fails: the same connection, asked its status after
    the relationships probe, says whether the server answered with no
    rows or the probe failed. *)
Lemma empty_reply_differs_in_status :
  fst (Demo.executeDMVQuery relationships_query (Demo.empty_connection, 0%nat)) = Ok []
  ∧ fst (Offline.executeDMVQuery relationships_query (Demo.empty_connection, 0%nat))
    = Throw (lit "connect ECONNREFUSED")
  ∧ fst (Demo.getRelationships (Demo.empty_connection, 0%nat)) = Ok []
  ∧ fst (Offline.getRelationships (Demo.empty_connection, 0%nat)) = Ok []
  ∧ cs_isConnected
      (getConnectionStatus (fst (snd (Demo.getRelationships (Demo.empty_connection, 0%nat)))))
    = true
  ∧ cs_isConnected
      (getConnectionStatus
         (fst (snd (Offline.getRelationships (Demo.empty_connection, 0%nat)))))
    = false
  ∧ getConnectionStatus (fst (snd (Demo.getRelationships (Demo.empty_connection, 0%nat))))
    ≠ getConnectionStatus
        (fst (snd (Offline.getRelationships (Demo.empty_connection, 0%nat)))).
Proof. repeat split; by vm_compute. Qed.

Lemma executeDMVQuery_marks_only_success_witness :
  Demo.executeDMVQuery (lit "SELECT 1") (Demo.broken_connection, 0%nat)
  = (Throw (lit "SOAP Fault: The query failed"), (Demo.broken_connection, 1%nat))
  ∧ Demo.executeDMVQuery (lit "SELECT 1") (Demo.empty_connection, 0%nat)
    = (Ok [], (set_lastSuccessfulQuery 1 (set_connected true Demo.empty_connection),
               1%nat)).
Proof.
  destruct (executeDMVQuery_marks_only_success Demo.upper Demo.parseFromString Demo.World
              Demo.now Demo.transport Demo.fetch (lit "SELECT 1") Demo.broken_connection
              0%nat) as [H _].
  destruct (executeDMVQuery_marks_only_success Demo.upper Demo.parseFromString Demo.World
              Demo.now Demo.transport Demo.fetch (lit "SELECT 1") Demo.empty_connection
              0%nat) as [H' _].
  split.
  - refine (eq_trans (H _ eq_refl) _). by vm_compute.
  - refine (eq_trans (H' _ eq_refl) _). by vm_compute.
Defined.

(** ** The metadata synthesizer *)






Lemma or_text_None d : or_text None d = lit d.
Proof. reflexivity. Qed.

Section SynthesizerProperties.

Variable functionText : jsstring → jsstring.
Variable pushError : jsstring.

Section Relationships.

Variables tablesResult columnsResult : list Row.





End Relationships.

(** *** The grouping of the columns *)

Variable ids : gmap jsstring jsstring.

Let group := group_column functionText pushError ids.

Lemma group_thrown (columnsResult : list Row) e :
  fold_left group columnsResult (Throw e) = Throw e.
Proof. induction columnsResult as [|col cols IH]; [done|]. exact IH. Qed.

Lemma columns_of_cons col cols name :
  columns_of functionText ids (col :: cols) name
  = (if truthy_value (Obj.read ids (key (prop col "TableID")))
        && truthy_text (columnName_of col)
        && bool_decide (text_of functionText (Obj.read ids (key (prop col "TableID")))
                        = name)
     then [{| col_name := key (columnName_of col) |}] else [])
    ++ columns_of functionText ids cols name.
Proof.
  unfold columns_of. cbn [omap list_omap]. by destruct (_ && bool_decide _).
Qed.

(** The loop either goes through, and then every array holds the columns
    of its table in catalog order and stands under a name that is not
    inherited, or it throws at the first column of a table with an
    inherited name. *)
Lemma grouping (columnsResult : list Row) (m : gmap jsstring (list Column)) :
  (∀ k, is_Some (m !! k) → Obj.inherited k = false) →
  match fold_left group columnsResult (Ok m) with
  | Ok m' =>
      groupable functionText ids columnsResult = true
      ∧ (∀ k, is_Some (m' !! k) → Obj.inherited k = false)
      ∧ ∀ name,
          m' !! name
          = match columns_of functionText ids columnsResult name with
            | [] => m !! name
            | cols => Some (default [] (m !! name) ++ cols)
            end
  | Throw e => groupable functionText ids columnsResult = false ∧ e = pushError
  end.
Proof.
  revert m. induction columnsResult as [|col cols IH]; intros m Hm.
  { cbn. by repeat split. }
  cbn [fold_left groupable forallb]. unfold group at 2, group_column.
  set (tableName := Obj.read ids (key (prop col "TableID"))).
  set (k := text_of functionText tableName).
  assert (Hcons := λ name, columns_of_cons col cols name).
  fold tableName in Hcons. fold k in Hcons.
  destruct (truthy_value tableName && truthy_text (columnName_of col)) eqn:Hcond;
    cbn [andb negb] in *; cycle 1.
  { specialize (IH m Hm). fold group.
    destruct (fold_left group cols (Ok m)) as [m'|e]; [|exact IH].
    destruct IH as (Hg & Hk & Hl). repeat split; try done.
    intros name. by rewrite Hl, Hcons. }
  assert (Hstep : ∀ old : list Column,
            default [] (m !! k) = old →
            (m !! k = None → Obj.inherited k = false) →
            match fold_left group cols
                    (Ok (<[k := old ++ [{| col_name := key (columnName_of col) |}]]> m))
            with
            | Ok m' =>
                negb (Obj.inherited k) && groupable functionText ids cols = true
                ∧ (∀ k0, is_Some (m' !! k0) → Obj.inherited k0 = false)
                ∧ ∀ name,
                    m' !! name
                    = match columns_of functionText ids (col :: cols) name with
                      | [] => m !! name
                      | cs => Some (default [] (m !! name) ++ cs)
                      end
            | Throw e =>
                negb (Obj.inherited k) && groupable functionText ids cols = false
                ∧ e = pushError
            end).
  { intros old Hold Hfresh.
    assert (Hk : Obj.inherited k = false).
    { destruct (m !! k) eqn:E; [apply Hm; by rewrite E | by apply Hfresh]. }
    rewrite Hk. cbn [negb andb].
    match goal with
    | |- context [fold_left group cols (Ok ?m1)] => specialize (IH m1)
    end.
    assert (Hm1 : ∀ k0, is_Some
                    ((<[k := old ++ [{| col_name := key (columnName_of col) |}]]> m) !! k0)
                  → Obj.inherited k0 = false).
    { intros k0. destruct (decide (k0 = k)) as [->|Hne]; [done|].
      rewrite lookup_insert_ne by done. apply Hm. }
    specialize (IH Hm1).
    destruct (fold_left group cols _) as [m'|e]; [|exact IH].
    destruct IH as (Hg & Hk' & Hl). repeat split; try done.
    intros name. rewrite Hl, Hcons.
    destruct (decide (k = name)) as [<-|Hne].
    - rewrite bool_decide_eq_true_2 by done. rewrite lookup_insert_eq, Hold.
      cbn [default app]. unfold id.
      destruct (columns_of _ _ _ _) as [|c cs]; [reflexivity|].
      by rewrite <- app_assoc.
    - rewrite bool_decide_eq_false_2 by done. by rewrite lookup_insert_ne. }
  unfold Obj.read. fold group.
  destruct (m !! k) as [cols0|] eqn:E.
  - apply (Hstep cols0); [by rewrite ?E | by rewrite ?E].
  - destruct (Obj.inherited k) eqn:Hk.
    + rewrite group_thrown. by split.
    + apply (Hstep []); by rewrite ?E.
Qed.

Lemma columnsByTable_outcome (columnsResult : list Row) :
  match columnsByTable functionText pushError ids columnsResult with
  | Ok grouped =>
      groupable functionText ids columnsResult = true
      ∧ (∀ k, is_Some (grouped !! k) → Obj.inherited k = false)
      ∧ ∀ name,
          grouped !! name
          = match columns_of functionText ids columnsResult name with
            | [] => None
            | cols => Some cols
            end
  | Throw e => groupable functionText ids columnsResult = false ∧ e = pushError
  end.
Proof.
  unfold columnsByTable. fold group.
  assert (H0 : ∀ k, is_Some ((∅ : gmap jsstring (list Column)) !! k)
                    → Obj.inherited k = false).
  { intros k [x Hx]. by rewrite lookup_empty in Hx. }
  pose proof (grouping columnsResult ∅ H0) as H.
  destruct (fold_left group columnsResult (Ok ∅)) as [grouped|e]; [|exact H].
  destruct H as (Hg & Hk & Hl). split; [exact Hg|]. split; [exact Hk|].
  intros name. rewrite Hl, lookup_empty. by destruct (columns_of _ _ _ _).
Qed.

Lemma columnsByTable_groupable (columnsResult : list Row) :
  if groupable functionText ids columnsResult
  then ∃ grouped, columnsByTable functionText pushError ids columnsResult = Ok grouped
  else columnsByTable functionText pushError ids columnsResult = Throw pushError.
Proof.
  pose proof (columnsByTable_outcome columnsResult) as H.
  destruct (columnsByTable _ _ _ _) as [grouped|e].
  - destruct H as [-> _]. by eauto.
  - destruct H as [-> ->]. reflexivity.
Qed.

End SynthesizerProperties.

#[local] Existing Instances Xmla.M_ret Xmla.M_bind.

Section SnapshotProperties.

Variable unicodeUpper : jsstring → jsstring.
Variable parseFromString : jsstring → list Node.
Variable World : Type.
Variable now : World → N.
Variable xmlaRequest : option (jsstring → jsstring → World → res IpcResult * World).
Variable fetch : jsstring → jsstring → World → res Response * World.
Variable functionText : jsstring → jsstring.
Variable pushError : jsstring.

Let fetch_catalog := Xmla.fetch_catalog parseFromString World now xmlaRequest fetch.
Let getSemanticModelMetadata :=
  Xmla.getSemanticModelMetadata unicodeUpper parseFromString World now xmlaRequest fetch
    functionText pushError.

(** A probe with its own [catch] always answers. *)
Lemma guarded_total {A B} (m : M World A) (h : jsstring → B → A) (b : B) st :
  ∃ a st', try_catch World m (λ e, mret (h e b)) st = (Ok a, st').
Proof. run. destruct (m st) as [[a|e] st']; eauto. Qed.

Lemma for_each_total {A B} (f : A → M World B) (l : list A) :
  (∀ a st, ∃ b st', f a st = (Ok b, st')) →
  ∀ st, ∃ bs st', for_each World f l st = (Ok bs, st').
Proof.
  intros Hf. induction l as [|a l IH]; intros st; cbn [for_each]; run; [eauto|].
  destruct (Hf a st) as (b & st1 & ->). destruct (IH st1) as (bs & st2 & ->). eauto.
Qed.

Lemma for_each_map {A B C} (f : A → M World B) (p : B → C) (q : A → C) (l : list A) :
  (∀ a st b st', f a st = (Ok b, st') → p b = q a) →
  ∀ st bs st', for_each World f l st = (Ok bs, st') → map p bs = map q l.
Proof.
  intros Hf. induction l as [|a l IH]; intros st bs st'; cbn [for_each]; run.
  - by intros [= <- _].
  - destruct (f a st) as [[b|e] st1] eqn:E1; [|discriminate].
    destruct (for_each World f l st1) as [[bs'|e] st2] eqn:E2; [|discriminate].
    intros [= <- _]. cbn [map]. f_equal; [by eapply Hf | by eapply IH].
Qed.

Lemma fetch_catalog_total st :
  ∃ catalog st', fetch_catalog st = (Ok catalog, st').
Proof.
  unfold fetch_catalog, Xmla.fetch_catalog.
  unfold mbind at 1, Xmla.M_bind at 1.
  destruct (guarded_total (getTables parseFromString World now xmlaRequest fetch)
              (λ _ _, []) tt st) as (T & st1 & ->).
  unfold mbind at 1, Xmla.M_bind at 1.
  destruct (guarded_total (getColumns parseFromString World now xmlaRequest fetch)
              (λ _ _, []) tt st1) as (C & st2 & ->).
  unfold mbind at 1, Xmla.M_bind at 1.
  destruct (guarded_total (getMeasures parseFromString World now xmlaRequest fetch)
              (λ _ _, []) tt st2) as (Ms & st3 & ->).
  unfold mbind at 1, Xmla.M_bind at 1.
  destruct (guarded_total (getRelationships parseFromString World now xmlaRequest fetch)
              (λ _ _, []) tt st3) as (R & st4 & ->).
  run. eauto.
Qed.

(** [getSemanticModelMetadata] fetches the catalog and groups the
    columns. When the grouping throws, it throws that error after the
    four probes. Otherwise it returns the snapshot built from the
    catalog, with one answer per table it asks for samples, folded into
    [sampleData]; nothing is asked when the option is off or there is no
    table. *)
Lemma snapshot_shape options st :
  ∃ T C Ms R st1,
    fetch_catalog st = (Ok (T, C, Ms, R), st1)
    ∧ match columnsByTable functionText pushError (tableIdToName T) C with
      | Throw e => getSemanticModelMetadata options st = (Throw e, st1)
      | Ok grouped =>
          ∃ sampleResults st',
            map fst sampleResults
            = map tbl_name
                (if negb (bool_decide (fetchSampleData options = Some false))
                    && (0 <? length (build_tables grouped T))%nat
                 then tablesToSample (build_tables grouped T) else [])
            ∧ (fetchSampleData options = Some false ∨ T = [] → st' = st1)
            ∧ getSemanticModelMetadata options st
              = (Ok {| tables := build_tables grouped T;
                       measures := build_measures (tableIdToName T) Ms;
                       relationships :=
                         build_relationships functionText (tableIdToName T)
                           (columnIdToName C) R;
                       sampleData := collect_samples sampleResults;
                       summary :=
                         {| tableCount := length (build_tables grouped T);
                            measureCount := length (build_measures (tableIdToName T) Ms);
                            relationshipCount :=
                              length (build_relationships functionText (tableIdToName T)
                                        (columnIdToName C) R);
                            totalColumns := length C;
                            tablesWithSampleData :=
                              size (sd_entries (collect_samples sampleResults)) |} |},
                 st')
      end.
Proof.
  destruct (fetch_catalog_total st) as ([[[T C] Ms] R] & st1 & E).
  exists T, C, Ms, R, st1. split; [exact E|].
  destruct (columnsByTable functionText pushError (tableIdToName T) C)
    as [grouped|e] eqn:Eg.
  2:{ unfold getSemanticModelMetadata, Xmla.getSemanticModelMetadata.
      unfold Xmla.try_catch at 1. unfold mbind at 1, Xmla.M_bind at 1.
      fold fetch_catalog. rewrite E.
      unfold mbind at 1, Xmla.M_bind at 1. unfold Xmla.lift at 1.
      by rewrite Eg. }
  unfold getSemanticModelMetadata, Xmla.getSemanticModelMetadata.
  unfold Xmla.try_catch at 1. unfold mbind at 1, Xmla.M_bind at 1.
  fold fetch_catalog. rewrite E.
  unfold mbind at 1, Xmla.M_bind at 1. unfold Xmla.lift at 1. rewrite Eg.
  unfold mbind at 1, Xmla.M_bind at 1.
  fold (tablesToSample (build_tables grouped T)).
  set (tables := build_tables grouped T).
  destruct (negb (bool_decide (fetchSampleData options = Some false))
            && (0 <? length tables)%nat) eqn:Hb.
  - unfold mbind at 1, Xmla.M_bind at 1.
    match goal with
    | |- context [for_each World ?f ?l st1] =>
        destruct (for_each_total f l) with (st := st1) as (bs & st2 & Ebs);
          [|pose proof (for_each_map f fst tbl_name l) as Hmap]
    end.
    { intros table st0. apply (guarded_total _ (λ _ t, (tbl_name t, [])) table). }
    exists bs, st2. split; [|split].
    + eapply Hmap; [|exact Ebs]. clear. intros a st b st'. run.
      destruct (getSampleData _ _ _ _ _ _ _ _ _) as [[rows|e] st1]; by intros [= <- _].
    + apply andb_prop in Hb as [Hf Ht]. intros [Hoff| ->].
      * by rewrite Hoff in Hf.
      * discriminate.
    + rewrite Ebs. run. reflexivity.
  - exists [], st1. split; [reflexivity|]. split; [done|]. run. reflexivity.
Qed.

(** The same, by whether the columns can be grouped. *)
Lemma snapshot_or_error options st :
  ∃ T C Ms R st1,
    fetch_catalog st = (Ok (T, C, Ms, R), st1)
    ∧ if groupable functionText (tableIdToName T) C then
        ∃ grouped sampleResults st',
          columnsByTable functionText pushError (tableIdToName T) C = Ok grouped
          ∧ getSemanticModelMetadata options st
            = (Ok {| tables := build_tables grouped T;
                     measures := build_measures (tableIdToName T) Ms;
                     relationships :=
                       build_relationships functionText (tableIdToName T)
                         (columnIdToName C) R;
                     sampleData := collect_samples sampleResults;
                     summary :=
                       {| tableCount := length (build_tables grouped T);
                          measureCount := length (build_measures (tableIdToName T) Ms);
                          relationshipCount :=
                            length (build_relationships functionText (tableIdToName T)
                                      (columnIdToName C) R);
                          totalColumns := length C;
                          tablesWithSampleData :=
                            size (sd_entries (collect_samples sampleResults)) |} |},
               st')
      else getSemanticModelMetadata options st = (Throw pushError, st1).
Proof.
  destruct (snapshot_shape options st) as (T & C & Ms & R & st1 & E & H).
  exists T, C, Ms, R, st1. split; [exact E|].
  pose proof (columnsByTable_groupable functionText pushError (tableIdToName T) C) as Hg.
  destruct (groupable functionText (tableIdToName T) C).
  - destruct Hg as [grouped Hg]. rewrite Hg in H.
    destruct H as (bs & st' & _ & _ & H). by eauto.
  - by rewrite Hg in H.
Qed.


(** C7, as amended. When [getSemanticModelMetadata] returns, the table,
    measure and relationship counts and the count of tables with samples
    are the sizes of the structures of the snapshot; the column count is
    the number of rows the column probe returned. *)
Theorem summary_counts :
  ∀ options st,
    ∃ T C Ms R st1,
      fetch_catalog st = (Ok (T, C, Ms, R), st1)
      ∧ if groupable functionText (tableIdToName T) C then
          ∃ snapshot st',
            getSemanticModelMetadata options st = (Ok snapshot, st')
            ∧ tableCount (summary snapshot) = length (tables snapshot)
            ∧ measureCount (summary snapshot) = length (measures snapshot)
            ∧ relationshipCount (summary snapshot) = length (relationships snapshot)
            ∧ tablesWithSampleData (summary snapshot)
              = size (sd_entries (sampleData snapshot))
            ∧ totalColumns (summary snapshot) = length C
        else getSemanticModelMetadata options st = (Throw pushError, st1).
Proof.
  intros options st.
  destruct (snapshot_or_error options st) as (T & C & Ms & R & st1 & E1 & H).
  exists T, C, Ms, R, st1. split; [exact E1|].
  destruct (groupable functionText (tableIdToName T) C); [|exact H].
  destruct H as (grouped & bs & st' & _ & E2).
  eexists _, st'. split; [exact E2|]. repeat split.
Qed.

End SnapshotProperties.

(** C7 as stated fails: a column row whose table does not resolve is in no
    table descriptor, yet it is counted. *)
Lemma total_columns_counts_raw_rows :
  match Demo.getSemanticModelMetadata {| fetchSampleData := None; maxSampleRows := None |}
          (Demo.connection, 0%nat) with
  | (Ok snapshot, _) =>
      totalColumns (summary snapshot) = 2%nat
      ∧ columns_in_tables snapshot = 1%nat
      ∧ tableCount (summary snapshot) = 1%nat
      ∧ tablesWithSampleData (summary snapshot) = 1%nat
  | (Throw _, _) => False
  end.
Proof. by vm_compute. Qed.



(** * Further properties *)

(** ** The validator on input it turns away *)

Lemma drop_ws_all s : forallb is_ws s = true → drop_ws s = [].
Proof.
  induction s as [|c s IH]; [done|]. cbn [forallb drop_ws].
  intros [Hc Hs]%andb_prop. rewrite Hc. by apply IH.
Qed.

Lemma trim_blank s : forallb is_ws s = true → trim s = [].
Proof. intros H. unfold trim. by rewrite (drop_ws_all s H). Qed.

(** X1. A value that is not a string, the empty string and a string of
    white space only are rejected with a single error and no warning, and
    the blocked patterns are not even tested: the validator is returned
    as it was. *)
Theorem validate_turns_away_blank (unicodeUpper : jsstring → jsstring)
    (v : DAXValidator) (x : JsValue) :
  (∀ q, x = JStr q → forallb is_ws q = true) →
  validate unicodeUpper v x
  = (rejection x (match x with
                  | JStr (_ :: _) => lit "Query cannot be empty"
                  | _ => lit "Query is empty or invalid"
                  end), v).
Proof.
  intros H. destruct x as [| |b|z|[|c q]|]; try reflexivity.
  unfold validate. by rewrite (trim_blank _ (H _ eq_refl)).
Qed.

Lemma validate_turns_away_blank_witness :
  validate Demo.upper Demo.validator (JStr (lit "   "))
  = (rejection (JStr (lit "   ")) (lit "Query cannot be empty"), Demo.validator).
Proof.
  apply (validate_turns_away_blank Demo.upper Demo.validator (JStr (lit "   "))).
  intros q [= <-]. reflexivity.
Defined.

(** ** Keywords at the start of a text *)

Lemma is_ws_upper c : is_ws c = true → ascii_upper c = c.
Proof.
  unfold is_ws, ascii_upper. intros H.
  destruct (N.leb_spec 97 c); [|done]. destruct (N.leb_spec c 122); [|done].
  exfalso. cbn [andb] in H.
  repeat match type of H with
         | context [?a <=? ?b] => destruct (N.leb_spec a b); try lia
         | context [?a =? ?b] => destruct (N.eqb_spec a b); try lia
         end; cbn in H; done.
Qed.

Lemma upper_not_ws s k :
  map ascii_upper s = k → forallb (λ c, negb (is_ws c)) k = true →
  Forall (λ c, is_ws c = false) s.
Proof.
  intros <- H. induction s as [|c s IH]; [done|].
  cbn [map forallb] in H. apply andb_prop in H as [Hc Hs].
  constructor; [|by apply IH].
  destruct (is_ws c) eqn:E; [|done]. by rewrite (is_ws_upper c E), E in Hc.
Qed.

Lemma drop_ws_app (a b : jsstring) c :
  head b = Some c → is_ws c = false → drop_ws (a ++ b) = drop_ws a ++ b.
Proof.
  intros Hb Hc. induction a as [|x a IH]; cbn [app drop_ws].
  - destruct b as [|y b]; [done|]. injection Hb as ->. cbn [drop_ws]. by rewrite Hc.
  - by destruct (is_ws x).
Qed.

(** Trimming a text that is led by [s], of which no code unit is white
    space, keeps [s] in front. *)
Lemma trim_led (pad s rest : jsstring) :
  forallb is_ws pad = true → s ≠ [] → Forall (λ c, is_ws c = false) s →
  trim (pad ++ s ++ rest) = s ++ reverse (drop_ws (reverse rest)).
Proof.
  intros Hp Hs Hall. unfold trim.
  destruct s as [|c s]; [done|]. clear Hs.
  rewrite (drop_ws_app pad ((c :: s) ++ rest) c eq_refl) by by inversion Hall.
  rewrite (drop_ws_all pad Hp). cbn [app].
  change (c :: s ++ rest) with ((c :: s) ++ rest).
  rewrite reverse_app.
  destruct (last (c :: s)) as [l|] eqn:L; [|by apply last_None in L].
  rewrite (drop_ws_app (reverse rest) (reverse (c :: s)) l).
  - by rewrite reverse_app, reverse_involutive.
  - by rewrite head_reverse.
  - apply last_Some_elem_of in L. rewrite Forall_forall in Hall. by apply Hall.
Qed.

Lemma match_text_i (p s t : jsstring) prev :
  map ascii_upper s = map ascii_upper p →
  match_here (text_i p) prev (s ++ t) = Some (length p).
Proof.
  revert s prev. induction p as [|a p IH]; intros [|c s] prev E; try done.
  injection E as Ec Es. cbn [text_i map app match_here]. fold (text_i p).
  unfold ci at 1. rewrite Ec, N.eqb_refl. by rewrite (IH s (Some c) Es).
Qed.

(** The two anchored expressions of [validate] hit a text led by their
    keyword. *)
Lemma anchored_hit (keyword s t : jsstring) c :
  head s = Some c → is_ws c = false →
  map ascii_upper s = map ascii_upper keyword →
  test_fresh ([Bol; Chr is_ws Star] ++ text_i keyword) (s ++ t) = true.
Proof.
  intros Hh Hc E. unfold test_fresh.
  destruct s as [|x s]; [done|]. injection Hh as ->.
  cbn [app search match_here star]. rewrite Hc.
  change (c :: s ++ t) with ((c :: s) ++ t). by rewrite (match_text_i _ _ _ _ E).
Qed.

Lemma led_by_trim keyword q :
  keyword ≠ EmptyString → forallb (λ c, negb (is_ws c)) (lit keyword) = true →
  map ascii_upper (lit keyword) = lit keyword →
  led_by keyword q →
  ∃ s t, trim q = s ++ t ∧ s ≠ [] ∧ Forall (λ c, is_ws c = false) s
         ∧ test_fresh ([Bol; Chr is_ws Star] ++ text_i (lit keyword)) (trim q) = true.
Proof.
  intros Hk Hn Hu (pad & s & rest & -> & Hp & Hs).
  assert (Hall := upper_not_ws s _ Hs Hn).
  assert (Hne : s ≠ []).
  { intros ->. destruct keyword; [done|discriminate]. }
  exists s, (reverse (drop_ws (reverse rest))).
  rewrite (trim_led pad s rest Hp Hne Hall). repeat split; try done.
  destruct s as [|c s]; [done|].
  apply (anchored_hit _ _ _ c); [done | by inversion Hall | by rewrite Hs, Hu].
Qed.

Lemma led_by_select q :
  led_by "SELECT" q → trim q ≠ [] ∧ test_fresh re_select (trim q) = true.
Proof.
  intros H. destruct (led_by_trim "SELECT" q) as (s & t & E & Hs & _ & Hit); try done.
  split; [|exact Hit]. rewrite E. by destruct s.
Qed.

Lemma led_by_evaluate q :
  led_by "EVALUATE" q → trim q ≠ [] ∧ test_fresh re_evaluate (trim q) = true.
Proof.
  intros H. destruct (led_by_trim "EVALUATE" q) as (s & t & E & Hs & _ & Hit); try done.
  split; [|exact Hit]. rewrite E. by destruct s.
Qed.

(** ** What [validate] rewrites and what it leaves *)

Section ValidatorMore.

Variable unicodeUpper : jsstring → jsstring.

Let unmodified (r : ValidationResult) : Prop := modified r = false.

Lemma modified_inversion (v : DAXValidator) (x : JsValue) :
  let r := fst (validate unicodeUpper v x) in
  modified r = true →
  ∃ q, x = JStr q ∧ unlimited unicodeUpper q ∧ isValid r = true
       ∧ modifiedQuery r = JStr (wrapped v q).
Proof.
  intros r. subst r. unfold validate.
  destruct x as [| |b|z|[|c q]|]; try discriminate.
  destruct (length (trim (c :: q)) =? 0)%nat; [discriminate|].
  pose proof (keeps_check_blocked unmodified (λ _ _ H, H) (trim (c :: q))
                (blockedPatterns v)
                ({| isValid := true; warnings := []; errors := []; modified := false;
                    modifiedQuery := JStr (c :: q) |}, []) eq_refl) as H1.
  destruct (fold_left (check_blocked _) _ _) as [r1 ps]. cbn [fst] in H1 |- *.
  set (r2 := fold_left (check_nested _) _ r1).
  assert (H2 : unmodified r2) by (apply keeps_check_nested; [by intros|done]).
  set (topn := test_fresh re_topn _ || test_fresh re_top _).
  set (ev := test_fresh re_evaluate _).
  set (r3 := if negb topn && negb ev then _ else r2).
  assert (H3 : unmodified r3) by (subst r3; by destruct (_ && _)).
  set (r4 := if test_fresh re_select _ then _ else r3).
  assert (H4 : unmodified r4) by (subst r4; by destruct (test_fresh re_select _)).
  set (r5 := fold_left (check_keyword _ _) _ r4).
  assert (H5 : unmodified r5) by (apply keeps_check_keyword; [by intros|done]).
  match goal with |- context [if ?b then warn _ _ else r5] => destruct b eqn:E end;
    [intros _|intros M; unfold unmodified in H5; congruence].
  apply andb_prop in E as [E Hsys]. apply andb_prop in E as [E Hvalid].
  apply andb_prop in E as [Htopn Hev].
  apply negb_true_iff in Htopn, Hev, Hsys. subst topn ev.
  apply orb_false_elim in Htopn as [Ht1 Ht2].
  exists (c :: q). repeat split; done.
Qed.

Lemma evaluate_unmodified (v : DAXValidator) (q : jsstring) :
  led_by "EVALUATE" q →
  let r := fst (validate unicodeUpper v (JStr q)) in
  modified r = false ∧ modifiedQuery r = JStr q.
Proof.
  intros [Hne Hev]%led_by_evaluate r.
  assert (M : modified r = false).
  { destruct (modified r) eqn:M; [|done].
    destruct (modified_inversion v (JStr q) M)
      as (q' & [= <-] & (_ & _ & H & _) & _). congruence. }
  split; [exact M|].
  destruct (coherent_validate unicodeUpper v (JStr q)) as [_ H]. by apply H.
Qed.

(** X2. The result is modified only for a string without row limit,
    evaluate marker and [$SYSTEM] marker that is valid, and then by the
    wrapping alone: a query with EVALUATE, with TOPN or TOP n, a probe of
    the system catalog and a rejected query are never rewritten. *)
Theorem validate_modifies_only_unlimited (v : DAXValidator) (x : JsValue) :
  let r := fst (validate unicodeUpper v x) in
  modified r = true →
  ∃ q, x = JStr q ∧ unlimited unicodeUpper q ∧ isValid r = true
       ∧ modifiedQuery r = JStr (wrapped v q).
Proof. exact (modified_inversion v x). Qed.

(** X3. A text that starts with SELECT, in any case and after any white
    space, is rejected with the error that names EVALUATE, and is left
    as it is. *)
Theorem validate_rejects_select (v : DAXValidator) (q : jsstring) :
  led_by "SELECT" q →
  let r := fst (validate unicodeUpper v (JStr q)) in
  isValid r = false ∧ select_message ∈ errors r
  ∧ modified r = false ∧ modifiedQuery r = JStr q.
Proof.
  intros [Hne Hsel]%led_by_select r.
  assert (Hv : isValid r = false ∧ select_message ∈ errors r).
  { subst r. unfold validate. destruct q as [|c q]; [done|].
    destruct (length (trim (c :: q)) =? 0)%nat eqn:L.
    { apply Nat.eqb_eq in L. by destruct (trim (c :: q)). }
    destruct (fold_left (check_blocked _) _ _) as [r1 ps]. cbn [fst]. rewrite Hsel.
    set (r4 := fail_with _ _).
    set (P := λ r : ValidationResult, isValid r = false ∧ select_message ∈ errors r).
    assert (H5 : P (fold_left (check_keyword unicodeUpper (trim (c :: q))) sqlKeywords r4)).
    { apply keeps_check_keyword; [by intros w r0 [? ?]|].
      split; [done|]. cbn [r4 errors fail_with]. apply elem_of_app. right.
      apply list_elem_of_singleton. reflexivity. }
    destruct H5 as [H5 H6]. rewrite H5, !andb_false_r. cbn [andb]. by split. }
  destruct Hv as [Hv He]. repeat split; try done.
  - destruct (modified r) eqn:M; [|done].
    destruct (modified_inversion v (JStr q) M) as (_ & _ & _ & Hval & _).
    fold r in Hval. congruence.
  - destruct (coherent_validate unicodeUpper v (JStr q)) as [_ H]. fold r in H.
    apply H. destruct (modified r) eqn:M; [|done].
    destruct (modified_inversion v (JStr q) M) as (_ & _ & _ & Hval & _).
    fold r in Hval. congruence.
Qed.

(** X4. A text that starts with EVALUATE, in any case and after any white
    space, is never rewritten. *)
Theorem validate_keeps_evaluate (v : DAXValidator) (q : jsstring) :
  led_by "EVALUATE" q →
  let r := fst (validate unicodeUpper v (JStr q)) in
  modified r = false ∧ modifiedQuery r = JStr q.
Proof. exact (evaluate_unmodified v q). Qed.

End ValidatorMore.

Lemma validate_modifies_only_unlimited_witness :
  ∃ q, JStr (lit " 'Sales'") = JStr q ∧ unlimited Demo.upper q
       ∧ isValid (fst (validate Demo.upper Demo.validator (JStr (lit " 'Sales'")))) = true
       ∧ modifiedQuery (fst (validate Demo.upper Demo.validator (JStr (lit " 'Sales'"))))
         = JStr (wrapped Demo.validator q).
Proof.
  apply (validate_modifies_only_unlimited Demo.upper Demo.validator (JStr (lit " 'Sales'"))).
  by vm_compute.
Defined.

Lemma validate_rejects_select_witness :
  let r := fst (validate Demo.upper Demo.validator (JStr (lit "  select * from T"))) in
  isValid r = false ∧ select_message ∈ errors r
  ∧ modified r = false ∧ modifiedQuery r = JStr (lit "  select * from T").
Proof.
  apply (validate_rejects_select Demo.upper Demo.validator (lit "  select * from T")).
  exists (lit "  "), (lit "select"), (lit " * from T"). by vm_compute.
Defined.

Lemma validate_keeps_evaluate_witness :
  let r := fst (validate Demo.upper Demo.validator (JStr (lit "Evaluate 'Sales'"))) in
  modified r = false ∧ modifiedQuery r = JStr (lit "Evaluate 'Sales'").
Proof.
  apply (validate_keeps_evaluate Demo.upper Demo.validator (lit "Evaluate 'Sales'")).
  exists [], (lit "Evaluate"), (lit " 'Sales'"). by vm_compute.
Defined.

(** ** The memory of the blocked patterns *)

Section BlockedPatterns.

Variable unicodeUpper : jsstring → jsstring.

Lemma check_blocked_states q ps : ∀ r acc,
  snd (fold_left (check_blocked q) ps (r, acc))
  = acc ++ map (λ p, snd (test p q)) ps.
Proof.
  induction ps as [|p ps IH]; intros r acc; cbn [fold_left map].
  - by rewrite app_nil_r.
  - unfold check_blocked at 2. destruct (test p q) as [hit p'] eqn:E.
    rewrite IH. cbn [snd]. by rewrite <- app_assoc.
Qed.

Lemma check_blocked_misses q ps : ∀ r acc,
  Forall (λ p, fst (test p q) = false) ps →
  fst (fold_left (check_blocked q) ps (r, acc)) = r.
Proof.
  induction ps as [|p ps IH]; intros r acc H; [done|].
  inversion H as [|? ? Hp Hps]; subst. cbn [fold_left].
  unfold check_blocked at 2. destruct (test p q) as [hit p'] eqn:E.
  cbn [fst] in Hp. subst hit. by apply IH.
Qed.

(** X5. The blocked patterns are objects that remember where their last
    match ended. When each of them, tested a second time on the text,
    misses (as a pattern with the [g] flag does after its only match),
    validating the same text again with the same validator gives the
    result of a validator that has no blocked pattern at all. *)
Theorem validate_again_forgets_blocked (v : DAXValidator) (q : jsstring) :
  Forall (λ p, fst (test (snd (test p (trim q))) (trim q)) = false) (blockedPatterns v) →
  fst (validate unicodeUpper (snd (validate unicodeUpper v (JStr q))) (JStr q))
  = fst (validate unicodeUpper (unblocked v) (JStr q)).
Proof.
  intros H. unfold validate at 2. destruct q as [|c q]; [reflexivity|].
  destruct (length (trim (c :: q)) =? 0)%nat eqn:L.
  { cbn [snd]. unfold validate. by rewrite L. }
  pose proof (check_blocked_states (trim (c :: q)) (blockedPatterns v)
                {| isValid := true; warnings := []; errors := []; modified := false;
                   modifiedQuery := JStr (c :: q) |} []) as Hs.
  destruct (fold_left (check_blocked _) _ _) as [r1 ps]. cbn [snd app] in Hs |- *.
  subst ps. unfold validate. rewrite L.
  cbn [blockedPatterns set_blockedPatterns unblocked fold_left dangerousFunctions
       warningThreshold maxRows].
  pose proof (check_blocked_misses (trim (c :: q))
                (map (λ p, snd (test p (trim (c :: q)))) (blockedPatterns v))
                {| isValid := true; warnings := []; errors := []; modified := false;
                   modifiedQuery := JStr (c :: q) |} []) as Hm.
  destruct (fold_left (check_blocked _) _ _) as [r1' ps'].
  cbn [fst] in Hm |- *. rewrite Hm; [reflexivity|].
  apply Forall_map. exact H.
Qed.

End BlockedPatterns.

Lemma validate_again_forgets_blocked_witness :
  let q := lit "crossjoin ( all(x), y)" in
  isValid (fst (validate Demo.upper Demo.validator (JStr q))) = false
  ∧ fst (validate Demo.upper (snd (validate Demo.upper Demo.validator (JStr q))) (JStr q))
    = fst (validate Demo.upper (unblocked Demo.validator) (JStr q)).
Proof.
  split; [by vm_compute|].
  apply (validate_again_forgets_blocked Demo.upper Demo.validator
           (lit "crossjoin ( all(x), y)")).
  repeat constructor.
Defined.

(** ** The fixed points of [sanitize] *)

Lemma no_run_complete s : (¬ ∃ a b, s = a ++ lit ";;" ++ b) → no_run s = true.
Proof.
  induction s as [|x s IH]; [done|]. intros H. cbn [no_run].
  rewrite IH.
  - rewrite andb_true_r. destruct (N.eqb_spec x 59) as [->|]; [|done].
    destruct s as [|y s]; [done|]. destruct (N.eqb_spec y 59) as [->|]; [|done].
    destruct H. by exists [], s.
  - intros (a & b & ->). apply H. by exists (x :: a), b.
Qed.

Lemma trim_shorter_head s c :
  head s = Some c → is_ws c = true → (length (trim s) < length s)%nat.
Proof.
  intros Hh Hc. unfold trim. rewrite length_reverse.
  pose proof (suffix_length _ _ (drop_ws_suffix (reverse (drop_ws s)))) as H1.
  rewrite length_reverse in H1.
  pose proof (drop_ws_shorter s c Hh Hc). lia.
Qed.

(** X6. [sanitize] returns a text as it is exactly when the text has no
    white space at either end, no two semicolons in a row and no
    semicolon at its end. *)
Theorem sanitize_fixed_points (q : jsstring) :
  sanitize (JStr q) = Ok q
  ↔ (∀ c, head q = Some c → is_ws c = false)
    ∧ (∀ c, last q = Some c → is_ws c = false ∧ c ≠ 59)
    ∧ (¬ ∃ a b, q = a ++ lit ";;" ++ b).
Proof.
  rewrite sanitize_plain. split.
  - intros [= E].
    pose proof (prefix_length _ _ (strip_prefix (collapse_from false (trim q)))) as H1.
    pose proof (collapse_length false (trim q)) as H2. rewrite E in H1.
    split; [|split].
    + intros c Hc. destruct (is_ws c) eqn:W; [|done].
      pose proof (trim_shorter_head q c Hc W). lia.
    + intros c Hc. split.
      * destruct (is_ws c) eqn:W; [|done]. pose proof (trim_shorter q c Hc W). lia.
      * intros ->. rewrite <- E in Hc. by apply strip_last in Hc.
    + apply no_run_spec. rewrite <- E.
      destruct (strip_prefix (collapse_from false (trim q))) as [z Hz].
      apply (no_run_prefix _ z). rewrite <- Hz. apply collapse_no_run.
  - intros (Hh & Hl & Hn). f_equal.
    rewrite trim_id; [|done|by intros c Hc; apply Hl].
    rewrite collapse_id; [|by apply no_run_complete|done].
    apply strip_id. intros x Hx. destruct (Hl x Hx). by split.
Qed.

Lemma sanitize_fixed_points_witness :
  sanitize (JStr (lit "EVALUATE 'Sales'")) = Ok (lit "EVALUATE 'Sales'").
Proof.
  apply sanitize_fixed_points. split; [|split].
  - intros c [= <-]. reflexivity.
  - intros c H. vm_compute in H. injection H as <-. by split.
  - apply no_run_spec. reflexivity.
Defined.

(** ** The thresholds of [validateResults] *)

(** X7. A result is never turned down. It gets no warning exactly when it
    has at most [warningThreshold] rows and fewer than [maxRows]; the
    notice of truncation is given from [maxRows] rows on, and is then the
    last warning; the notice of a large result only above the threshold. *)
Theorem validateResults_thresholds {A} (v : DAXValidator) (rows : list A) :
  let n := N.of_nat (length rows) in
  let checked := validateResults v (Some rows) in
  rv_isValid checked = true
  ∧ (rv_warnings checked = [] ↔ n ≤ warningThreshold v ∧ n < maxRows v)
  ∧ (maxRows v ≤ n ↔ last (rv_warnings checked) = Some (truncation_notice v))
  ∧ (warningThreshold v < n ↔ head (rv_warnings checked) = Some (large_notice n))
  ∧ rv_warnings (validateResults v (@None (list A))) = [].
Proof.
  intros n checked. subst checked. unfold validateResults. fold n.
  cbn [rv_isValid rv_warnings].
  destruct (N.ltb_spec (warningThreshold v) n), (N.leb_spec (maxRows v) n);
    cbn [app head last]; repeat split; try done; try lia;
    try (intros [? ?]; lia); try (intros [=]; lia).
Qed.

(** ** What [escapeXml] produces *)

Lemma escapeXml_chain (x : JsValue) :
  Utils.escapeXml x = Utils.escape_chain (Utils.toString x).
Proof. destruct x as [| |b|z|[|c s]|]; reflexivity. Qed.

Lemma well_escaped_entities s :
  well_escaped (flat_map (entity false false false false false) s) = true.
Proof.
  induction s as [|c s IH]; [reflexivity|]. cbn [flat_map].
  destruct (special_cases c) as [->|[->|[->|[->|[->|(H1&H2&H3&H4&H5)]]]]];
    try (eval_entities; simpl; rewrite IH; reflexivity).
  unfold entity at 1. rewrite H1, H2, H3, H4, H5. cbn [app well_escaped].
  by rewrite H1, H2, H3, H4, H5, IH.
Qed.

(** X8. Whatever value it is given, [escapeXml] returns a text without
    angle bracket, quote or apostrophe, in which every ampersand begins
    one of the five entities. *)
Theorem escapeXml_well_escaped (x : JsValue) :
  well_escaped (Utils.escapeXml x) = true.
Proof. rewrite escapeXml_chain, escape_chain_entities. apply well_escaped_entities. Qed.

Lemma replace_no_ampersand (p repl s : jsstring) :
  Forall (λ c, c ≠ 38) s → replace_all (Rx.text (38 :: p)) repl s = s.
Proof.
  induction 1 as [|c s Hc Hs IH]; [reflexivity|].
  rewrite replace_text_miss; [by rewrite IH|].
  cbn [starts_with]. destruct (N.eqb_spec 38 c); [congruence|done].
Qed.

(** X9. [escapeXml] changes nothing in a string without ampersand, angle
    bracket, quote and apostrophe, and [unescapeXml] changes nothing in a
    string without ampersand. *)
Theorem plain_text_unchanged (s : jsstring) :
  (forallb (λ c, negb (special c)) s = true → Utils.escapeXml (JStr s) = s)
  ∧ (Forall (λ c, c ≠ 38) s → Utils.unescapeXml s = s).
Proof.
  split.
  - intros H. rewrite escapeXml_chain, escape_chain_entities. cbn [Utils.toString].
    induction s as [|c s IH]; [reflexivity|]. cbn [forallb] in H.
    apply andb_prop in H as [Hc Hs]. cbn [flat_map]. rewrite (IH Hs).
    unfold special in Hc. apply negb_true_iff in Hc.
    apply orb_false_elim in Hc as [Hc E5]. apply orb_false_elim in Hc as [Hc E4].
    apply orb_false_elim in Hc as [Hc E3]. apply orb_false_elim in Hc as [E1 E2].
    unfold entity at 1. rewrite E1, E2, E3, E4, E5. reflexivity.
  - intros H. destruct s as [|c s]; [reflexivity|]. unfold Utils.unescapeXml.
    change (lit "&apos;") with (38 :: lit "apos;").
    change (lit "&quot;") with (38 :: lit "quot;").
    change (lit "&gt;") with (38 :: lit "gt;").
    change (lit "&lt;") with (38 :: lit "lt;").
    change (lit "&amp;") with (38 :: lit "amp;").
    rewrite (replace_no_ampersand (lit "apos;") _ _ H), (replace_no_ampersand (lit "quot;") _ _ H),
      (replace_no_ampersand (lit "gt;") _ _ H), (replace_no_ampersand (lit "lt;") _ _ H).
    apply (replace_no_ampersand (lit "amp;") _ _ H).
Qed.

Lemma plain_text_unchanged_witness :
  Utils.escapeXml (JStr (lit "EVALUATE Sales")) = lit "EVALUATE Sales"
  ∧ Utils.unescapeXml (lit "a < b") = lit "a < b".
Proof.
  split.
  - apply (proj1 (plain_text_unchanged (lit "EVALUATE Sales"))). reflexivity.
  - apply (proj2 (plain_text_unchanged (lit "a < b"))). by repeat constructor.
Defined.

(** ** The connection and its endpoint *)

Lemma starts_with_more (p s t : jsstring) :
  starts_with p s = true → starts_with p (s ++ t) = true.
Proof.
  revert s. induction p as [|a p IH]; intros [|c s]; cbn; try done.
  intros [-> H]%andb_prop. by apply IH.
Qed.

(** X10. A new connection is not connected and has no successful query.
    Its endpoint is the server followed by [/xmla], with [http://] in
    front unless the server already starts with [http://] or
    [https://]; so it always starts with one of the two. *)
Theorem new_connection_endpoint (window_CONFIG : option (option Config))
    (server database : jsstring) :
  let c := new_XMLAConnection window_CONFIG server database in
  let explicit :=
    starts_with (lit "http://") server || starts_with (lit "https://") server in
  xmlaEndpoint c = (if explicit then [] else lit "http://") ++ server ++ lit "/xmla"
  ∧ starts_with (lit "http://") (xmlaEndpoint c)
    || starts_with (lit "https://") (xmlaEndpoint c) = true
  ∧ isConnected c = false ∧ lastSuccessfulQuery c = None
  ∧ Xmla.server c = server ∧ Xmla.database c = database.
Proof.
  intros c explicit. subst c explicit. unfold new_XMLAConnection.
  cbn [xmlaEndpoint isConnected lastSuccessfulQuery Xmla.server Xmla.database].
  destruct (starts_with (lit "http://") server) eqn:E1; cbn [orb].
  - repeat split. by rewrite (starts_with_more _ _ _ E1).
  - destruct (starts_with (lit "https://") server) eqn:E2.
    + repeat split. by rewrite (starts_with_more _ _ _ E2), orb_true_r.
    + repeat split.
Qed.

Section ConnectionMore.

Variable unicodeUpper : jsstring → jsstring.
Variable parseFromString : jsstring → list Node.
Variable World : Type.
Variable now : World → N.
Variable xmlaRequest : option (jsstring → jsstring → World → res IpcResult * World).
Variable fetch : jsstring → jsstring → World → res Response * World.

Let executeDMVQuery := Xmla.executeDMVQuery parseFromString World now xmlaRequest fetch.
Let testConnection := Xmla.testConnection parseFromString World now xmlaRequest fetch.
Let getRelationships := Xmla.getRelationships parseFromString World now xmlaRequest fetch.
Let executeDAX := Xmla.executeDAX unicodeUpper parseFromString World now xmlaRequest fetch.
Let getSampleData := Xmla.getSampleData unicodeUpper parseFromString World now xmlaRequest fetch.
Let fetch_catalog := Xmla.fetch_catalog parseFromString World now xmlaRequest fetch.

(** X11. [testConnection] never throws. It returns whether its probe of
    the catalog went through and leaves [isConnected] equal to what it
    returns; [lastSuccessfulQuery] is the current time after a success
    and is not touched by a failure. *)
Theorem testConnection_reports (c : XMLAConnection) (w : World) :
  ∃ alive c' w',
    testConnection (c, w) = (Ok alive, (c', w'))
    ∧ isConnected c' = alive
    ∧ lastSuccessfulQuery c' = (if alive then Some (now w') else lastSuccessfulQuery c)
    ∧ snd (snd (executeDMVQuery (catalog_probe c) (c, w))) = w'
    ∧ (alive = true ↔ ∃ rows, fst (executeDMVQuery (catalog_probe c) (c, w)) = Ok rows).
Proof.
  unfold testConnection, Xmla.testConnection. run. fold (catalog_probe c).
  destruct (executeDMVQuery_outcome unicodeUpper parseFromString World now xmlaRequest fetch
              (catalog_probe c) c w) as (w' & [[rows E]|[e E]]);
    fold executeDMVQuery in E |- *; rewrite E; cbn [fst snd].
  - exists true. eexists _, _. repeat split; eauto.
  - exists false. eexists _, _. repeat split; try done. by intros [rows ?].
Qed.

Lemma ensure_evaluate_marked s : test_fresh re_evaluate (ensure_evaluate s) = true.
Proof.
  unfold ensure_evaluate. destruct (test_fresh re_evaluate s) eqn:E; [exact E|].
  change (lit "EVALUATE " ++ s) with (lit "EVALUATE" ++ (lit " " ++ s)).
  by apply (anchored_hit (lit "EVALUATE") (lit "EVALUATE") _ 69).
Qed.

(** [executeDAX] in one equation. *)
Lemma executeDAX_unfold (daxQuery : jsstring) (c : XMLAConnection) (w : World) :
  executeDAX daxQuery (c, w)
  = match daxValidator c with
    | None => answer [] None (executeDMVQuery (ensure_evaluate daxQuery) (c, w))
    | Some v =>
        let validation := fst (validate unicodeUpper v (JStr daxQuery)) in
        let v' := snd (validate unicodeUpper v (JStr daxQuery)) in
        if isValid validation then
          match sanitize (if modified validation then modifiedQuery validation
                          else JStr daxQuery) with
          | Ok sanitized =>
              answer (Validator.warnings validation) (Some v')
                (executeDMVQuery (ensure_evaluate sanitized) (set_daxValidator v' c, w))
          | Throw e => (Throw e, (set_daxValidator v' c, w))
          end
        else
          (Throw (lit "Query validation failed: "
                  ++ join (lit ", ") (errors validation)),
           (set_daxValidator v' c, w))
    end.
Proof.
  unfold executeDAX, Xmla.executeDAX. run.
  assert (Hens : ∀ s, (if negb (test_fresh re_evaluate s) then lit "EVALUATE " ++ s else s)
                      = ensure_evaluate s).
  { intros s. unfold ensure_evaluate. by destruct (test_fresh re_evaluate s). }
  destruct (daxValidator c) as [v|] eqn:Hv.
  - destruct (validate unicodeUpper v (JStr daxQuery)) as [validation v'].
    cbv beta iota zeta delta [fst snd].
    destruct (isValid validation); cbn [negb]; [|reflexivity].
    destruct (sanitize _) as [sanitized|e]; [|reflexivity].
    rewrite Hens. fold executeDMVQuery.
    destruct (executeDMVQuery_outcome unicodeUpper parseFromString World now xmlaRequest
                fetch (ensure_evaluate sanitized) (set_daxValidator v' c) w)
      as (w' & [[rows E]|[e E]]); fold executeDMVQuery in E; rewrite E; reflexivity.
  - rewrite Hens. fold executeDMVQuery.
    destruct (executeDMVQuery_outcome unicodeUpper parseFromString World now xmlaRequest
                fetch (ensure_evaluate daxQuery) c w)
      as (w' & [[rows E]|[e E]]); fold executeDMVQuery in E; rewrite E; cbn [answer];
      [cbn [daxValidator set_lastSuccessfulQuery set_connected]; rewrite Hv|]; reflexivity.
Qed.

(** X12. Whatever the outcome of [executeDAX], the flags of the
    connection change only with a success: a result comes with
    [isConnected] set and [lastSuccessfulQuery] at the current time, and
    its [rowCount] is the length of its [data]; a rejected or failed
    query leaves both flags as they were. *)
Theorem executeDAX_flags (daxQuery : jsstring) (c : XMLAConnection) (w : World) :
  match executeDAX daxQuery (c, w) with
  | (Ok result, (c', w')) =>
      dr_rowCount result = length (dr_data result)
      ∧ isConnected c' = true ∧ lastSuccessfulQuery c' = Some (now w')
  | (Throw _, (c', _)) =>
      isConnected c' = isConnected c
      ∧ lastSuccessfulQuery c' = lastSuccessfulQuery c
  end.
Proof.
  rewrite executeDAX_unfold.
  assert (H : ∀ ws v fq c1,
    isConnected c1 = isConnected c → lastSuccessfulQuery c1 = lastSuccessfulQuery c →
    match answer ws v (executeDMVQuery fq (c1, w)) with
    | (Ok result, (c', w')) =>
        dr_rowCount result = length (dr_data result)
        ∧ isConnected c' = true ∧ lastSuccessfulQuery c' = Some (now w')
    | (Throw _, (c', _)) =>
        isConnected c' = isConnected c
        ∧ lastSuccessfulQuery c' = lastSuccessfulQuery c
    end).
  { intros ws v fq c1 H1 H2.
    destruct (executeDMVQuery_outcome unicodeUpper parseFromString World now xmlaRequest
                fetch fq c1 w) as (w' & [[rows E]|[e E]]);
      fold executeDMVQuery in E; rewrite E; cbn [answer]; by repeat split. }
  destruct (daxValidator c) as [v|]; [|by apply H].
  cbv zeta. destruct (isValid _); [|by split].
  destruct (sanitize _); [by apply H | by split].
Qed.

(** X13. What [executeDAX] hands to [executeDMVQuery] always carries the
    EVALUATE marker; and when it throws before, the world is as it was:
    nothing has been sent. *)
Theorem executeDAX_sends_evaluate (daxQuery : jsstring) (c : XMLAConnection) (w : World) :
  (∃ e c1, executeDAX daxQuery (c, w) = (Throw e, (c1, w)))
  ∨ (∃ finalQuery warnings v c1,
       test_fresh re_evaluate finalQuery = true
       ∧ executeDAX daxQuery (c, w)
         = answer warnings v (executeDMVQuery finalQuery (c1, w))).
Proof.
  rewrite executeDAX_unfold. destruct (daxValidator c) as [v|].
  - cbv zeta. destruct (isValid _); [|left; by eauto].
    destruct (sanitize _) as [s|e]; [|left; by eauto].
    right. eexists _, _, _, _. split; [apply ensure_evaluate_marked | reflexivity].
  - right. eexists _, _, _, _. split; [apply ensure_evaluate_marked | reflexivity].
Qed.

(** X14. [getRelationships] and [getSampleData] never throw, whatever
    the host does: they answer [] when their query throws.
    [getSemanticModelMetadata] throws nothing but the error of the
    grouping: after the four probes it returns a snapshot when no column
    with a name belongs to a table named like an inherited member, and
    throws that error otherwise. *)
Theorem best_effort_outcomes (st : XMLAConnection * World) :
  (∃ rows st', getRelationships st = (Ok rows, st')
               ∧ (∀ e, fst (executeDMVQuery relationships_query st) = Throw e → rows = []))
  ∧ (∀ tableName maxRows,
       ∃ rows st', getSampleData tableName maxRows st = (Ok rows, st')
                   ∧ (∀ e, fst (executeDAX (sample_query tableName maxRows) st) = Throw e
                           → rows = []))
  ∧ (∀ functionText pushError options,
       ∃ T C Ms R st1,
         fetch_catalog st = (Ok (T, C, Ms, R), st1)
         ∧ if groupable functionText (tableIdToName T) C then
             ∃ snapshot st',
               Xmla.getSemanticModelMetadata unicodeUpper parseFromString World now
                 xmlaRequest fetch functionText pushError options st
               = (Ok snapshot, st')
           else
             Xmla.getSemanticModelMetadata unicodeUpper parseFromString World now
               xmlaRequest fetch functionText pushError options st
             = (Throw pushError, st1)).
Proof.
  split; [|split].
  - unfold getRelationships, Xmla.getRelationships. run. fold executeDMVQuery.
    destruct (executeDMVQuery relationships_query st) as [[rows|e] st'];
      eexists _, _; split; try reflexivity; cbn [fst]; congruence.
  - intros tableName maxRows. unfold getSampleData, Xmla.getSampleData. run.
    fold (sample_query tableName maxRows). fold executeDAX.
    destruct (executeDAX (sample_query tableName maxRows) st) as [[r|e] st'];
      eexists _, _; split; try reflexivity; cbn [fst]; congruence.
  - intros functionText pushError options.
    destruct (snapshot_or_error unicodeUpper parseFromString World now xmlaRequest fetch
                functionText pushError options st) as (T & C & Ms & R & st1 & E & H).
    exists T, C, Ms, R, st1. split; [exact E|].
    destruct (groupable functionText (tableIdToName T) C); [|exact H].
    destruct H as (grouped & bs & st' & _ & H). by eauto.
Qed.

End ConnectionMore.

Lemma best_effort_outcomes_witness :
  fst (Offline.getRelationships (Demo.connection, 0%nat)) = Ok []
  ∧ fst (Offline.getSampleData (Some (lit "Sales")) 3 (Demo.connection, 0%nat)) = Ok [].
Proof.
  destruct (best_effort_outcomes Demo.upper Demo.parseFromString Demo.World Demo.now
              Offline.transport Demo.fetch (Demo.connection, 0%nat)) as (H1 & H2 & _).
  destruct H1 as (rows & st' & E & H1).
  destruct (H2 (Some (lit "Sales")) 3) as (rows' & st'' & E' & H2').
  split.
  - unfold Offline.getRelationships. rewrite E. cbn [fst]. f_equal.
    apply (H1 (lit "connect ECONNREFUSED")). by vm_compute.
  - unfold Offline.getSampleData. rewrite E'. cbn [fst]. f_equal.
    apply (H2' (lit "connect ECONNREFUSED")). by vm_compute.
Defined.

(** ** EVALUATE is not put twice *)

Lemma upper_no_semicolon s k :
  map ascii_upper s = k → forallb (λ c, negb (c =? 59)) k = true →
  Forall (λ c, c ≠ 59) s.
Proof.
  intros <- H. induction s as [|c s IH]; [done|].
  cbn [map forallb] in H. apply andb_prop in H as [Hc Hs].
  constructor; [|by apply IH]. intros ->. done.
Qed.

Lemma collapse_app_plain (s t : jsstring) seen :
  s ≠ [] → Forall (λ c, c ≠ 59) s →
  collapse_from seen (s ++ t) = s ++ collapse_from false t.
Proof.
  intros Hne H. revert seen. induction H as [|c s Hc Hs IH]; [done|]. intros seen.
  cbn [app collapse_from]. apply N.eqb_neq in Hc. rewrite Hc. f_equal.
  destruct s as [|c' s]; [reflexivity|]. by apply IH.
Qed.

Lemma strip_app_plain (s t : jsstring) :
  Forall (λ c, c ≠ 59) s → strip (s ++ t) = s ++ strip t.
Proof.
  induction 1 as [|c s Hc Hs IH]; [done|].
  cbn [app strip]. apply N.eqb_neq in Hc. rewrite Hc. cbn [andb]. by rewrite IH.
Qed.

Lemma star_ws_pad (k : option N → jsstring → option nat) (pad s : jsstring) n :
  forallb is_ws pad = true → (∀ prev, k prev s = Some n) →
  ∀ prev, ∃ m, star is_ws k prev (pad ++ s) = Some m.
Proof.
  intros Hp Hk. induction pad as [|c pad IH]; intros prev.
  - cbn [app]. destruct s as [|x s]; cbn [star]; [by eauto|].
    destruct (is_ws x); [|by eauto]. destruct (star _ _ _ _); by eauto.
  - cbn [forallb] in Hp. apply andb_prop in Hp as [Hc Hp].
    cbn [app star]. rewrite Hc. destruct (IH Hp (Some c)) as [m ->]. by eauto.
Qed.

(** The expression of [executeDAX] hits a text led by EVALUATE, trimmed
    or not. *)
Lemma led_by_marked q : led_by "EVALUATE" q → test_fresh re_evaluate q = true.
Proof.
  intros (pad & s & rest & -> & Hp & Hs). unfold test_fresh, re_evaluate.
  destruct (star_ws_pad (match_here (text_i (lit "EVALUATE"))) pad (s ++ rest) 8 Hp)
    with (prev := @None N) as [m Hm].
  { intros prev. by apply match_text_i. }
  assert (H : match_here ([Bol; Chr is_ws Star] ++ text_i (lit "EVALUATE")) None
                (pad ++ s ++ rest) = Some m) by exact Hm.
  destruct (pad ++ s ++ rest); cbn [search]; by rewrite H.
Qed.

Lemma sanitize_led keyword q :
  keyword ≠ EmptyString →
  forallb (λ c, negb (is_ws c) && negb (c =? 59)) (lit keyword) = true →
  led_by keyword q →
  ∃ sanitized, sanitize (JStr q) = Ok sanitized ∧ led_by keyword sanitized.
Proof.
  intros Hk Hn (pad & s & rest & -> & Hp & Hs).
  assert (Hws : Forall (λ c, is_ws c = false) s).
  { apply (upper_not_ws s (lit keyword) Hs). apply forallb_forall. intros c Hc.
    rewrite forallb_forall in Hn. by destruct (andb_prop _ _ (Hn c Hc)). }
  assert (Hsemi : Forall (λ c, c ≠ 59) s).
  { apply (upper_no_semicolon s (lit keyword) Hs). apply forallb_forall. intros c Hc.
    rewrite forallb_forall in Hn. by destruct (andb_prop _ _ (Hn c Hc)). }
  assert (Hne : s ≠ []).
  { intros ->. destruct keyword; [done|discriminate]. }
  eexists. split; [apply sanitize_plain|].
  rewrite (trim_led pad s rest Hp Hne Hws).
  rewrite (collapse_app_plain s _ false Hne Hsemi), (strip_app_plain s _ Hsemi).
  by exists [], s, (strip (collapse_from false (reverse (drop_ws (reverse rest))))).
Qed.

Section EvaluateOnce.

Variable unicodeUpper : jsstring → jsstring.
Variable parseFromString : jsstring → list Node.
Variable World : Type.
Variable now : World → N.
Variable xmlaRequest : option (jsstring → jsstring → World → res IpcResult * World).
Variable fetch : jsstring → jsstring → World → res Response * World.

Let executeDMVQuery := Xmla.executeDMVQuery parseFromString World now xmlaRequest fetch.
Let executeDAX := Xmla.executeDAX unicodeUpper parseFromString World now xmlaRequest fetch.

(** X15. A query that already starts with EVALUATE, in any case and
    after any white space, gets no second EVALUATE and no TOPN around
    it: without a validator it is sent as it is, and with a validator
    that accepts it, what is sent is its sanitized text. *)
Theorem executeDAX_keeps_evaluate (daxQuery : jsstring) (c : XMLAConnection) (w : World) :
  led_by "EVALUATE" daxQuery →
  match daxValidator c with
  | None =>
      executeDAX daxQuery (c, w) = answer [] None (executeDMVQuery daxQuery (c, w))
  | Some v =>
      let validation := fst (validate unicodeUpper v (JStr daxQuery)) in
      let v' := snd (validate unicodeUpper v (JStr daxQuery)) in
      isValid validation = true →
      ∃ sanitized,
        sanitize (JStr daxQuery) = Ok sanitized
        ∧ executeDAX daxQuery (c, w)
          = answer (Validator.warnings validation) (Some v')
              (executeDMVQuery sanitized (set_daxValidator v' c, w))
  end.
Proof.
  intros Hled.
  pose proof (executeDAX_unfold unicodeUpper parseFromString World now xmlaRequest fetch
                daxQuery c w) as E.
  fold executeDAX executeDMVQuery in E. rewrite E. clear E.
  destruct (daxValidator c) as [v|].
  - cbv zeta. intros Hv. rewrite Hv.
    destruct (evaluate_unmodified unicodeUpper v daxQuery Hled) as [-> _].
    destruct (sanitize_led "EVALUATE" daxQuery) as (sanitized & Hs & Hled'); try done.
    exists sanitized. split; [exact Hs|]. rewrite Hs.
    unfold ensure_evaluate. by rewrite (led_by_marked _ Hled').
  - unfold ensure_evaluate. by rewrite (led_by_marked _ Hled).
Qed.

End EvaluateOnce.

Lemma executeDAX_keeps_evaluate_witness :
  ∃ sanitized,
    sanitize (JStr (lit " evaluate 'Sales';")) = Ok sanitized
    ∧ Demo.executeDAX (lit " evaluate 'Sales';") (Demo.connection, 0%nat)
      = answer (Validator.warnings
                  (fst (validate Demo.upper Demo.validator (JStr (lit " evaluate 'Sales';")))))
          (Some (snd (validate Demo.upper Demo.validator (JStr (lit " evaluate 'Sales';")))))
          (Demo.executeDMVQuery sanitized
             (set_daxValidator
                (snd (validate Demo.upper Demo.validator (JStr (lit " evaluate 'Sales';"))))
                Demo.connection, 0%nat)).
Proof.
  apply (executeDAX_keeps_evaluate Demo.upper Demo.parseFromString Demo.World Demo.now
           Demo.transport Demo.fetch (lit " evaluate 'Sales';") Demo.connection 0%nat).
  - exists (lit " "), (lit "evaluate"), (lit " 'Sales';"). by vm_compute.
  - by vm_compute.
Defined.

(** ** The synthesis of the model *)

Lemma truthy_key x : truthy_text x = true → x = Some (key x).
Proof. by destruct x as [[|c s]|]. Qed.

Lemma id_lookup (name_of : Row → option jsstring) (rows : list Row)
    (m : gmap jsstring jsstring) (i : jsstring) :
  fold_left (λ (m : gmap jsstring jsstring) row,
               if truthy_text (prop row "ID") && truthy_text (name_of row)
               then Obj.write (key (prop row "ID")) (key (name_of row)) m else m) rows m !! i
  = if bool_decide (i = Obj.proto) then m !! i
    else match last (filter (λ row, named_row name_of row = true ∧ prop row "ID" = Some i)
                            rows) with
         | Some row => name_of row
         | None => m !! i
         end.
Proof.
  revert m. induction rows as [|row rows IH]; intros m.
  { cbn. by destruct (bool_decide _). }
  cbn [fold_left]. rewrite IH, filter_cons. clear IH.
  change (truthy_text (prop row "ID") && truthy_text (name_of row))
    with (named_row name_of row).
  unfold Obj.write.
  destruct (bool_decide_reflect (i = Obj.proto)) as [->|Hi].
  { destruct (named_row name_of row); [|reflexivity].
    destruct (bool_decide_reflect (key (prop row "ID") = Obj.proto)); [reflexivity|].
    by apply lookup_insert_ne. }
  destruct (named_row name_of row) eqn:E.
  - apply andb_prop in E as [E1 E2].
    destruct (decide (prop row "ID" = Some i)) as [Hid|Hid].
    + rewrite decide_True by done. rewrite last_cons.
      destruct (last (filter _ rows)); [reflexivity|].
      rewrite Hid. cbn [key default]. rewrite bool_decide_eq_false_2 by done.
      rewrite lookup_insert_eq. by apply truthy_key in E2.
    + rewrite decide_False by (by intros [_ ?]).
      destruct (last (filter _ rows)); [reflexivity|].
      destruct (bool_decide _); [reflexivity|].
      apply lookup_insert_ne. intros Hk. apply Hid. by rewrite (truthy_key _ E1), Hk.
  - rewrite decide_False by (by intros [? _]). reflexivity.
Qed.

(** X16. The two id-to-name lookups hold, under an ID other than
    [__proto__], the name of the last catalog row with that ID among the
    rows that have an ID and a name; rows without one of the two never
    enter, and nothing is held under [__proto__]. A read of an ID the
    lookup does not hold gives the inherited member of that name, if
    there is one, and nothing otherwise. *)
Theorem id_to_name_last_wins (tablesResult columnsResult : list Row) (i : jsstring) :
  tableIdToName tablesResult !! i = entered objectName tablesResult i
  ∧ columnIdToName columnsResult !! i = entered columnName_of columnsResult i
  ∧ Obj.read (tableIdToName tablesResult) i
    = match entered objectName tablesResult i with
      | Some name => Some (Obj.Data name)
      | None => if Obj.inherited i then Some (Obj.Member i) else None
      end
  ∧ Obj.read (columnIdToName columnsResult) i
    = match entered columnName_of columnsResult i with
      | Some name => Some (Obj.Data name)
      | None => if Obj.inherited i then Some (Obj.Member i) else None
      end.
Proof.
  assert (H1 : tableIdToName tablesResult !! i = entered objectName tablesResult i).
  { unfold tableIdToName, entered. rewrite id_lookup, lookup_empty.
    destruct (bool_decide _); [reflexivity|]. by destruct (last _). }
  assert (H2 : columnIdToName columnsResult !! i = entered columnName_of columnsResult i).
  { unfold columnIdToName, entered. rewrite id_lookup, lookup_empty.
    destruct (bool_decide _); [reflexivity|]. by destruct (last _). }
  unfold Obj.read. rewrite H1, H2. repeat split.
Qed.

Section Tables.

Variable functionText : jsstring → jsstring.
Variable pushError : jsstring.

(** X17. The grouping of the columns throws exactly when a column with
    a name belongs to a table whose name is that of an inherited member.
    When it goes through, every table row of the catalog gives one
    table, in catalog order and under its name, even a row without a
    name; the columns of a table are, in catalog order, the column rows
    with a name whose [TableID] resolves to the name of the table, or,
    for a table named like an inherited member, that member. *)
Theorem tables_group_columns (ids : gmap jsstring jsstring)
    (tablesResult columnsResult : list Row) :
  match columnsByTable functionText pushError ids columnsResult with
  | Ok grouped =>
      groupable functionText ids columnsResult = true
      ∧ build_tables grouped tablesResult
        = map (λ table,
                 {| tbl_name := objectName table;
                    tbl_columns :=
                      if Obj.inherited (key (objectName table))
                      then Obj.Member (key (objectName table))
                      else Obj.Data (columns_of functionText ids columnsResult
                                       (key (objectName table))) |})
              tablesResult
  | Throw e => groupable functionText ids columnsResult = false ∧ e = pushError
  end.
Proof.
  pose proof (columnsByTable_outcome functionText pushError ids columnsResult) as H.
  destruct (columnsByTable _ _ _ _) as [grouped|e]; [|exact H].
  destruct H as (Hg & Hk & Hl). split; [exact Hg|].
  unfold build_tables. apply map_ext. intros table. f_equal.
  unfold Obj.read. rewrite Hl.
  destruct (Obj.inherited (key (objectName table))) eqn:Hin.
  - destruct (columns_of _ _ _ _) as [|c cs] eqn:Ec; [reflexivity|].
    exfalso. specialize (Hk (key (objectName table))). rewrite Hl, Ec in Hk.
    rewrite Hk in Hin; [done | by eexists].
  - by destruct (columns_of _ _ _ _).
Qed.

(** A table that is asked for samples does not go by the name
    [__proto__]. *)
Lemma sampled_not_proto (grouped : gmap jsstring (list Column)) (tablesResult : list Row)
    table :
  (∀ k, is_Some (grouped !! k) → Obj.inherited k = false) →
  table ∈ build_tables grouped tablesResult →
  has_columns (tbl_columns table) = true → key (tbl_name table) ≠ Obj.proto.
Proof.
  intros Hk (row & -> & _)%list_elem_of_fmap. cbn [tbl_name tbl_columns].
  intros Hc E. rewrite E in Hc. unfold Obj.read in Hc.
  destruct (grouped !! Obj.proto) eqn:G.
  - assert (Hp : Obj.inherited Obj.proto = false) by (apply Hk; by rewrite G).
    by vm_compute in Hp.
  - by vm_compute in Hc.
Qed.

End Tables.

(** ** The samples *)

Lemma collect_lookup (sampleResults : list (option jsstring * list Row))
    (acc : SampleData) (n : jsstring) (rows : list Row) :
  sd_entries
    (fold_left (λ (sampleData : SampleData) '(tableName, samples),
                  if (0 <? length samples)%nat then
                    if bool_decide (key tableName = Obj.proto) then
                      {| sd_entries := sd_entries sampleData; sd_prototype := Some samples |}
                    else
                      {| sd_entries := <[key tableName := samples]> (sd_entries sampleData);
                         sd_prototype := sd_prototype sampleData |}
                  else sampleData)
               sampleResults acc) !! n = Some rows →
  sd_entries acc !! n = Some rows
  ∨ rows ≠ [] ∧ ∃ tableName, (tableName, rows) ∈ sampleResults ∧ key tableName = n.
Proof.
  revert acc. induction sampleResults as [|[t s] l IH]; intros acc H; [by left|].
  cbn [fold_left] in H. apply IH in H as [H|(Hr & t' & Hin & Hk)].
  - destruct (0 <? length s)%nat eqn:E; [|by left].
    destruct (bool_decide (key t = Obj.proto)); cbn [sd_entries] in H; [by left|].
    destruct (decide (key t = n)) as [<-|Hne].
    + rewrite lookup_insert_eq in H. injection H as ->. right. split.
      * by destruct rows.
      * exists t. split; [left|done].
    + rewrite lookup_insert_ne in H by done. by left.
  - right. split; [done|]. exists t'. split; [by right|done].
Qed.

Lemma collect_size (sampleResults : list (option jsstring * list Row)) (acc : SampleData) :
  (size (sd_entries
           (fold_left (λ (sampleData : SampleData) '(tableName, samples),
                         if (0 <? length samples)%nat then
                           if bool_decide (key tableName = Obj.proto) then
                             {| sd_entries := sd_entries sampleData;
                                sd_prototype := Some samples |}
                           else
                             {| sd_entries :=
                                  <[key tableName := samples]> (sd_entries sampleData);
                                sd_prototype := sd_prototype sampleData |}
                         else sampleData)
                      sampleResults acc))
   ≤ size (sd_entries acc) + length sampleResults)%nat.
Proof.
  revert acc. induction sampleResults as [|[t s] l IH]; intros acc;
    cbn [fold_left length]; [lia|].
  etransitivity; [apply IH|]. destruct (0 <? length s)%nat; [|lia].
  destruct (bool_decide (key t = Obj.proto)); cbn [sd_entries]; [lia|].
  destruct (sd_entries acc !! key t) eqn:E.
  - rewrite map_size_insert_Some by eauto. lia.
  - rewrite map_size_insert_None by done. lia.
Qed.

Lemma collect_prototype (sampleResults : list (option jsstring * list Row))
    (acc : SampleData) :
  Forall (λ answer, key (fst answer) ≠ Obj.proto) sampleResults →
  sd_prototype
    (fold_left (λ (sampleData : SampleData) '(tableName, samples),
                  if (0 <? length samples)%nat then
                    if bool_decide (key tableName = Obj.proto) then
                      {| sd_entries := sd_entries sampleData; sd_prototype := Some samples |}
                    else
                      {| sd_entries := <[key tableName := samples]> (sd_entries sampleData);
                         sd_prototype := sd_prototype sampleData |}
                  else sampleData)
               sampleResults acc)
  = sd_prototype acc.
Proof.
  intros H. revert acc. induction H as [|[t s] l Ht Hl IH]; intros acc; [done|].
  cbn [fold_left]. rewrite IH. destruct (0 <? length s)%nat; [|done].
  cbn [fst] in Ht. by rewrite bool_decide_eq_false_2.
Qed.

Section SnapshotMore.

Variable unicodeUpper : jsstring → jsstring.
Variable parseFromString : jsstring → list Node.
Variable World : Type.
Variable now : World → N.
Variable xmlaRequest : option (jsstring → jsstring → World → res IpcResult * World).
Variable fetch : jsstring → jsstring → World → res Response * World.
Variable functionText : jsstring → jsstring.
Variable pushError : jsstring.

Let executeDMVQuery := Xmla.executeDMVQuery parseFromString World now xmlaRequest fetch.
Let fetch_catalog := Xmla.fetch_catalog parseFromString World now xmlaRequest fetch.
Let getSemanticModelMetadata :=
  Xmla.getSemanticModelMetadata unicodeUpper parseFromString World now xmlaRequest fetch
    functionText pushError.

(** The snapshot with the answers of the tables that were asked. *)
Lemma snapshot_sampling options st :
  ∃ T C Ms R st1,
    fetch_catalog st = (Ok (T, C, Ms, R), st1)
    ∧ if groupable functionText (tableIdToName T) C then
        ∃ grouped sampleResults st',
          columnsByTable functionText pushError (tableIdToName T) C = Ok grouped
          ∧ map fst sampleResults
            = map tbl_name
                (if negb (bool_decide (fetchSampleData options = Some false))
                    && (0 <? length (build_tables grouped T))%nat
                 then tablesToSample (build_tables grouped T) else [])
          ∧ (fetchSampleData options = Some false ∨ T = [] → st' = st1)
          ∧ getSemanticModelMetadata options st
            = (Ok {| tables := build_tables grouped T;
                     measures := build_measures (tableIdToName T) Ms;
                     relationships :=
                       build_relationships functionText (tableIdToName T)
                         (columnIdToName C) R;
                     sampleData := collect_samples sampleResults;
                     summary :=
                       {| tableCount := length (build_tables grouped T);
                          measureCount := length (build_measures (tableIdToName T) Ms);
                          relationshipCount :=
                            length (build_relationships functionText (tableIdToName T)
                                      (columnIdToName C) R);
                          totalColumns := length C;
                          tablesWithSampleData :=
                            size (sd_entries (collect_samples sampleResults)) |} |},
               st')
      else getSemanticModelMetadata options st = (Throw pushError, st1).
Proof.
  destruct (snapshot_shape unicodeUpper parseFromString World now xmlaRequest fetch
              functionText pushError options st) as (T & C & Ms & R & st1 & E & H).
  exists T, C, Ms, R, st1. split; [exact E|].
  pose proof (columnsByTable_groupable functionText pushError (tableIdToName T) C) as Hg.
  destruct (groupable functionText (tableIdToName T) C).
  - destruct Hg as [grouped Hg]. rewrite Hg in H.
    destruct H as (bs & st' & H1 & H2 & H3). by eauto 10.
  - by rewrite Hg in H.
Qed.

(** X18. When [getSemanticModelMetadata] returns, [sampleData] holds at
    most ten tables and still has its first prototype. Each of its
    entries has at least one row and stands under the name of a table of
    the snapshot whose [columns] have a positive length: an array that
    is not empty, or an inherited function with a parameter. *)
Theorem samples_of_tables_with_columns options st :
  ∃ T C Ms R st1,
    fetch_catalog st = (Ok (T, C, Ms, R), st1)
    ∧ if groupable functionText (tableIdToName T) C then
        ∃ snapshot st',
          getSemanticModelMetadata options st = (Ok snapshot, st')
          ∧ (size (sd_entries (sampleData snapshot)) ≤ 10)%nat
          ∧ sd_prototype (sampleData snapshot) = None
          ∧ ∀ name rows,
              sd_entries (sampleData snapshot) !! name = Some rows →
              rows ≠ []
              ∧ ∃ table, table ∈ tables snapshot ∧ key (tbl_name table) = name
                         ∧ has_columns (tbl_columns table) = true
      else getSemanticModelMetadata options st = (Throw pushError, st1).
Proof.
  destruct (snapshot_sampling options st) as (T & C & Ms & R & st1 & Ecat & H).
  exists T, C, Ms, R, st1. split; [exact Ecat|].
  destruct (groupable functionText (tableIdToName T) C); [|exact H].
  destruct H as (grouped & bs & st' & Eg & Hnames & _ & E).
  eexists _, st'. split; [exact E|]. cbn [sampleData tables].
  pose proof (columnsByTable_outcome functionText pushError (tableIdToName T) C) as Hout.
  rewrite Eg in Hout. destruct Hout as (_ & Hkeys & _).
  set (tables := build_tables grouped T) in *.
  assert (Hsub : ∀ t, t ∈ map fst bs →
                      ∃ table, table ∈ tables ∧ tbl_name table = t
                               ∧ has_columns (tbl_columns table) = true).
  { intros t. rewrite Hnames. destruct (_ && _); [|by intros ?%elem_of_nil].
    intros (table & -> & Hin)%list_elem_of_fmap. exists table.
    unfold tablesToSample in Hin. apply elem_of_take in Hin as (i & Hin & _).
    apply list_elem_of_lookup_2 in Hin. apply list_elem_of_filter in Hin as [Hc Hin].
    by repeat split. }
  split; [|split].
  - etransitivity; [apply collect_size|]. cbn [sd_entries]. rewrite map_size_empty.
    cbn [Nat.add]. rewrite <- (length_map fst bs), Hnames. rewrite length_map.
    destruct (_ && _); [|cbn; lia]. unfold tablesToSample. rewrite length_take. lia.
  - unfold collect_samples. rewrite collect_prototype; [reflexivity|].
    apply Forall_forall. intros [t rows] Hin. cbn [fst].
    destruct (Hsub t) as (table & H1 & <- & H3).
    { apply list_elem_of_fmap. by exists (t, rows). }
    by apply (sampled_not_proto grouped T).
  - intros name rows Hl. apply collect_lookup in Hl as [Hl|(Hr & t & Hin & Hk)].
    { cbn [sd_entries] in Hl. by rewrite lookup_empty in Hl. }
    split; [exact Hr|].
    destruct (Hsub t) as (table & H1 & H2 & H3).
    { apply list_elem_of_fmap. by exists (t, rows). }
    exists table. subst t. by repeat split.
Qed.

(** X19. With [fetchSampleData] set to [false], or when the catalog has
    no table, nothing is asked after the four catalog probes: when
    [getSemanticModelMetadata] returns, the connection and the world are
    as these left them, and [sampleData] is empty. *)
Theorem no_samples_no_requests options st :
  ∃ T C Ms R st1,
    fetch_catalog st = (Ok (T, C, Ms, R), st1)
    ∧ if groupable functionText (tableIdToName T) C then
        ∃ snapshot st',
          getSemanticModelMetadata options st = (Ok snapshot, st')
          ∧ (fetchSampleData options = Some false ∨ T = [] →
             st' = st1
             ∧ sampleData snapshot = {| sd_entries := ∅; sd_prototype := None |}
             ∧ tablesWithSampleData (summary snapshot) = 0%nat)
      else getSemanticModelMetadata options st = (Throw pushError, st1).
Proof.
  destruct (snapshot_sampling options st) as (T & C & Ms & R & st1 & Ecat & H).
  exists T, C, Ms, R, st1. split; [exact Ecat|].
  destruct (groupable functionText (tableIdToName T) C); [|exact H].
  destruct H as (grouped & bs & st' & Eg & Hnames & Hst & E).
  eexists _, st'. split; [exact E|].
  intros H. split; [by apply Hst|]. cbn [sampleData summary tablesWithSampleData].
  assert (bs = []) as ->; [|done].
  apply (f_equal length) in Hnames. rewrite !length_map in Hnames.
  destruct H as [H| ->].
  - rewrite H in Hnames. cbn in Hnames. by destruct bs.
  - rewrite andb_false_r in Hnames. by destruct bs.
Qed.

(** X20. When [getSemanticModelMetadata] returns, the counts follow the
    catalog: every table row and every measure row gives one entry,
    under its name and in catalog order, even a row without a name;
    relationship rows can be dropped, so there are at most as many
    relationships as rows. *)
Theorem snapshot_follows_catalog options st :
  ∃ T C Ms R st1,
    fetch_catalog st = (Ok (T, C, Ms, R), st1)
    ∧ if groupable functionText (tableIdToName T) C then
        ∃ snapshot st',
          getSemanticModelMetadata options st = (Ok snapshot, st')
          ∧ map tbl_name (tables snapshot) = map objectName T
          ∧ map msr_name (measures snapshot) = map objectName Ms
          ∧ tableCount (summary snapshot) = length T
          ∧ measureCount (summary snapshot) = length Ms
          ∧ (relationshipCount (summary snapshot) ≤ length R)%nat
      else getSemanticModelMetadata options st = (Throw pushError, st1).
Proof.
  destruct (snapshot_sampling options st) as (T & C & Ms & R & st1 & Ecat & H).
  exists T, C, Ms, R, st1. split; [exact Ecat|].
  destruct (groupable functionText (tableIdToName T) C); [|exact H].
  destruct H as (grouped & bs & st' & _ & _ & _ & E).
  eexists _, st'. split; [exact E|].
  cbn [tables measures summary tableCount measureCount relationshipCount].
  unfold build_tables, build_measures, build_relationships.
  rewrite !length_map, <- !list_fmap_compose. repeat split.
  etransitivity; [apply length_filter|]. by rewrite length_map.
Qed.

(** X21. When every query fails, [getSemanticModelMetadata] still
    returns: the snapshot of an empty model, all counts zero. *)
Theorem unreachable_model_is_empty options st :
  (∀ query st0, ∃ e st1, executeDMVQuery query st0 = (Throw e, st1)) →
  ∃ st', getSemanticModelMetadata options st = (Ok empty_snapshot, st').
Proof.
  intros Hfail.
  destruct (snapshot_shape unicodeUpper parseFromString World now xmlaRequest fetch
              functionText pushError options st) as (T & C & Ms & R & st1 & Ecat & H).
  assert (T = [] ∧ C = [] ∧ Ms = [] ∧ R = []) as (-> & -> & -> & ->).
  { revert Ecat. unfold Xmla.fetch_catalog, getTables, getColumns,
      getMeasures, getRelationships. fold executeDMVQuery. run.
    destruct (Hfail (catalog_query "TMSCHEMA_TABLES") st) as (e1 & s1 & ->).
    destruct (Hfail (catalog_query "TMSCHEMA_COLUMNS") s1) as (e2 & s2 & ->).
    destruct (Hfail (catalog_query "TMSCHEMA_MEASURES") s2) as (e3 & s3 & ->).
    destruct (Hfail relationships_query s3) as (e4 & s4 & ->).
    by intros [= <- <- <- <- _]. }
  change (columnsByTable functionText pushError (tableIdToName []) [])
    with (@Ok (gmap jsstring (list Column)) ∅) in H.
  destruct H as (bs & st' & Hnames & _ & E).
  exists st'. refine (eq_trans E _). clear E.
  cbn in Hnames. rewrite andb_false_r in Hnames. cbn in Hnames.
  destruct bs; [|discriminate]. reflexivity.
Qed.

End SnapshotMore.

Lemma unreachable_model_is_empty_witness :
  ∃ st', Offline.getSemanticModelMetadata
           {| fetchSampleData := None; maxSampleRows := None |} (Demo.connection, 0%nat)
         = (Ok empty_snapshot, st').
Proof.
  apply (unreachable_model_is_empty Demo.upper Demo.parseFromString Demo.World Demo.now
           Offline.transport Demo.fetch Demo.functionText Demo.pushError).
  intros query [c w]. eexists _, _.
  unfold Xmla.executeDMVQuery, Xmla.sendSOAPRequest, Offline.transport. run. reflexivity.
Defined.

(** Both ends of [getSemanticModelMetadata] on concrete catalogs: a table
    named [constructor] with a column makes the grouping throw; without
    a column it is listed with the inherited function for its columns
    and, the function having a parameter, asked for samples. *)
Lemma grouping_throws_for_inherited_name :
  let tablesResult := [Catalog.row [("ID", "7"); ("Name", "constructor")]]%string in
  let columnsResult :=
    [Catalog.row [("ID", "1"); ("ExplicitName", "Amount"); ("TableID", "7")]]%string in
  Catalog.getSemanticModelMetadata tablesResult columnsResult []
    {| fetchSampleData := None; maxSampleRows := None |} (Demo.connection, 0%nat)
  = (Throw Demo.pushError,
     (set_lastSuccessfulQuery 4 (set_connected true Demo.connection), 4%nat))
  ∧ match Catalog.getSemanticModelMetadata tablesResult [] []
            {| fetchSampleData := None; maxSampleRows := None |} (Demo.connection, 0%nat)
    with
    | (Ok snapshot, (_, requests)) =>
        tables snapshot
        = [{| tbl_name := Some (lit "constructor");
              tbl_columns := Obj.Member (lit "constructor") |}]
        ∧ requests = 5%nat
    | (Throw _, _) => False
    end.
Proof. by vm_compute. Qed.

Import Main.

(** ** The shell reads what the connection wrote *)

Lemma starts_with_self (p s : jsstring) : starts_with p (p ++ s) = true.
Proof. induction p as [|a p IH]; [done|]. cbn. by rewrite N.eqb_refl. Qed.

Lemma starts_with_app_false (o a rest : jsstring) :
  starts_with o a = false → starts_with a o = false → starts_with o (a ++ rest) = false.
Proof.
  revert a. induction o as [|x o IH]; intros [|y a]; cbn; try done.
  destruct (N.eqb_spec x y) as [->|]; [|done]. rewrite N.eqb_refl. cbn. apply IH.
Qed.

Lemma clear_here (o c : N) (needle a rest : jsstring) :
  clear_of needle (c :: a) = true → starts_with needle (c :: a ++ rest) = false.
Proof.
  cbn [clear_of]. intros [H _]%andb_prop. apply negb_true_iff, orb_false_elim in H as [H1 H2].
  by apply (starts_with_app_false needle (c :: a) rest).
Qed.

Lemma match_lazy_unfold opening class closing s :
  match_lazy opening class closing s
  = match (if starts_with opening s
           then lazy_group class closing (drop (length opening) s) else None) with
    | Some group => Some group
    | None =>
        match s with
        | _ :: s' => match_lazy opening class closing s'
        | [] => None
        end
    end.
Proof. by destruct s. Qed.

Lemma match_lazy_skip opening class closing (a rest : jsstring) :
  clear_of opening a = true →
  match_lazy opening class closing (a ++ rest) = match_lazy opening class closing rest.
Proof.
  induction a as [|c a IH]; [done|]. intros H.
  change ((c :: a) ++ rest) with (c :: a ++ rest). cbn [match_lazy].
  rewrite (clear_here 0 c opening a rest H). apply IH.
  cbn [clear_of] in H. by apply andb_prop in H as [_ H].
Qed.

Lemma no_char_clear (needle s : jsstring) (c : N) :
  head needle = Some c → Forall (λ x, x ≠ c) s → clear_of needle s = true.
Proof.
  destruct needle as [|c' needle]; [done|]. intros [= ->].
  induction 1 as [|x s Hx Hs IH]; [done|]. cbn [clear_of starts_with].
  rewrite IH, andb_true_r. apply N.eqb_neq in Hx as Hx'.
  rewrite Hx', (N.eqb_sym c x), Hx'. done.
Qed.

Lemma lazy_group_hit class (closing body post : jsstring) :
  Forall (λ c, class c = true) body → clear_of closing body = true →
  lazy_group class closing (body ++ closing ++ post) = Some body.
Proof.
  induction 1 as [|c body Hc Hb IH]; intros Hclear.
  - cbn [app]. destruct closing as [|x closing]; [by destruct post|].
    change ((x :: closing) ++ post) with (x :: closing ++ post). cbn [lazy_group].
    change (x :: closing ++ post) with ((x :: closing) ++ post).
    by rewrite starts_with_self.
  - change ((c :: body) ++ closing ++ post) with (c :: body ++ closing ++ post).
    cbn [lazy_group]. rewrite (clear_here 0 c closing body _ Hclear), Hc, IH; [done|].
    cbn [clear_of] in Hclear. by apply andb_prop in Hclear as [_ H].
Qed.

Lemma match_lazy_hit opening class (closing body post : jsstring) :
  Forall (λ c, class c = true) body → clear_of closing body = true →
  match_lazy opening class closing (opening ++ body ++ closing ++ post) = Some body.
Proof.
  intros Hb Hc. rewrite match_lazy_unfold, starts_with_self, drop_app_length.
  by rewrite lazy_group_hit.
Qed.

Lemma match_lazy_miss opening class closing (s : jsstring) :
  includes s opening = false → match_lazy opening class closing s = None.
Proof.
  induction s as [|c s IH]; cbn [includes match_lazy].
  - by intros [-> _]%orb_false_elim.
  - intros [-> H]%orb_false_elim. by apply IH.
Qed.

(** What [escapeXml] returns holds no [<], and no line end that was not
    in its argument. *)
Lemma escaped_no_bracket s :
  Forall (λ x, x ≠ 60) (flat_map (entity false false false false false) s).
Proof.
  induction s as [|c s IH]; [done|]. cbn [flat_map]. apply Forall_app. split; [|done].
  destruct (special_cases c) as [->|[->|[->|[->|[->|(H1&H2&H3&H4&H5)]]]]];
    try (by repeat constructor).
  unfold entity. rewrite H1, H2, H3, H4, H5. constructor; [|done].
  by apply N.eqb_neq.
Qed.

Lemma escaped_dot s :
  forallb dot s = true →
  Forall (λ c, dot c = true) (flat_map (entity false false false false false) s).
Proof.
  induction s as [|c s IH]; [done|]. cbn [forallb flat_map]. intros [Hc Hs]%andb_prop.
  apply Forall_app. split; [|by apply IH].
  destruct (special_cases c) as [->|[->|[->|[->|[->|(H1&H2&H3&H4&H5)]]]]];
    try (by repeat constructor).
  unfold entity. rewrite H1, H2, H3, H4, H5. by constructor.
Qed.

Lemma escapeXml_entities s :
  Xmla.escapeXml s = flat_map (entity false false false false false) s.
Proof. destruct s; [done|]. unfold Xmla.escapeXml. apply escape_chain_entities. Qed.

Lemma unescape_entities s :
  Utils.unescapeXml (flat_map (entity false false false false false) s) = s.
Proof.
  transitivity (flat_map (entity true true true true true) s);
    [|apply entities_all_back].
  rewrite <- unescape_amp, <- unescape_lt, <- unescape_gt, <- unescape_quot,
    <- unescape_apos.
  unfold Utils.unescapeXml. by destruct (flat_map _ s).
Qed.

Lemma buildExecuteRequest_parts c query :
  buildExecuteRequest c query
  = execute_head ++ lit "<Statement>" ++ Xmla.escapeXml query ++ lit "</Statement>"
    ++ execute_middle ++ lit "<Catalog>" ++ Xmla.escapeXml (database c) ++ lit "</Catalog>"
    ++ execute_tail.
Proof.
  unfold buildExecuteRequest, execute_head, execute_middle, execute_tail.
  rewrite <- !app_assoc. reflexivity.
Qed.

Lemma statement_of_request c query :
  match_lazy (lit "<Statement>") any (lit "</Statement>") (buildExecuteRequest c query)
  = Some (Xmla.escapeXml query).
Proof.
  rewrite buildExecuteRequest_parts.
  rewrite match_lazy_skip by by vm_compute.
  apply match_lazy_hit.
  - by apply Forall_forall.
  - apply (no_char_clear _ _ 60); [done|]. rewrite escapeXml_entities.
    apply escaped_no_bracket.
Qed.

Lemma extract_of_request c query :
  extractQueryFromSOAP (buildExecuteRequest c query)
  = match query with
    | [] => Throw (lit "Could not extract query from SOAP body")
    | _ => Ok (trim query)
    end.
Proof.
  unfold extractQueryFromSOAP. rewrite statement_of_request, escapeXml_entities.
  destruct query as [|x query]; [done|].
  destruct (flat_map _ (x :: query)) as [|y e] eqn:E.
  - exfalso. cbn [flat_map] in E. apply app_eq_nil in E as [E _]. revert E.
    destruct (special_cases x) as [->|[->|[->|[->|[->|(H1&H2&H3&H4&H5)]]]]]; try done.
    unfold entity. by rewrite H1, H2, H3, H4, H5.
  - by rewrite <- E, unescape_entities.
Qed.

Lemma catalog_of_request c query :
  forallb dot (database c) = true →
  match_lazy (lit "<Catalog>") dot (lit "</Catalog>") (buildExecuteRequest c query)
  = Some (Xmla.escapeXml (database c)).
Proof.
  intros Hdot. rewrite buildExecuteRequest_parts.
  rewrite match_lazy_skip by by vm_compute.
  change (lit "<Statement>" ++ ?x) with (lit "<Statement>" ++ x).
  rewrite (match_lazy_skip _ _ _ (lit "<Statement>")) by by vm_compute.
  rewrite match_lazy_skip.
  2:{ apply (no_char_clear _ _ 60); [done|]. rewrite escapeXml_entities.
      apply escaped_no_bracket. }
  rewrite (match_lazy_skip _ _ _ (lit "</Statement>")) by by vm_compute.
  rewrite match_lazy_skip by by vm_compute.
  apply match_lazy_hit.
  - rewrite escapeXml_entities. by apply escaped_dot.
  - apply (no_char_clear _ _ 60); [done|]. rewrite escapeXml_entities.
    apply escaped_no_bracket.
Qed.

(** X22. The shell recovers the query from the request the connection
    builds: [extractQueryFromSOAP] gives back the query, trimmed, for
    every query and every database name, whatever markup they contain;
    the request of the empty query is turned down. *)
Theorem extractQueryFromSOAP_buildExecuteRequest (c : XMLAConnection) (query : jsstring) :
  extractQueryFromSOAP (buildExecuteRequest c query)
  = match query with
    | [] => Throw (lit "Could not extract query from SOAP body")
    | _ => Ok (trim query)
    end.
Proof. exact (extract_of_request c query). Qed.

(** X23. A request without a [Statement] element is turned down. *)
Theorem extractQueryFromSOAP_needs_statement (soapBody : jsstring) :
  includes soapBody (lit "<Statement>") = false →
  extractQueryFromSOAP soapBody = Throw (lit "Could not extract query from SOAP body").
Proof.
  intros H. unfold extractQueryFromSOAP. by rewrite match_lazy_miss.
Qed.

Lemma extractQueryFromSOAP_needs_statement_witness :
  extractQueryFromSOAP
    (buildDiscoverRequest Demo.connection (lit "DISCOVER_PROPERTIES")
       [(lit "PropertyName", lit "Catalog")])
  = Throw (lit "Could not extract query from SOAP body").
Proof.
  apply extractQueryFromSOAP_needs_statement. by vm_compute.
Defined.

Section Handler.

Variable World : Type.
Variable URL : jsstring → res (jsstring * jsstring).
Variable loadXmlaBridge : World → res (BridgeInput → World → res BridgeResult * World) * World.

Let request_input := Main.request_input URL.
Let call_bridge := Main.call_bridge World loadXmlaBridge.
Let xmla_request := Main.xmla_request World URL loadXmlaBridge.

(** X24. For a request built by the connection, the handler asks the
    bridge for the host and port of the endpoint, for the trimmed query,
    and for the database name as [escapeXml] wrote it: the statement is
    unescaped, the catalog is not. *)
Theorem request_input_of_connection (c : XMLAConnection) (query hostname port : jsstring) :
  URL (xmlaEndpoint c) = Ok (hostname, port) →
  query ≠ [] →
  forallb dot (database c) = true →
  request_input (xmlaEndpoint c) (buildExecuteRequest c query)
  = Ok {| bi_server := hostname ++ lit ":" ++ port;
          bi_database := Xmla.escapeXml (database c);
          bi_query := trim query;
          bi_timeout := 30 |}.
Proof.
  intros HURL Hq Hdot. unfold request_input, Main.request_input.
  rewrite HURL, (catalog_of_request c query Hdot), extract_of_request.
  by destruct query.
Qed.

Lemma reply_shape (endpoint soapBody : jsstring) (w : World) reply w' :
  xmla_request endpoint soapBody w = (Ok reply, w') →
  success reply = true
  ∧ (∃ rows, data reply = convertToXMLResponse rows)
  ∧ ∃ input, request_input endpoint soapBody = Ok input.
Proof.
  unfold xmla_request, Main.xmla_request. fold request_input.
  destruct (request_input endpoint soapBody) as [input|e].
  - unfold Main.call_bridge.
    destruct (loadXmlaBridge w) as [[bridge|e] w1].
    + destruct (bridge input w1) as [[result|e] w2].
      * destruct (br_success result).
        -- intros [= <- _]. by eauto.
        -- cbv zeta. by destruct (includes _ _).
      * by destruct (includes _ _).
    + by destruct (includes _ _).
  - by destruct (includes _ _).
Qed.

(** X25. The handler never replies with [success] unset: it returns a
    reply with [success] set whose data is a converted result, or it
    throws. When the request cannot be read, it throws without calling
    the bridge: the world is as it was. *)
Theorem xmla_request_replies (endpoint soapBody : jsstring) (w : World) :
  (∀ reply w', xmla_request endpoint soapBody w = (Ok reply, w') →
     success reply = true
     ∧ (∃ rows, data reply = convertToXMLResponse rows)
     ∧ ∃ input, request_input endpoint soapBody = Ok input)
  ∧ (∀ e, request_input endpoint soapBody = Throw e →
       ∃ message, xmla_request endpoint soapBody w = (Throw message, w)).
Proof.
  split; [apply reply_shape|].
  unfold xmla_request, Main.xmla_request. fold request_input.
  intros e ->. destruct (includes _ _); by eauto.
Qed.

Variable parseFromString : jsstring → list Node.
Variable now : World → N.
Variable fetch : jsstring → jsstring → World → res Response * World.


End Handler.

Lemma request_input_of_connection_witness :
  Shell.request_input (xmlaEndpoint Demo.connection)
    (buildExecuteRequest Demo.connection (lit " EVALUATE 'R&D' "))
  = Ok {| bi_server := lit "localhost" ++ lit ":" ++ lit "51234";
          bi_database := Xmla.escapeXml (database Demo.connection);
          bi_query := trim (lit " EVALUATE 'R&D' ");
          bi_timeout := 30 |}.
Proof.
  apply (request_input_of_connection Shell.URL Demo.connection (lit " EVALUATE 'R&D' ")
           (lit "localhost") (lit "51234")); by vm_compute.
Defined.

(** ** The connection arguments *)

Lemma match_greedy_unfold opening class s :
  match_greedy opening class s
  = match (if starts_with opening s
           then match take_while class (drop (length opening) s) with
                | [] => None
                | group => Some group
                end
           else None) with
    | Some group => Some group
    | None =>
        match s with
        | _ :: s' => match_greedy opening class s'
        | [] => None
        end
    end.
Proof. by destruct s. Qed.

Lemma take_while_run class (run rest : jsstring) c :
  forallb class run = true → class c = false →
  take_while class (run ++ c :: rest) = run.
Proof.
  intros H Hc. induction run as [|x run IH]; cbn [app take_while forallb] in *.
  - by rewrite Hc.
  - apply andb_prop in H as [-> H]. by rewrite IH.
Qed.

Lemma match_greedy_hit opening class (group rest : jsstring) c :
  group ≠ [] → forallb class group = true → class c = false →
  match_greedy opening class (opening ++ group ++ c :: rest) = Some group.
Proof.
  intros Hne Hg Hc. rewrite match_greedy_unfold, starts_with_self, drop_app_length.
  rewrite (take_while_run _ _ _ _ Hg Hc). by destruct group.
Qed.

(** An occurrence of [needle] that begins in [a] ends in [a] when the
    code unit after [a] is not one of [needle]. *)
Lemma starts_with_cut (needle a : jsstring) (x : N) (more : jsstring) :
  x ∉ needle → starts_with needle (a ++ x :: more) = true → starts_with needle a = true.
Proof.
  revert a. induction needle as [|n needle IH]; intros a Hx; [done|].
  destruct a as [|b a]; cbn [app starts_with].
  - intros [->%N.eqb_eq _]%andb_prop. exfalso. apply Hx. by left.
  - intros [-> H]%andb_prop. cbn [andb]. apply (IH a); [|done].
    intros Hin. apply Hx. by right.
Qed.

Lemma match_greedy_skip opening class (a : jsstring) (x : N) (more : jsstring) :
  x ∉ opening → includes a opening = false →
  match_greedy opening class (a ++ x :: more) = match_greedy opening class (x :: more).
Proof.
  intros Hx. induction a as [|c a IH]; [done|]. cbn [includes].
  intros [H1 H2]%orb_false_elim.
  change ((c :: a) ++ x :: more) with (c :: a ++ x :: more). cbn [match_greedy].
  destruct (starts_with opening (c :: a ++ x :: more)) eqn:E; [|by apply IH].
  apply (starts_with_cut opening (c :: a) x more Hx) in E. congruence.
Qed.

Lemma includes_other (c : N) (a needle : jsstring) (n : N) :
  head needle = Some n → c ≠ n → includes (c :: a) needle = includes a needle.
Proof.
  destruct needle as [|n' needle]; [done|]. intros [= ->] Hc%N.eqb_neq.
  cbn [includes starts_with]. by rewrite (N.eqb_sym n c), Hc.
Qed.

(** X27. From the argument Power BI passes,
    [Server=s;Database=d;...], the shell reads the server [s] and the
    database [d], whatever arguments came before: both are the texts up
    to the next semicolon. *)
Theorem connection_arguments_read (before : list jsstring) (s d rest : jsstring) :
  s ≠ [] → d ≠ [] →
  forallb not_semicolon s = true → forallb not_semicolon d = true →
  includes s (lit "Database=") = false →
  connection_arguments
    (before ++ [lit "Server=" ++ s ++ lit ";Database=" ++ d ++ lit ";" ++ rest])
  = (s, d).
Proof.
  intros Hs Hd Hss Hds Hincl. unfold connection_arguments.
  rewrite fold_left_app. cbn [fold_left].
  destruct (fold_left read_argument before ([], [])) as [serverName databaseName].
  unfold read_argument.
  assert (Hin : includes (lit "Server=" ++ s ++ lit ";Database=" ++ d ++ lit ";" ++ rest)
                  (lit "Server=") = true).
  { change (lit "Server=" ++ ?x) with (83 :: lit "erver=" ++ x). cbn [includes].
    change (83 :: lit "erver=" ++ ?x) with (lit "Server=" ++ x).
    by rewrite starts_with_self. }
  rewrite Hin. cbn [orb].
  change (lit ";Database=" ++ ?x) with (59 :: lit "Database=" ++ x).
  rewrite (match_greedy_hit (lit "Server=") not_semicolon s _ 59 Hs Hss eq_refl).
  change (lit "Server=" ++ s ++ ?x) with ((lit "Server=" ++ s) ++ x).
  rewrite (match_greedy_skip (lit "Database=") not_semicolon (lit "Server=" ++ s) 59).
  - rewrite match_greedy_unfold.
    change (starts_with (lit "Database=") (59 :: ?x)) with false. cbv iota.
    change (lit ";" ++ rest) with (59 :: rest).
    by rewrite (match_greedy_hit (lit "Database=") not_semicolon d _ 59 Hd Hds eq_refl).
  - intros H. by repeat (apply elem_of_cons in H as [H|H]; [discriminate H|]);
      apply elem_of_nil in H.
  - change (lit "Server=" ++ s) with (83 :: 101 :: 114 :: 118 :: 101 :: 114 :: 61 :: s).
    by rewrite !(includes_other _ _ (lit "Database=") 68 eq_refl) by done.
Qed.

Lemma connection_arguments_read_witness :
  connection_arguments
    [lit "--inspect";
     lit "Server=localhost:12345;Database=abc123;ApplicationName=PowerBI"]
  = (lit "localhost:12345", lit "abc123").
Proof.
  apply (connection_arguments_read [lit "--inspect"] (lit "localhost:12345")
           (lit "abc123") (lit "ApplicationName=PowerBI")); by vm_compute.
Defined.

Lemma xmla_request_replies_witness :
  ∃ message,
    Shell.xmla_request (lit "http://localhost:51234/xmla")
      (buildDiscoverRequest Demo.connection (lit "DISCOVER_PROPERTIES") []) 0%nat
    = (Throw message, 0%nat).
Proof.
  destruct (xmla_request_replies Shell.World Shell.URL Shell.loadXmlaBridge
              (lit "http://localhost:51234/xmla")
              (buildDiscoverRequest Demo.connection (lit "DISCOVER_PROPERTIES") []) 0%nat)
    as [_ H].
  apply (H (lit "Could not extract query from SOAP body")). by vm_compute.
Defined.

(** ** The errors of [validate] *)

Section ValidatorErrors.

Variable unicodeUpper : jsstring → jsstring.

Lemma check_blocked_errors q ps : ∀ r acc,
  errors (fst (fold_left (check_blocked q) ps (r, acc)))
  = errors r ++ map blocked_message (filter (λ p, fst (test p q) = true) ps).
Proof.
  induction ps as [|p ps IH]; intros r acc; cbn [fold_left].
  - by rewrite app_nil_r.
  - unfold check_blocked at 2. rewrite filter_cons.
    destruct (test p q) as [[] p'] eqn:E; cbn [fst]; rewrite IH.
    + rewrite decide_True by done. cbn [errors fail_with map].
      by rewrite <- app_assoc.
    + by rewrite decide_False by done.
Qed.

(** X28. The errors of a text that is not blank are one error for each
    blocked pattern that hits the trimmed text, in the order of the
    patterns, followed by the SELECT error when the text starts with
    SELECT; no other check adds an error. *)
Theorem validate_errors (v : DAXValidator) (q : jsstring) :
  trim q ≠ [] →
  errors (fst (validate unicodeUpper v (JStr q)))
  = map blocked_message
      (filter (λ p, fst (test p (trim q)) = true) (blockedPatterns v))
    ++ (if test_fresh re_select (trim q) then [select_message] else []).
Proof.
  intros Hne. unfold validate. destruct q as [|c q]; [done|].
  destruct (length (trim (c :: q)) =? 0)%nat eqn:L.
  { apply Nat.eqb_eq in L. by destruct (trim (c :: q)). }
  pose proof (check_blocked_errors (trim (c :: q)) (blockedPatterns v)
                {| isValid := true; warnings := []; errors := []; modified := false;
                   modifiedQuery := JStr (c :: q) |} []) as H1.
  destruct (fold_left (check_blocked _) _ _) as [r1 ps]. cbn [fst errors app] in H1 |- *.
  set (E := map blocked_message _) in *.
  set (r2 := fold_left (check_nested _) _ r1).
  assert (H2 : errors r2 = E) by (apply keeps_check_nested; [by intros|done]).
  set (r3 := if negb _ && negb _ then _ else r2).
  assert (H3 : errors r3 = E) by (subst r3; by destruct (_ && _)).
  set (r4 := if test_fresh re_select _ then _ else r3).
  set (E' := E ++ _).
  assert (H4 : errors r4 = E').
  { subst r4 E'. destruct (test_fresh re_select _); cbn [errors fail_with].
    - by rewrite H3.
    - by rewrite app_nil_r. }
  set (r5 := fold_left (check_keyword _ _) _ r4).
  assert (H5 : errors r5 = E') by (apply keeps_check_keyword; [by intros|done]).
  match goal with |- context [if ?b then warn _ _ else r5] => by destruct b end.
Qed.

(** X29. For every input value, the result is valid exactly when it has
    no error: a warning never makes a query invalid. *)
Theorem validate_valid_without_error (v : DAXValidator) (x : JsValue) :
  let r := fst (validate unicodeUpper v x) in
  isValid r = true ↔ errors r = [].
Proof.
  apply (validate_keeps unicodeUpper (λ r, isValid r = true ↔ errors r = [])); try done.
  intros e r _. cbn [isValid errors fail_with]. split; [done|].
  by intros [_ ?]%app_eq_nil.
Qed.

End ValidatorErrors.

Lemma validate_errors_witness :
  errors (fst (validate Demo.upper Demo.validator
                 (JStr (lit " select crossjoin(all(T), U) "))))
  = map blocked_message
      (filter (λ p, fst (test p (trim (lit " select crossjoin(all(T), U) "))) = true)
              (blockedPatterns Demo.validator))
    ++ (if test_fresh re_select (trim (lit " select crossjoin(all(T), U) "))
        then [select_message] else []).
Proof.
  apply (validate_errors Demo.upper Demo.validator (lit " select crossjoin(all(T), U) ")).
  by vm_compute.
Defined.
